(** * ConnectTool overlay VPN: address negotiation, routing and forwarding

    A shallow embedding of the distributed IPv4 allocation and forwarding
    plane of ConnectTool (node identity, IP negotiator, route manager,
    heartbeat manager and the bridge's inbound message handler), followed
    by the properties of the specification that are checked against it.

    Conventions of the embedding:
    - [uint32_t] / [uint64_t] values are [Z] with the wrap-around written
      out ([u32], [u64]); [int64_t] arithmetic wraps in two's complement
      ([s64]);
    - wire buffers are [list byte]; a [NodeID] is the list of its 32 bytes;
    - [std::map] / [std::set] are stdpp's [gmap] / [gset];
    - [std::chrono::steady_clock] time points are tick counts ([Z],
      nanoseconds); every function that reads the clock takes [now];
    - the [std::function] callbacks are modelled by a flag telling whether
      the callback is installed plus the list of calls made, in order. *)

From Stdlib Require Import ZArith List Lia Bool.
From Stdlib.Strings Require Import Byte.
From stdpp Require Import gmap strings list fin_maps sorting.

Local Open Scope Z_scope.

(** ** Machine integers and bytes *)

Definition u32 (z : Z) : Z := z mod 2 ^ 32.
Definition u64 (z : Z) : Z := z mod 2 ^ 64.
Definition s64 (z : Z) : Z := (z + 2 ^ 63) mod 2 ^ 64 - 2 ^ 63.

(** [int] arithmetic, wrapping in two's complement. *)
Definition s32 (z : Z) : Z := (z + 2 ^ 31) mod 2 ^ 32 - 2 ^ 31.

(** [~x] on a [uint32_t]. *)
Definition not32 (x : Z) : Z := u32 (Z.lnot x).

Definition u8 (b : byte) : Z := Z.of_N (Byte.to_N b).

Definition byte_of_Z (z : Z) : byte :=
  match Byte.of_N (Z.to_N (z mod 256)) with
  | Some b => b
  | None => x00
  end.

#[global] Instance byte_eq_dec : EqDecision byte := Byte.byte_eq_dec.

#[global] Instance byte_countable : Countable byte :=
  inj_countable Byte.to_N Byte.of_N Byte.of_to_N.

(** [len] bytes of [data] starting at [off] (a [memcpy] source). *)
Definition slice (data : list byte) (off len : nat) : list byte :=
  firstn len (skipn off data).

(** Big-endian reading of a byte string: [ntohl]/[ntohs] applied to the
    integer that [memcpy] put in memory. *)
Definition be_value (bs : list byte) : Z :=
  fold_left (fun acc b => acc * 256 + u8 b) bs 0.

(** Little-endian reading: a plain [memcpy] into an integer on the
    little-endian hosts the program runs on. *)
Definition le_value (bs : list byte) : Z :=
  fold_right (fun b acc => u8 b + 256 * acc) 0 bs.

Definition le_bytes (n : nat) (z : Z) : list byte :=
  map (fun i => byte_of_Z (Z.shiftr z (8 * Z.of_nat i))) (seq 0 n).

Definition be_bytes2 (z : Z) : list byte :=
  [byte_of_Z (Z.shiftr z 8); byte_of_Z z].

(** ** vpn_protocol.h *)

Definition PROBE_TIMEOUT_MS : Z := 500.
Definition HEARTBEAT_INTERVAL_MS : Z := 60000.
Definition LEASE_EXPIRY_MS : Z := 360000.
Definition HEARTBEAT_EXPIRY_MS : Z := 180000.
Definition NODE_ID_SIZE : nat := 32.
Definition APP_SECRET_SALT : string := "ConnectTool_VPN_Salt_v1".

Definition VPN_MESSAGE_OVERHEAD : Z := 35.

Definition NodeID : Type := list byte.
Definition CSteamID : Type := Z.

(** Ticks of [steady_clock] per millisecond, and
    [duration_cast<milliseconds>(d).count()], which truncates toward zero. *)
Definition ticks_per_ms : Z := 1000000.
Definition to_ms (d : Z) : Z := Z.quot d ticks_per_ms.

Inductive VpnMessageType : Type :=
| IP_PACKET | ROUTE_UPDATE | PROBE_REQUEST | PROBE_RESPONSE
| ADDRESS_ANNOUNCE | FORCED_RELEASE | HEARTBEAT | HEARTBEAT_ACK.

Definition type_code (t : VpnMessageType) : Z :=
  match t with
  | IP_PACKET => 1 | ROUTE_UPDATE => 3 | PROBE_REQUEST => 10
  | PROBE_RESPONSE => 11 | ADDRESS_ANNOUNCE => 12 | FORCED_RELEASE => 13
  | HEARTBEAT => 14 | HEARTBEAT_ACK => 15
  end.

Definition type_of_code (c : Z) : option VpnMessageType :=
  if c =? 1 then Some IP_PACKET else if c =? 3 then Some ROUTE_UPDATE
  else if c =? 10 then Some PROBE_REQUEST else if c =? 11 then Some PROBE_RESPONSE
  else if c =? 12 then Some ADDRESS_ANNOUNCE else if c =? 13 then Some FORCED_RELEASE
  else if c =? 14 then Some HEARTBEAT else if c =? 15 then Some HEARTBEAT_ACK
  else None.

(** Sizes of the packed structs. *)
Definition sizeof_VpnMessageHeader : Z := 3.
Definition sizeof_VpnPacketWrapper : Z := 32.
Definition sizeof_ProbeRequestPayload : Z := 36.
Definition sizeof_ProbeResponsePayload : Z := 44.
Definition sizeof_AddressAnnouncePayload : Z := 36.
Definition sizeof_ForcedReleasePayload : Z := 36.
Definition sizeof_HeartbeatPayload : Z := 44.

(** The payload structs.  [ipAddress] is kept in host byte order: the
    sender's [htonl] and the receiver's [ntohl] are the big-endian
    encoding and decoding of the same number. *)
Record ProbeRequestPayload : Type :=
  { prq_ipAddress : Z; prq_nodeId : NodeID }.
Record ProbeResponsePayload : Type :=
  { prs_ipAddress : Z; prs_nodeId : NodeID; prs_lastHeartbeatMs : Z }.
Record AddressAnnouncePayload : Type :=
  { aa_ipAddress : Z; aa_nodeId : NodeID }.
Record ForcedReleasePayload : Type :=
  { fr_ipAddress : Z; fr_winnerNodeId : NodeID }.
Record HeartbeatPayload : Type :=
  { hb_ipAddress : Z; hb_nodeId : NodeID; hb_timestampMs : Z }.

(** What a send callback is handed as its payload buffer. *)
Inductive Payload : Type :=
| PProbeRequest (p : ProbeRequestPayload)
| PProbeResponse (p : ProbeResponsePayload)
| PAddressAnnounce (p : AddressAnnouncePayload)
| PForcedRelease (p : ForcedReleasePayload)
| PHeartbeat (p : HeartbeatPayload)
| PRaw (bytes : list byte).

Record NodeInfo : Type :=
  { ni_nodeId : NodeID;
    ni_steamId : CSteamID;
    ni_ipAddress : Z;
    ni_lastHeartbeat : Z;
    ni_name : string;
    ni_isLocal : bool }.

(** [NodeInfo::isLeaseExpired], reading the clock as [now]. *)
Definition isLeaseExpired (now : Z) (n : NodeInfo) : bool :=
  LEASE_EXPIRY_MS <=? to_ms (now - ni_lastHeartbeat n).

Record RouteEntry : Type :=
  { steamID : CSteamID;
    ipAddress : Z;
    name : string;
    isLocal : bool;
    nodeId : NodeID }.

(** The Steam API, the hash library and the TUN driver, which the program
    only calls: the local user, persona names, SHA-256, and whether
    [set_ip] followed by [set_up] succeeds for an address and a mask. *)
Record SteamEnv : Type :=
  { GetSteamID : CSteamID;
    GetPersonaName : string;
    GetFriendPersonaName : CSteamID -> string;
    sha256 : list byte -> option (list byte);
    tun_set_ip_up : Z -> Z -> bool }.

(** ** node_identity.cpp *)

Module NodeIdentity.

Definition salt_bytes : list byte :=
  map (fun a => byte_of_Z (Z.of_nat (Ascii.nat_of_ascii a)))
      (String.list_ascii_of_string APP_SECRET_SALT).

Definition generate (env : SteamEnv) (steamID : CSteamID) : NodeID :=
  match sha256 env (le_bytes 8 steamID ++ salt_bytes) with
  | Some h => h
  | None => repeat x00 NODE_ID_SIZE
  end.

(** The loop of [compare] over the 32 positions. *)
Fixpoint compare_from (n : nat) (i : nat) (a b : NodeID) : Z :=
  match n with
  | O => 0
  | S n' =>
      let ai := u8 (nth i a x00) in
      let bi := u8 (nth i b x00) in
      if ai <? bi then -1
      else if bi <? ai then 1
      else compare_from n' (S i) a b
  end.

Definition compare (a b : NodeID) : Z := compare_from NODE_ID_SIZE 0 a b.

Definition hasPriority (a b : NodeID) : bool := 0 <? compare a b.

(** The loop of [isEmpty] over the 32 positions. *)
Fixpoint isEmpty_from (n : nat) (i : nat) (id : NodeID) : bool :=
  match n with
  | O => true
  | S n' =>
      if negb (u8 (nth i id x00) =? 0) then false
      else isEmpty_from n' (S i) id
  end.

Definition isEmpty (id : NodeID) : bool := isEmpty_from NODE_ID_SIZE 0 id.

End NodeIdentity.

(** ** vpn_utils.cpp *)

Module VpnUtils.

Definition extractDestIP (packet : list byte) : Z :=
  if Z.of_nat (length packet) <? 20 then 0
  else
    let version := Z.land (Z.shiftr (u8 (nth 0 packet x00)) 4) 15 in
    if negb (version =? 4) then 0
    else be_value (slice packet 16 4).

Definition isBroadcastAddress (ip baseIP subnetMask : Z) : bool :=
  if ip =? 4294967295 then true
  else
    let subnetBroadcast := Z.lor (Z.land baseIP subnetMask) (not32 subnetMask) in
    if ip =? subnetBroadcast then true
    else
      let firstOctet := Z.land (Z.shiftr ip 24) 255 in
      if (224 <=? firstOctet) && (firstOctet <=? 239) then true
      else false.

Definition calculateTunMtu (steamMtuDataSize : Z) : Z :=
  let tunMtu := s32 (s32 (steamMtuDataSize - VPN_MESSAGE_OVERHEAD) - 15) in
  if tunMtu <? 576 then 576
  else if 1500 <? tunMtu then 1500
  else tunMtu.

Definition extractSourceIP (packet : list byte) : Z :=
  if Z.of_nat (length packet) <? 20 then 0
  else
    let version := Z.land (Z.shiftr (u8 (nth 0 packet x00)) 4) 15 in
    if negb (version =? 4) then 0
    else be_value (slice packet 12 4).

End VpnUtils.

(** ** ip_negotiator.cpp *)

Module IpNegotiator.

Inductive NegotiationState : Type := IDLE | PROBING | STABLE.

#[global] Instance NegotiationState_eq_dec : EqDecision NegotiationState.
Proof. intros a b. unfold Decision. decide equality. Defined.

Record ConflictInfo : Type :=
  { ci_nodeId : NodeID;
    ci_lastHeartbeatMs : Z;
    ci_senderSteamID : CSteamID }.

(** A call made through one of the negotiator's callbacks. *)
Inductive Call : Type :=
| Send (type : VpnMessageType) (payload : Payload)
       (targetSteamID : CSteamID) (reliable : bool)
| Broadcast (type : VpnMessageType) (payload : Payload) (reliable : bool)
| Success (ipAddress : Z) (nodeId : NodeID).

Record t : Type :=
  { localNodeId_ : NodeID;
    localSteamID_ : CSteamID;
    localIP_ : Z;
    baseIP_ : Z;
    subnetMask_ : Z;
    state_ : NegotiationState;
    candidateIP_ : Z;
    probeOffset_ : Z;
    probeStartTime_ : Z;
    collectedConflicts_ : list ConflictInfo;
    usedIPs_ : gset Z;
    sendCallback_ : bool;
    broadcastCallback_ : bool;
    successCallback_ : bool }.

Definition set_probe (n : t) (cand : Z) (st : NegotiationState)
    (start : Z) (conflicts : list ConflictInfo) : t :=
  {| localNodeId_ := localNodeId_ n; localSteamID_ := localSteamID_ n;
     localIP_ := localIP_ n; baseIP_ := baseIP_ n;
     subnetMask_ := subnetMask_ n; state_ := st; candidateIP_ := cand;
     probeOffset_ := probeOffset_ n; probeStartTime_ := start;
     collectedConflicts_ := conflicts; usedIPs_ := usedIPs_ n;
     sendCallback_ := sendCallback_ n;
     broadcastCallback_ := broadcastCallback_ n;
     successCallback_ := successCallback_ n |}.

Definition set_offset (n : t) (off : Z) : t :=
  {| localNodeId_ := localNodeId_ n; localSteamID_ := localSteamID_ n;
     localIP_ := localIP_ n; baseIP_ := baseIP_ n;
     subnetMask_ := subnetMask_ n; state_ := state_ n;
     candidateIP_ := candidateIP_ n; probeOffset_ := off;
     probeStartTime_ := probeStartTime_ n;
     collectedConflicts_ := collectedConflicts_ n; usedIPs_ := usedIPs_ n;
     sendCallback_ := sendCallback_ n;
     broadcastCallback_ := broadcastCallback_ n;
     successCallback_ := successCallback_ n |}.

Definition set_state (n : t) (st : NegotiationState) : t :=
  set_probe n (candidateIP_ n) st (probeStartTime_ n) (collectedConflicts_ n).

Definition set_conflicts (n : t) (cs : list ConflictInfo) : t :=
  set_probe n (candidateIP_ n) (state_ n) (probeStartTime_ n) cs.

Definition set_stable (n : t) (ip : Z) : t :=
  {| localNodeId_ := localNodeId_ n; localSteamID_ := localSteamID_ n;
     localIP_ := ip; baseIP_ := baseIP_ n;
     subnetMask_ := subnetMask_ n; state_ := STABLE;
     candidateIP_ := candidateIP_ n; probeOffset_ := probeOffset_ n;
     probeStartTime_ := probeStartTime_ n;
     collectedConflicts_ := collectedConflicts_ n; usedIPs_ := usedIPs_ n;
     sendCallback_ := sendCallback_ n;
     broadcastCallback_ := broadcastCallback_ n;
     successCallback_ := successCallback_ n |}.

Definition set_usedIPs (n : t) (s : gset Z) : t :=
  {| localNodeId_ := localNodeId_ n; localSteamID_ := localSteamID_ n;
     localIP_ := localIP_ n; baseIP_ := baseIP_ n;
     subnetMask_ := subnetMask_ n; state_ := state_ n;
     candidateIP_ := candidateIP_ n; probeOffset_ := probeOffset_ n;
     probeStartTime_ := probeStartTime_ n;
     collectedConflicts_ := collectedConflicts_ n; usedIPs_ := s;
     sendCallback_ := sendCallback_ n;
     broadcastCallback_ := broadcastCallback_ n;
     successCallback_ := successCallback_ n |}.

(** The low 24 bits of the node ID, as [generateCandidateIP] reads them. *)
Definition lo24 (id : NodeID) : Z :=
  Z.lor (Z.lor (u8 (nth 31 id x00))
               (Z.shiftl (u8 (nth 30 id x00)) 8))
        (Z.shiftl (u8 (nth 29 id x00)) 16).

(** [maxHosts], computed the same way in both functions below. *)
Definition maxHosts_of (subnetMask : Z) : Z :=
  let hostMask := not32 subnetMask in
  let maxHosts := u32 (hostMask - 1) in
  if maxHosts =? 0 then 1 else maxHosts.

Definition generateCandidateIP (n : t) (offset : Z) : Z :=
  let hash := lo24 (localNodeId_ n) in
  let hash := Z.land (u32 (hash + offset)) 16777215 in
  let maxHosts := maxHosts_of (subnetMask_ n) in
  let hostPart := u32 (hash mod maxHosts + 1) in
  Z.lor (Z.land (baseIP_ n) (subnetMask_ n)) hostPart.

(** The [while] loop of [findNextAvailableIP]; it runs at most
    [maxHosts] times, which is the fuel it is given. *)
Fixpoint scan (fuel : nat) (used : gset Z) (net hostMask maxHosts : Z)
    (hostPart potentialIP attempts : Z) : Z :=
  match fuel with
  | O => potentialIP
  | S fuel' =>
      if bool_decide (potentialIP ∈ used) && (attempts <? maxHosts) then
        let hostPart := u32 (hostPart + 1) in
        let hostPart := if hostMask <=? hostPart then 1 else hostPart in
        scan fuel' used net hostMask maxHosts
             hostPart (Z.lor net hostPart) (u32 (attempts + 1))
      else potentialIP
  end.

Definition findNextAvailableIP (n : t) (startIP : Z) : Z :=
  let hostMask := not32 (subnetMask_ n) in
  let maxHosts := maxHosts_of (subnetMask_ n) in
  let hostPart := Z.land startIP hostMask in
  let hostPart :=
    if (hostPart =? 0) || (hostMask <=? hostPart) then 1 else hostPart in
  let net := Z.land (baseIP_ n) (subnetMask_ n) in
  scan (Z.to_nat maxHosts) (usedIPs_ n) net hostMask maxHosts
       hostPart (Z.lor net hostPart) 0.

Definition sendProbeRequest (n : t) : list Call :=
  if broadcastCallback_ n then
    [Broadcast PROBE_REQUEST
       (PProbeRequest {| prq_ipAddress := candidateIP_ n;
                         prq_nodeId := localNodeId_ n |}) true]
  else [].

Definition startNegotiation (now : Z) (n : t) : t * list Call :=
  let n := set_conflicts n [] in
  let cand := generateCandidateIP n (probeOffset_ n) in
  let cand := findNextAvailableIP n cand in
  let n := set_probe n cand PROBING (probeStartTime_ n) (collectedConflicts_ n) in
  let calls := sendProbeRequest n in
  (set_probe n (candidateIP_ n) (state_ n) now (collectedConflicts_ n), calls).

Definition sendAddressAnnounce (n : t) : list Call :=
  if broadcastCallback_ n then
    [Broadcast ADDRESS_ANNOUNCE
       (PAddressAnnounce {| aa_ipAddress := localIP_ n;
                            aa_nodeId := localNodeId_ n |}) true]
  else [].

Definition sendAddressAnnounceTo (n : t) (targetSteamID : CSteamID) : list Call :=
  if negb (sendCallback_ n) || negb (bool_decide (state_ n = STABLE))
     || (localIP_ n =? 0)
  then []
  else
    [Send ADDRESS_ANNOUNCE
       (PAddressAnnounce {| aa_ipAddress := localIP_ n;
                            aa_nodeId := localNodeId_ n |})
       targetSteamID true].

Definition sendForcedRelease (n : t) (ip : Z) (targetSteamID : CSteamID) : list Call :=
  if sendCallback_ n then
    [Send FORCED_RELEASE
       (PForcedRelease {| fr_ipAddress := ip;
                          fr_winnerNodeId := localNodeId_ n |})
       targetSteamID true]
  else [].

(** [heartbeatAge] of one collected conflict in [checkTimeout]. *)
Definition heartbeatAge (now : Z) (c : ConflictInfo) : Z :=
  s64 (to_ms now - ci_lastHeartbeatMs c).

(** The [for] loop of [checkTimeout] over the collected conflicts:
    returns [canClaim] and [nodesToForceRelease]. *)
Fixpoint arbitrate (now : Z) (localId : NodeID) (conflicts : list ConflictInfo)
    (nodesToForceRelease : list CSteamID) : bool * list CSteamID :=
  match conflicts with
  | [] => (true, nodesToForceRelease)
  | c :: rest =>
      if HEARTBEAT_EXPIRY_MS <=? heartbeatAge now c then
        arbitrate now localId rest nodesToForceRelease
      else if NodeIdentity.hasPriority localId (ci_nodeId c) then
        arbitrate now localId rest (nodesToForceRelease ++ [ci_senderSteamID c])
      else (false, nodesToForceRelease)
  end.

Definition checkTimeout (now : Z) (n : t) : t * list Call :=
  if negb (bool_decide (state_ n = PROBING)) then (n, [])
  else
    let elapsed := to_ms (now - probeStartTime_ n) in
    if elapsed <? PROBE_TIMEOUT_MS then (n, [])
    else
      let conflicts := collectedConflicts_ n in
      let n := set_conflicts n [] in
      let '(canClaim, nodesToForceRelease) :=
        arbitrate now (localNodeId_ n) conflicts [] in
      if canClaim then
        let releases :=
          flat_map (sendForcedRelease n (candidateIP_ n)) nodesToForceRelease in
        let n := set_stable n (candidateIP_ n) in
        let announce := sendAddressAnnounce n in
        let success :=
          if successCallback_ n then [Success (localIP_ n) (localNodeId_ n)]
          else [] in
        (n, releases ++ announce ++ success)
      else
        startNegotiation now (set_offset n (u32 (probeOffset_ n + 1))).

Definition handleProbeRequest (now : Z) (request : ProbeRequestPayload)
    (senderSteamID : CSteamID) (n : t) : t * list Call :=
  let requestedIP := prq_ipAddress request in
  let respond :=
    if sendCallback_ n then
      [Send PROBE_RESPONSE
         (PProbeResponse {| prs_ipAddress := requestedIP;
                            prs_nodeId := localNodeId_ n;
                            prs_lastHeartbeatMs := to_ms now |})
         senderSteamID true]
    else [] in
  if bool_decide (state_ n = STABLE) && (requestedIP =? localIP_ n) then
    (n, respond)
  else if bool_decide (state_ n = PROBING) && (requestedIP =? candidateIP_ n) then
    if NodeIdentity.hasPriority (localNodeId_ n) (prq_nodeId request) then
      (n, respond)
    else
      startNegotiation now (set_offset n (u32 (probeOffset_ n + 1)))
  else (n, []).

Definition handleProbeResponse (response : ProbeResponsePayload)
    (senderSteamID : CSteamID) (n : t) : t :=
  if negb (bool_decide (state_ n = PROBING)) then n
  else
    let conflictIP := prs_ipAddress response in
    if negb (conflictIP =? candidateIP_ n) then n
    else
      set_conflicts n
        (collectedConflicts_ n ++
         [{| ci_nodeId := prs_nodeId response;
             ci_lastHeartbeatMs := prs_lastHeartbeatMs response;
             ci_senderSteamID := senderSteamID |}]).

Definition markIPUsed (ip : Z) (n : t) : t :=
  set_usedIPs n ({[ip]} ∪ usedIPs_ n).

Definition markIPUnused (ip : Z) (n : t) : t :=
  set_usedIPs n (usedIPs_ n ∖ {[ip]}).

Definition handleAddressAnnounce (now : Z) (announce : AddressAnnouncePayload)
    (peerSteamID : CSteamID) (n : t) : t * list Call :=
  let announcedIP := aa_ipAddress announce in
  if (announcedIP =? localIP_ n) && bool_decide (state_ n = STABLE) then
    if negb (NodeIdentity.hasPriority (localNodeId_ n) (aa_nodeId announce)) then
      startNegotiation now (set_offset n (u32 (probeOffset_ n + 1)))
    else
      (n, sendForcedRelease n announcedIP peerSteamID)
  else (markIPUsed announcedIP n, []).

Definition handleForcedRelease (now : Z) (release : ForcedReleasePayload)
    (senderSteamID : CSteamID) (n : t) : t * list Call :=
  let releasedIP := fr_ipAddress release in
  let shouldRelease :=
    if (releasedIP =? localIP_ n) && bool_decide (state_ n = STABLE) then
      negb (NodeIdentity.hasPriority (localNodeId_ n) (fr_winnerNodeId release))
    else if (releasedIP =? candidateIP_ n) && bool_decide (state_ n = PROBING) then
      negb (NodeIdentity.hasPriority (localNodeId_ n) (fr_winnerNodeId release))
    else false in
  if shouldRelease then
    startNegotiation now
      (set_state (set_offset n (u32 (probeOffset_ n + 1))) IDLE)
  else (n, []).

(** The constructor: no callback is installed yet. *)
End IpNegotiator.

(** ** vpn_route_manager.cpp *)

Module VpnRouteManager.

Inductive Call : Type :=
| Send (type : VpnMessageType) (payload : Payload)
       (target : CSteamID) (reliable : bool)
| Broadcast (type : VpnMessageType) (payload : Payload) (reliable : bool)
| RouteAdded (ip : Z).

Record t : Type :=
  { routingTable_ : gmap Z RouteEntry;
    sendCallback_ : bool;
    broadcastCallback_ : bool;
    onRouteAddedCallback_ : bool }.

Definition set_table (rm : t) (tbl : gmap Z RouteEntry) : t :=
  {| routingTable_ := tbl;
     sendCallback_ := sendCallback_ rm;
     broadcastCallback_ := broadcastCallback_ rm;
     onRouteAddedCallback_ := onRouteAddedCallback_ rm |}.

(** The erase loop of [updateRoute]: an entry survives unless it belongs
    to [steamId] and sits at another address. *)
Definition evict_old (steamId : CSteamID) (ip : Z)
    (tbl : gmap Z RouteEntry) : gmap Z RouteEntry :=
  filter (fun kv => ¬ (steamID kv.2 = steamId ∧ kv.1 ≠ ip)) tbl.

Definition updateRoute (env : SteamEnv) (nid : NodeID) (steamId : CSteamID)
    (ip : Z) (nm : string) (rm : t) : t * list Call :=
  let entry :=
    {| steamID := steamId; ipAddress := ip; name := nm;
       isLocal := bool_decide (steamId = GetSteamID env);
       nodeId := nid |} in
  let tbl := <[ip := entry]> (evict_old steamId ip (routingTable_ rm)) in
  (set_table rm tbl,
   if onRouteAddedCallback_ rm then [RouteAdded ip] else []).

Definition removeRoute (ip : Z) (rm : t) : t :=
  set_table rm (delete ip (routingTable_ rm)).

Definition by_key {A} (a b : Z * A) : Prop := a.1 ≤ b.1.

#[global] Instance by_key_dec {A} (a b : Z * A) : Decision (by_key a b).
Proof. unfold by_key. apply _. Defined.

(** The entries in the iteration order of [std::map<uint32_t, _>]. *)
Definition entries (tbl : gmap Z RouteEntry) : list (Z * RouteEntry) :=
  merge_sort by_key (map_to_list tbl).

(** [removeRoutesForUser]: the table without the user's entries, and the
    [(ip, nodeId)] pairs handed to [onRemoved]. *)
Definition removeRoutesForUser (steamId : CSteamID) (rm : t)
    : t * list (Z * NodeID) :=
  (set_table rm (filter (fun kv => steamID kv.2 ≠ steamId) (routingTable_ rm)),
   map (fun kv => (kv.1, nodeId kv.2))
       (List.filter (fun kv => bool_decide (steamID kv.2 = steamId))
                    (entries (routingTable_ rm)))).

Definition getRoute (ip : Z) (rm : t) : option RouteEntry :=
  routingTable_ rm !! ip.

(** One 12-byte record of a ROUTE_UPDATE payload. *)
Definition record_at (payload : list byte) (offset : nat) : CSteamID * Z :=
  (le_value (slice payload offset 8), be_value (slice payload (offset + 8) 4)).

(** The records that the [while (offset + 12 <= length)] loop visits. *)
Fixpoint records_from (fuel : nat) (payload : list byte) (offset : nat)
    : list (CSteamID * Z) :=
  match fuel with
  | O => []
  | S fuel' =>
      if (offset + 12 <=? length payload)%nat then
        record_at payload offset :: records_from fuel' payload (offset + 12)
      else []
  end.

Definition records (payload : list byte) : list (CSteamID * Z) :=
  records_from (length payload) payload 0.

(** The body of the loop for one record. *)
Definition route_step (env : SteamEnv) (myBaseIP mySubnetMask : Z)
    (mySteamID : CSteamID) (acc : t * list Call) (r : CSteamID * Z)
    : t * list Call :=
  let '(csteamID, ip) := r in
  let '(rm, calls) := acc in
  if bool_decide (csteamID = mySteamID) then acc
  else if bool_decide (is_Some (routingTable_ rm !! ip)) then acc
  else if Z.land ip mySubnetMask =? Z.land myBaseIP mySubnetMask then
    let '(rm', cs) :=
      updateRoute env (NodeIdentity.generate env csteamID) csteamID ip
                  (GetFriendPersonaName env csteamID) rm in
    (rm', calls ++ cs)
  else acc.

Definition handleRouteUpdate (env : SteamEnv) (payload : list byte)
    (myBaseIP mySubnetMask : Z) (mySteamID : CSteamID) (rm : t)
    : t * list Call :=
  fold_left (route_step env myBaseIP mySubnetMask mySteamID)
            (records payload) (rm, []).

Definition be_bytes4 (z : Z) : list byte :=
  [byte_of_Z (Z.shiftr z 24); byte_of_Z (Z.shiftr z 16);
   byte_of_Z (Z.shiftr z 8); byte_of_Z z].

(** [routeData] as both senders build it. *)
Definition routeData (rm : t) : list byte :=
  flat_map (fun kv => le_bytes 8 (steamID kv.2) ++ be_bytes4 (ipAddress kv.2))
           (entries (routingTable_ rm)).

Definition broadcastRouteUpdate (rm : t) : list Call :=
  if broadcastCallback_ rm
  then [Broadcast ROUTE_UPDATE (PRaw (routeData rm)) true] else [].

Definition sendRouteUpdateTo (target : CSteamID) (rm : t) : list Call :=
  if sendCallback_ rm
  then [Send ROUTE_UPDATE (PRaw (routeData rm)) target true] else [].

Definition clear (rm : t) : t := set_table rm ∅.

End VpnRouteManager.

(** ** heartbeat_manager.cpp *)

Module HeartbeatManager.

Inductive Call : Type :=
| SendHeartbeat (type : VpnMessageType) (payload : Payload) (reliable : bool)
| Expired (nodeId : NodeID) (ipAddress : Z).

Record t : Type :=
  { localNodeId_ : NodeID;
    localIP_ : Z;
    lastHeartbeatSent_ : Z;
    nodeTable_ : gmap NodeID NodeInfo;
    ipToNodeId_ : gmap Z NodeID;
    running_ : bool;
    sendCallback_ : bool;
    expiredCallback_ : bool }.

Definition set_tables (hm : t) (nodes : gmap NodeID NodeInfo)
    (ips : gmap Z NodeID) : t :=
  {| localNodeId_ := localNodeId_ hm; localIP_ := localIP_ hm;
     lastHeartbeatSent_ := lastHeartbeatSent_ hm;
     nodeTable_ := nodes; ipToNodeId_ := ips;
     running_ := running_ hm;
     sendCallback_ := sendCallback_ hm;
     expiredCallback_ := expiredCallback_ hm |}.

Definition initialize (now : Z) (nid : NodeID) (ip : Z) (hm : t) : t :=
  {| localNodeId_ := nid; localIP_ := ip; lastHeartbeatSent_ := now;
     nodeTable_ := nodeTable_ hm; ipToNodeId_ := ipToNodeId_ hm;
     running_ := running_ hm;
     sendCallback_ := sendCallback_ hm;
     expiredCallback_ := expiredCallback_ hm |}.

Definition start (hm : t) : t :=
  {| localNodeId_ := localNodeId_ hm; localIP_ := localIP_ hm;
     lastHeartbeatSent_ := lastHeartbeatSent_ hm;
     nodeTable_ := nodeTable_ hm; ipToNodeId_ := ipToNodeId_ hm;
     running_ := true;
     sendCallback_ := sendCallback_ hm;
     expiredCallback_ := expiredCallback_ hm |}.

Definition sendHeartbeat (now : Z) (hm : t) : list Call :=
  if negb (sendCallback_ hm) || (localIP_ hm =? 0) then []
  else
    [SendHeartbeat HEARTBEAT
       (PHeartbeat {| hb_ipAddress := localIP_ hm;
                      hb_nodeId := localNodeId_ hm;
                      hb_timestampMs := to_ms now |}) true].

(** The test of the lease scan on one table entry. *)
Definition lease_lost (now : Z) (info : NodeInfo) : bool :=
  negb (ni_isLocal info) && isLeaseExpired now info.

(** The order of [std::map<NodeID, _>]: [std::array]'s lexicographic
    [operator<]. *)
Definition by_node_id {A} (a b : NodeID * A) : Prop :=
  NodeIdentity.compare a.1 b.1 ≤ 0.

#[global] Instance by_node_id_dec {A} (a b : NodeID * A)
  : Decision (by_node_id a b).
Proof. unfold by_node_id. apply _. Defined.

Definition nodes (tbl : gmap NodeID NodeInfo) : list (NodeID * NodeInfo) :=
  merge_sort by_node_id (map_to_list tbl).

(** [expiredNodes] as the scan collects it. *)
Definition expiredNodes (now : Z) (hm : t) : list (NodeID * Z) :=
  map (fun kv => (kv.1, ni_ipAddress kv.2))
      (List.filter (fun kv => lease_lost now kv.2) (nodes (nodeTable_ hm))).

Definition checkExpiredLeases (now : Z) (hm : t) : t * list Call :=
  let expired := expiredNodes now hm in
  let ips := fold_left (fun m e => delete e.2 m) expired (ipToNodeId_ hm) in
  let tbl := filter (fun kv => lease_lost now kv.2 = false) (nodeTable_ hm) in
  (set_tables hm tbl ips,
   if expiredCallback_ hm
   then map (fun e => Expired e.1 e.2) expired else []).

Definition handleHeartbeat (now : Z) (heartbeat : HeartbeatPayload)
    (peerSteamID : CSteamID) (peerName : string) (hm : t) : t :=
  let heartbeatIP := hb_ipAddress heartbeat in
  match nodeTable_ hm !! hb_nodeId heartbeat with
  | Some info =>
      let info' :=
        {| ni_nodeId := ni_nodeId info; ni_steamId := ni_steamId info;
           ni_ipAddress := ni_ipAddress info; ni_lastHeartbeat := now;
           ni_name := ni_name info; ni_isLocal := ni_isLocal info |} in
      set_tables hm (<[hb_nodeId heartbeat := info']> (nodeTable_ hm))
                 (ipToNodeId_ hm)
  | None =>
      let nodeInfo :=
        {| ni_nodeId := hb_nodeId heartbeat; ni_steamId := peerSteamID;
           ni_ipAddress := heartbeatIP; ni_lastHeartbeat := now;
           ni_name := peerName; ni_isLocal := false |} in
      set_tables hm (<[hb_nodeId heartbeat := nodeInfo]> (nodeTable_ hm))
                 (<[heartbeatIP := hb_nodeId heartbeat]> (ipToNodeId_ hm))
  end.

Definition registerNode (now : Z) (nid : NodeID) (steamId : CSteamID)
    (ip : Z) (nm : string) (hm : t) : t :=
  let nodeInfo :=
    {| ni_nodeId := nid; ni_steamId := steamId; ni_ipAddress := ip;
       ni_lastHeartbeat := now; ni_name := nm;
       ni_isLocal := bool_decide (nid = localNodeId_ hm) |} in
  set_tables hm (<[nid := nodeInfo]> (nodeTable_ hm))
             (<[ip := nid]> (ipToNodeId_ hm)).

Definition unregisterNode (nid : NodeID) (hm : t) : t :=
  match nodeTable_ hm !! nid with
  | Some info =>
      set_tables hm (delete nid (nodeTable_ hm))
                 (delete (ni_ipAddress info) (ipToNodeId_ hm))
  | None => hm
  end.

Definition findNodeByIP (ip : Z) (hm : t) : option NodeID :=
  ipToNodeId_ hm !! ip.

(** [detectConflict]: [Some id] stands for [true] with
    [outConflictingSteamID = id], [None] for [false]. *)
Definition detectConflict (sourceIP : Z) (senderNodeId : NodeID) (hm : t)
    : option CSteamID * t :=
  match ipToNodeId_ hm !! sourceIP with
  | Some owner =>
      if bool_decide (owner <> senderNodeId) then
        if NodeIdentity.hasPriority owner senderNodeId then
          match nodeTable_ hm !! senderNodeId with
          | Some info => (Some (ni_steamId info), hm)
          | None => (None, hm)
          end
        else
          match nodeTable_ hm !! owner with
          | Some info =>
              (Some (ni_steamId info),
               set_tables hm (nodeTable_ hm)
                          (<[sourceIP := senderNodeId]> (ipToNodeId_ hm)))
          | None => (None, hm)
          end
      else (None, hm)
  | None => (None, hm)
  end.

Definition set_lastHeartbeatSent (hm : t) (now : Z) : t :=
  {| localNodeId_ := localNodeId_ hm; localIP_ := localIP_ hm;
     lastHeartbeatSent_ := now;
     nodeTable_ := nodeTable_ hm; ipToNodeId_ := ipToNodeId_ hm;
     running_ := running_ hm;
     sendCallback_ := sendCallback_ hm;
     expiredCallback_ := expiredCallback_ hm |}.

(** One turn of [heartbeatLoop] after its sleep, while running. *)
Definition heartbeatLoop_turn (now : Z) (hm : t) : t * list Call :=
  let elapsed := to_ms (now - lastHeartbeatSent_ hm) in
  let '(hm, sent) :=
    if (HEARTBEAT_INTERVAL_MS <=? elapsed) && negb (localIP_ hm =? 0)
    then (set_lastHeartbeatSent hm now, sendHeartbeat now hm)
    else (hm, []) in
  let '(hm, expired) := checkExpiredLeases now hm in
  (hm, sent ++ expired).

End HeartbeatManager.

(** ** steam_vpn_bridge.cpp (the ISteamNetworkingMessages bridge) *)

Module SteamVpnBridge.

(** What the bridge does to its collaborators: writes to the TUN device
    and messages handed to the networking manager ([reliable = false] is
    the unreliable, no-Nagle, no-delay send class). *)
Inductive Effect : Type :=
| TunWrite (packet : list byte)
| SendMessageToUser (target : CSteamID) (type : VpnMessageType)
                    (payload : Payload) (reliable : bool)
| BroadcastMessage (type : VpnMessageType) (payload : Payload) (reliable : bool).

Record Statistics : Type :=
  { packetsSent : Z;
    packetsReceived : Z;
    bytesSent : Z;
    bytesReceived : Z;
    packetsDropped : Z }.

Record t : Type :=
  { tunDevice_ : bool;
    running_ : bool;
    baseIP_ : Z;
    subnetMask_ : Z;
    localIP_ : Z;
    stats_ : Statistics;
    ipNegotiator_ : IpNegotiator.t;
    heartbeatManager_ : HeartbeatManager.t;
    routeManager_ : VpnRouteManager.t }.

Definition set_negotiator (b : t) (n : IpNegotiator.t) : t :=
  {| tunDevice_ := tunDevice_ b; running_ := running_ b;
     baseIP_ := baseIP_ b; subnetMask_ := subnetMask_ b;
     localIP_ := localIP_ b; stats_ := stats_ b;
     ipNegotiator_ := n;
     heartbeatManager_ := heartbeatManager_ b;
     routeManager_ := routeManager_ b |}.

Definition set_heartbeatManager (b : t) (hm : HeartbeatManager.t) : t :=
  {| tunDevice_ := tunDevice_ b; running_ := running_ b;
     baseIP_ := baseIP_ b; subnetMask_ := subnetMask_ b;
     localIP_ := localIP_ b; stats_ := stats_ b;
     ipNegotiator_ := ipNegotiator_ b;
     heartbeatManager_ := hm;
     routeManager_ := routeManager_ b |}.

Definition set_routeManager (b : t) (rm : VpnRouteManager.t) : t :=
  {| tunDevice_ := tunDevice_ b; running_ := running_ b;
     baseIP_ := baseIP_ b; subnetMask_ := subnetMask_ b;
     localIP_ := localIP_ b; stats_ := stats_ b;
     ipNegotiator_ := ipNegotiator_ b;
     heartbeatManager_ := heartbeatManager_ b;
     routeManager_ := rm |}.

Definition set_localIP (b : t) (ip : Z) : t :=
  {| tunDevice_ := tunDevice_ b; running_ := running_ b;
     baseIP_ := baseIP_ b; subnetMask_ := subnetMask_ b;
     localIP_ := ip; stats_ := stats_ b;
     ipNegotiator_ := ipNegotiator_ b;
     heartbeatManager_ := heartbeatManager_ b;
     routeManager_ := routeManager_ b |}.

Definition count_received (b : t) (len : Z) : t :=
  {| tunDevice_ := tunDevice_ b; running_ := running_ b;
     baseIP_ := baseIP_ b; subnetMask_ := subnetMask_ b;
     localIP_ := localIP_ b;
     stats_ :=
       {| packetsSent := packetsSent (stats_ b);
          packetsReceived := u64 (packetsReceived (stats_ b) + 1);
          bytesSent := bytesSent (stats_ b);
          bytesReceived := u64 (bytesReceived (stats_ b) + len);
          packetsDropped := packetsDropped (stats_ b) |};
     ipNegotiator_ := ipNegotiator_ b;
     heartbeatManager_ := heartbeatManager_ b;
     routeManager_ := routeManager_ b |}.

(** The callbacks that [start] installs in the route manager:
    [sendVpnMessage], [broadcastVpnMessage] and [markIPUsed]. *)
Definition route_call (acc : t * list Effect) (c : VpnRouteManager.Call)
    : t * list Effect :=
  let '(b, effs) := acc in
  match c with
  | VpnRouteManager.Send ty p target reliable =>
      (b, effs ++ [SendMessageToUser target ty p reliable])
  | VpnRouteManager.Broadcast ty p reliable =>
      (b, effs ++ [BroadcastMessage ty p reliable])
  | VpnRouteManager.RouteAdded ip =>
      (set_negotiator b (IpNegotiator.markIPUsed ip (ipNegotiator_ b)), effs)
  end.

Definition route_calls (calls : list VpnRouteManager.Call) (b : t)
    : t * list Effect :=
  fold_left route_call calls (b, []).

Definition onNegotiationSuccess (env : SteamEnv) (now : Z) (ip : Z)
    (nid : NodeID) (b : t) : t * list Effect :=
  let b := set_localIP b ip in
  if tun_set_ip_up env (localIP_ b) (subnetMask_ b) then
    let mySteamID := GetSteamID env in
    let '(rm, calls) :=
      VpnRouteManager.updateRoute env nid mySteamID (localIP_ b)
                                  (GetPersonaName env) (routeManager_ b) in
    let '(b, effs1) := route_calls calls (set_routeManager b rm) in
    let hm := HeartbeatManager.initialize now nid (localIP_ b)
                                          (heartbeatManager_ b) in
    let hm := HeartbeatManager.registerNode now nid mySteamID (localIP_ b)
                                            (GetPersonaName env) hm in
    let b := set_heartbeatManager b (HeartbeatManager.start hm) in
    let '(b, effs2) :=
      route_calls (VpnRouteManager.broadcastRouteUpdate (routeManager_ b)) b in
    (b, effs1 ++ effs2)
  else (b, []).

(** The callbacks that [start] installs in the negotiator. *)
Definition negotiator_call (env : SteamEnv) (now : Z)
    (acc : t * list Effect) (c : IpNegotiator.Call) : t * list Effect :=
  let '(b, effs) := acc in
  match c with
  | IpNegotiator.Send ty p target reliable =>
      (b, effs ++ [SendMessageToUser target ty p reliable])
  | IpNegotiator.Broadcast ty p reliable =>
      (b, effs ++ [BroadcastMessage ty p reliable])
  | IpNegotiator.Success ip nid =>
      let '(b', effs') := onNegotiationSuccess env now ip nid b in
      (b', effs ++ effs')
  end.

Definition negotiator_calls (env : SteamEnv) (now : Z)
    (calls : list IpNegotiator.Call) (b : t) : t * list Effect :=
  fold_left (negotiator_call env now) calls (b, []).

(** The IP_PACKET fast path of [handleVpnMessage]. *)
Definition handleIpPacket (payload : list byte) (senderSteamID : CSteamID)
    (b : t) : t * list Effect :=
  let payloadLength := Z.of_nat (length payload) in
  if tunDevice_ b && (sizeof_VpnPacketWrapper <? payloadLength) then
    let ipPacket := skipn (Z.to_nat sizeof_VpnPacketWrapper) payload in
    let ipPacketLen := payloadLength - sizeof_VpnPacketWrapper in
    let destIP := VpnUtils.extractDestIP ipPacket in
    if (destIP =? localIP_ b)
       || VpnUtils.isBroadcastAddress destIP (baseIP_ b) (subnetMask_ b)
    then (count_received b ipPacketLen, [TunWrite ipPacket])
    else
      match VpnRouteManager.getRoute destIP (routeManager_ b) with
      | Some entry =>
          if negb (isLocal entry)
             && negb (bool_decide (steamID entry = senderSteamID))
          then (b, [SendMessageToUser (steamID entry) IP_PACKET
                                      (PRaw payload) false])
          else (b, [])
      | None => (b, [])
      end
  else (b, []).

Definition handleAddressAnnounceMessage (env : SteamEnv) (now : Z)
    (payload : list byte) (senderSteamID : CSteamID) (peerName : string)
    (b : t) : t * list Effect :=
  if sizeof_AddressAnnouncePayload <=? Z.of_nat (length payload) then
    let announce :=
      {| aa_ipAddress := be_value (slice payload 0 4);
         aa_nodeId := slice payload 4 NODE_ID_SIZE |} in
    let announcedIP := aa_ipAddress announce in
    let isNewRoute :=
      negb (bool_decide
              (is_Some (VpnRouteManager.getRoute announcedIP (routeManager_ b)))) in
    let '(n, ncalls) :=
      IpNegotiator.handleAddressAnnounce now announce senderSteamID
                                         (ipNegotiator_ b) in
    let '(b, effs1) := negotiator_calls env now ncalls (set_negotiator b n) in
    let '(rm, rcalls) :=
      VpnRouteManager.updateRoute env (aa_nodeId announce) senderSteamID
                                  announcedIP peerName (routeManager_ b) in
    let '(b, effs2) := route_calls rcalls (set_routeManager b rm) in
    let '(b, effs3) :=
      if isNewRoute
      then route_calls (VpnRouteManager.broadcastRouteUpdate (routeManager_ b)) b
      else (b, []) in
    (b, effs1 ++ effs2 ++ effs3)
  else (b, []).

Definition handleVpnMessage (env : SteamEnv) (now : Z) (data : list byte)
    (senderSteamID : CSteamID) (b : t) : t * list Effect :=
  let len := Z.of_nat (length data) in
  if len <? sizeof_VpnMessageHeader then (b, [])
  else
    let type := u8 (nth 0 data x00) in
    let payloadLength := be_value (slice data 1 2) in
    if len <? sizeof_VpnMessageHeader + payloadLength then (b, [])
    else
      let payload := slice data 3 (Z.to_nat payloadLength) in
      let peerName := GetFriendPersonaName env senderSteamID in
      match type_of_code type with
      | Some IP_PACKET => handleIpPacket payload senderSteamID b
      | Some ROUTE_UPDATE =>
          let '(rm, calls) :=
            VpnRouteManager.handleRouteUpdate env payload (baseIP_ b)
              (subnetMask_ b) (GetSteamID env) (routeManager_ b) in
          route_calls calls (set_routeManager b rm)
      | Some PROBE_REQUEST =>
          if sizeof_ProbeRequestPayload <=? payloadLength then
            let request :=
              {| prq_ipAddress := be_value (slice payload 0 4);
                 prq_nodeId := slice payload 4 NODE_ID_SIZE |} in
            let '(n, calls) :=
              IpNegotiator.handleProbeRequest now request senderSteamID
                                              (ipNegotiator_ b) in
            negotiator_calls env now calls (set_negotiator b n)
          else (b, [])
      | Some PROBE_RESPONSE =>
          if sizeof_ProbeResponsePayload <=? payloadLength then
            let response :=
              {| prs_ipAddress := be_value (slice payload 0 4);
                 prs_nodeId := slice payload 4 NODE_ID_SIZE;
                 prs_lastHeartbeatMs := s64 (le_value (slice payload 36 8)) |} in
            (set_negotiator b
               (IpNegotiator.handleProbeResponse response senderSteamID
                                                 (ipNegotiator_ b)), [])
          else (b, [])
      | Some ADDRESS_ANNOUNCE =>
          handleAddressAnnounceMessage env now payload senderSteamID peerName b
      | Some FORCED_RELEASE =>
          if sizeof_ForcedReleasePayload <=? payloadLength then
            let release :=
              {| fr_ipAddress := be_value (slice payload 0 4);
                 fr_winnerNodeId := slice payload 4 NODE_ID_SIZE |} in
            let '(n, calls) :=
              IpNegotiator.handleForcedRelease now release senderSteamID
                                               (ipNegotiator_ b) in
            negotiator_calls env now calls (set_negotiator b n)
          else (b, [])
      | Some HEARTBEAT =>
          if sizeof_HeartbeatPayload <=? payloadLength then
            let heartbeat :=
              {| hb_ipAddress := be_value (slice payload 0 4);
                 hb_nodeId := slice payload 4 NODE_ID_SIZE;
                 hb_timestampMs := s64 (le_value (slice payload 36 8)) |} in
            (set_heartbeatManager b
               (HeartbeatManager.handleHeartbeat now heartbeat senderSteamID
                                                 peerName (heartbeatManager_ b)),
             [])
          else (b, [])
      | _ => (b, [])
      end.

Definition count_sent (b : t) (packets len : Z) : t :=
  {| tunDevice_ := tunDevice_ b; running_ := running_ b;
     baseIP_ := baseIP_ b; subnetMask_ := subnetMask_ b;
     localIP_ := localIP_ b;
     stats_ :=
       {| packetsSent := u64 (packetsSent (stats_ b) + packets);
          packetsReceived := packetsReceived (stats_ b);
          bytesSent := u64 (bytesSent (stats_ b) + len);
          bytesReceived := bytesReceived (stats_ b);
          packetsDropped := packetsDropped (stats_ b) |};
     ipNegotiator_ := ipNegotiator_ b;
     heartbeatManager_ := heartbeatManager_ b;
     routeManager_ := routeManager_ b |}.

(** The packet branch of [tunReadThread]: a packet of [bytesRead > 0]
    bytes read from the TUN device, with [members] peers in the room. *)
Definition forwardTunPacket (packet : list byte) (members : Z) (b : t)
    : t * list Effect :=
  let bytesRead := Z.of_nat (length packet) in
  if 0 <? bytesRead then
    let destIP := VpnUtils.extractDestIP packet in
    let vpnPayload := IpNegotiator.localNodeId_ (ipNegotiator_ b) ++ packet in
    if VpnUtils.isBroadcastAddress destIP (baseIP_ b) (subnetMask_ b) then
      (count_sent b members (bytesRead * members),
       [BroadcastMessage IP_PACKET (PRaw vpnPayload) false])
    else
      match VpnRouteManager.getRoute destIP (routeManager_ b) with
      | Some entry =>
          if negb (isLocal entry) then
            (count_sent b 1 bytesRead,
             [SendMessageToUser (steamID entry) IP_PACKET (PRaw vpnPayload) false])
          else (b, [])
      | None => (b, [])
      end
  else (b, []).

(** The timeout poll of [tunReadThread]: every 50 ms the negotiator's
    [checkTimeout] runs; returns the new [lastTimeoutCheck] too. *)
Definition pollTimeout (env : SteamEnv) (now lastTimeoutCheck : Z) (b : t)
    : t * Z * list Effect :=
  if 50 <=? to_ms (now - lastTimeoutCheck) then
    let '(n, calls) := IpNegotiator.checkTimeout now (ipNegotiator_ b) in
    let '(b, effs) := negotiator_calls env now calls (set_negotiator b n) in
    (b, now, effs)
  else (b, lastTimeoutCheck, []).

Definition onUserJoined (env : SteamEnv) (now : Z) (steamId : CSteamID)
    (b : t) : t * list Effect :=
  if bool_decide (IpNegotiator.state_ (ipNegotiator_ b) = IpNegotiator.STABLE)
  then
    let '(b, effs1) :=
      negotiator_calls env now
        (IpNegotiator.sendAddressAnnounceTo (ipNegotiator_ b) steamId) b in
    let '(b, effs2) :=
      route_calls (VpnRouteManager.sendRouteUpdateTo steamId (routeManager_ b))
                  b in
    (b, effs1 ++ effs2)
  else (b, []).

(** The [onRemoved] callback of [onUserLeft], for one removed route. *)
Definition on_removed (b : t) (r : Z * NodeID) : t :=
  let b := set_heartbeatManager b
             (HeartbeatManager.unregisterNode r.2 (heartbeatManager_ b)) in
  set_negotiator b (IpNegotiator.markIPUnused r.1 (ipNegotiator_ b)).

Definition onUserLeft (steamId : CSteamID) (b : t) : t :=
  let '(rm, removed) :=
    VpnRouteManager.removeRoutesForUser steamId (routeManager_ b) in
  fold_left on_removed removed (set_routeManager b rm).

Definition onNodeExpired (nid : NodeID) (ip : Z) (b : t) : t :=
  let b := set_routeManager b
             (VpnRouteManager.removeRoute ip (routeManager_ b)) in
  set_negotiator b (IpNegotiator.markIPUnused ip (ipNegotiator_ b)).

(** The callbacks that [start] installs in the heartbeat manager. *)
Definition heartbeat_call (acc : t * list Effect) (c : HeartbeatManager.Call)
    : t * list Effect :=
  let '(b, effs) := acc in
  match c with
  | HeartbeatManager.SendHeartbeat ty p reliable =>
      (b, effs ++ [BroadcastMessage ty p reliable])
  | HeartbeatManager.Expired nid ip => (onNodeExpired nid ip b, effs)
  end.

(** One turn of the heartbeat thread, seen from the bridge. *)
Definition heartbeat_turn (now : Z) (b : t) : t * list Effect :=
  let '(hm, calls) :=
    HeartbeatManager.heartbeatLoop_turn now (heartbeatManager_ b) in
  fold_left heartbeat_call calls (set_heartbeatManager b hm, []).

(** The bytes of a payload buffer: the packed structs as they lie in
    memory, [ipAddress] in network byte order. *)
Definition payload_bytes (p : Payload) : list byte :=
  match p with
  | PProbeRequest q => VpnRouteManager.be_bytes4 (prq_ipAddress q) ++ prq_nodeId q
  | PProbeResponse q =>
      VpnRouteManager.be_bytes4 (prs_ipAddress q) ++ prs_nodeId q
      ++ le_bytes 8 (prs_lastHeartbeatMs q)
  | PAddressAnnounce q => VpnRouteManager.be_bytes4 (aa_ipAddress q) ++ aa_nodeId q
  | PForcedRelease q =>
      VpnRouteManager.be_bytes4 (fr_ipAddress q) ++ fr_winnerNodeId q
  | PHeartbeat q =>
      VpnRouteManager.be_bytes4 (hb_ipAddress q) ++ hb_nodeId q
      ++ le_bytes 8 (hb_timestampMs q)
  | PRaw bs => bs
  end.

(** The message that [sendVpnMessage] and [broadcastVpnMessage] build:
    type, payload length as [uint16_t] in network byte order, payload. *)
Definition message_bytes (type : VpnMessageType) (payload : list byte)
    : list byte :=
  byte_of_Z (type_code type)
  :: be_bytes2 (Z.of_nat (length payload) mod 2 ^ 16) ++ payload.

End SteamVpnBridge.

(** ** Vocabulary of the statements *)

(** The mask of a subnet with [k] host bits. *)
Definition prefix_mask (k : Z) : Z := 2 ^ 32 - 2 ^ k.

(** The [j]-th host part met when scanning forward from host part [s]
    among the hosts [1 .. M], wrapping from [M] back to [1]. *)
Definition cyc (M s j : Z) : Z := (s - 1 + j) mod M + 1.

(** The reply that [handleProbeRequest] builds. *)
Definition probe_response (now : Z) (n : IpNegotiator.t) (ip : Z)
    (senderSteamID : CSteamID) : IpNegotiator.Call :=
  IpNegotiator.Send PROBE_RESPONSE
    (PProbeResponse {| prs_ipAddress := ip;
                       prs_nodeId := IpNegotiator.localNodeId_ n;
                       prs_lastHeartbeatMs := to_ms now |})
    senderSteamID true.

(** At most one address per peer in a routing table. *)
Definition one_ip_per_peer (tbl : gmap Z RouteEntry) : Prop :=
  forall ip1 ip2 e1 e2,
    tbl !! ip1 = Some e1 -> tbl !! ip2 = Some e2 ->
    steamID e1 = steamID e2 -> ip1 = ip2.

(** The subnet test of [handleRouteUpdate]. *)
Definition in_subnet (base mask ip : Z) : Prop :=
  Z.land ip mask = Z.land base mask.

(** The header checks of [handleVpnMessage] passed and the frame is an
    IP_PACKET with a non-empty IP packet after the sender's node ID. *)
Definition ip_packet_frame (data : list byte) : Prop :=
  3 <= Z.of_nat (length data)
  /\ u8 (nth 0 data x00) = 1
  /\ 3 + be_value (slice data 1 2) <= Z.of_nat (length data)
  /\ 32 < be_value (slice data 1 2).

(** The address carried by an ADDRESS_ANNOUNCE, HEARTBEAT or
    PROBE_RESPONSE frame. *)
Definition carried_ip (data : list byte) : Z :=
  be_value (slice (slice data 3 (Z.to_nat (be_value (slice data 1 2)))) 0 4).

(** A ROUTE_UPDATE record that [handleRouteUpdate] would insert in the
    table [tbl]: not the local peer, in the subnet, address not yet
    present. *)
Definition fresh (base mask : Z) (me : CSteamID) (tbl : gmap Z RouteEntry)
    (r : CSteamID * Z) : Prop :=
  r.1 <> me /\ in_subnet base mask r.2 /\ tbl !! r.2 = None.

(** The records agree with each other and with the table on where each
    peer is: two records to insert for one peer name the same address,
    and a peer with a record to insert has no entry in the table yet. *)
Definition compatible (base mask : Z) (me : CSteamID)
    (tbl : gmap Z RouteEntry) (rs : list (CSteamID * Z)) : Prop :=
  (forall r1 r2, In r1 rs -> In r2 rs ->
     fresh base mask me tbl r1 -> fresh base mask me tbl r2 ->
     r1.1 = r2.1 -> r1.2 = r2.2)
  /\ (forall r ip e, In r rs -> fresh base mask me tbl r ->
        tbl !! ip = Some e -> steamID e <> r.1).

(** A record that [handleRouteUpdate] does not pass over whatever the
    table holds: it is about another peer and inside the subnet. *)
Definition eligible (base mask : Z) (me : CSteamID) (r : CSteamID * Z) : Prop :=
  r.1 <> me /\ in_subnet base mask r.2.

(** The address is named by such a record of the update. *)
Definition named (base mask : Z) (me : CSteamID) (rs : list (CSteamID * Z))
    (ip : Z) : Prop :=
  exists r, In r rs /\ eligible base mask me r /\ r.2 = ip.

(** The update does not undo itself: two records to insert for one peer
    name the same address, and a peer with a record to insert holds no
    address in the table that the update names (the peer may hold other
    addresses, which the update then takes from it). *)
Definition settles (base mask : Z) (me : CSteamID)
    (tbl : gmap Z RouteEntry) (rs : list (CSteamID * Z)) : Prop :=
  (forall r1 r2, In r1 rs -> In r2 rs ->
     fresh base mask me tbl r1 -> fresh base mask me tbl r2 ->
     r1.1 = r2.1 -> r1.2 = r2.2)
  /\ (forall r ip e, In r rs -> fresh base mask me tbl r ->
        tbl !! ip = Some e -> steamID e = r.1 ->
        ~ named base mask me rs ip).

(** The activity test of [checkTimeout] on a collected conflict. *)
Definition is_active (now : Z) (c : IpNegotiator.ConflictInfo) : bool :=
  IpNegotiator.heartbeatAge now c <? HEARTBEAT_EXPIRY_MS.

(** The messages that [sendForcedRelease], [sendAddressAnnounce] and
    [sendProbeRequest] hand to their callbacks. *)
Definition forced_release (n : IpNegotiator.t) (ip : Z) (target : CSteamID)
    : IpNegotiator.Call :=
  IpNegotiator.Send FORCED_RELEASE
    (PForcedRelease {| fr_ipAddress := ip;
                       fr_winnerNodeId := IpNegotiator.localNodeId_ n |})
    target true.

Definition address_announce (n : IpNegotiator.t) (ip : Z) : IpNegotiator.Call :=
  IpNegotiator.Broadcast ADDRESS_ANNOUNCE
    (PAddressAnnounce {| aa_ipAddress := ip;
                         aa_nodeId := IpNegotiator.localNodeId_ n |}) true.

Definition probe_request (n : IpNegotiator.t) (ip : Z) : IpNegotiator.Call :=
  IpNegotiator.Broadcast PROBE_REQUEST
    (PProbeRequest {| prq_ipAddress := ip;
                      prq_nodeId := IpNegotiator.localNodeId_ n |}) true.

(** The negotiator after losing an address: offset incremented,
    negotiation restarted. *)
Definition renegotiate (now : Z) (n : IpNegotiator.t)
    : IpNegotiator.t * list IpNegotiator.Call :=
  IpNegotiator.startNegotiation now
    (IpNegotiator.set_offset n (u32 (IpNegotiator.probeOffset_ n + 1))).

(** A FORCED_RELEASE or an announce of [ip] concerns the negotiator when
    it holds [ip] (Stable) or is probing it. *)
Definition holds (n : IpNegotiator.t) (ip : Z) : Prop :=
  ip = IpNegotiator.localIP_ n
  /\ IpNegotiator.state_ n = IpNegotiator.STABLE.

Definition probes (n : IpNegotiator.t) (ip : Z) : Prop :=
  ip = IpNegotiator.candidateIP_ n
  /\ IpNegotiator.state_ n = IpNegotiator.PROBING.

(** Every entry of a routing table sits under its own address. *)
Definition keyed_by_address (tbl : gmap Z RouteEntry) : Prop :=
  forall ip e, tbl !! ip = Some e -> ipAddress e = ip.

(** The entry that [handleRouteUpdate] creates for a record. *)
Definition learned_entry (env : SteamEnv) (peer : CSteamID) (ip : Z)
    : RouteEntry :=
  {| steamID := peer; ipAddress := ip;
     name := GetFriendPersonaName env peer;
     isLocal := bool_decide (peer = GetSteamID env);
     nodeId := NodeIdentity.generate env peer |}.

(** Every address in the index of the heartbeat manager leads to a node
    of the table that is recorded at that address. *)
Definition index_sound (hm : HeartbeatManager.t) : Prop :=
  forall ip nid,
    HeartbeatManager.ipToNodeId_ hm !! ip = Some nid ->
    exists info, HeartbeatManager.nodeTable_ hm !! nid = Some info
                 /\ ni_ipAddress info = ip.

(** The heartbeat manager after the turns of [heartbeatLoop] taken at the
    given times, one after the other. *)
Definition run_turns (times : list Z) (hm : HeartbeatManager.t)
    : HeartbeatManager.t :=
  fold_left (fun h t => (HeartbeatManager.heartbeatLoop_turn t h).1) times hm.

(** A heartbeat was handed to the send callback. *)
Definition sent_heartbeat (calls : list HeartbeatManager.Call) : Prop :=
  exists ty p reliable, In (HeartbeatManager.SendHeartbeat ty p reliable) calls.

(** Payload lengths below what [handleVpnMessage] asks of a type. *)
Definition undersized (type payloadLength : Z) : Prop :=
  (type = 1 /\ payloadLength <= 32)
  \/ (type = 3 /\ payloadLength < 12)
  \/ ((type = 10 \/ type = 12 \/ type = 13) /\ payloadLength < 36)
  \/ ((type = 11 \/ type = 14) /\ payloadLength < 44).

(** Frames that carry nothing [handleVpnMessage] can use: shorter than a
    header, shorter than the length their header announces, of a type
    without a handler, or with a payload too short for their type. *)
Definition malformed (data : list byte) : Prop :=
  let type := u8 (nth 0 data x00) in
  let payloadLength := be_value (slice data 1 2) in
  Z.of_nat (length data) < 3
  \/ Z.of_nat (length data) < 3 + payloadLength
  \/ type_of_code type = None
  \/ type = 15
  \/ undersized type payloadLength.

(** The addresses that a list of heartbeat-manager calls reports as
    expired. *)
Definition expired_ips (calls : list HeartbeatManager.Call) : list Z :=
  flat_map (fun c => match c with
                     | HeartbeatManager.Expired _ ip => [ip]
                     | _ => []
                     end) calls.

(** The table has a route of the peer at the address. *)
Definition routed_to (tbl : gmap Z RouteEntry) (peer : CSteamID) (ip : Z)
    : Prop :=
  exists e, tbl !! ip = Some e /\ steamID e = peer.

(** ** Concrete states and frames used by the examples *)

Module Examples.

Definition ip4 (a b c d : Z) : Z := a * 2 ^ 24 + b * 2 ^ 16 + c * 2 ^ 8 + d.

(** A node ID given by its first byte and its last three bytes. *)
Definition node_id (first : Z) (last3 : list Z) : NodeID :=
  byte_of_Z first :: repeat x00 28 ++ map byte_of_Z last3.

Definition id_local : NodeID := node_id 128 [255; 255; 255].
Definition id_high : NodeID := node_id 200 [0; 0; 7].
Definition id_low : NodeID := node_id 16 [0; 0; 3].

Definition peer_A : CSteamID := 76561198000000001.
Definition peer_B : CSteamID := 76561198000000002.
Definition me : CSteamID := 76561198000000100.

(** The environment of the examples; the hash is a stand-in. *)
Definition env : SteamEnv :=
  {| GetSteamID := me;
     GetPersonaName := "local";
     GetFriendPersonaName := fun _ => "peer";
     sha256 := fun bs => Some (firstn 32 (bs ++ repeat x00 32));
     tun_set_ip_up := fun _ _ => true |}.

(** A negotiator on 10.0.0.0/24 with all callbacks installed. *)
Definition negotiator (st : IpNegotiator.NegotiationState) (localIP cand offset : Z)
    (conflicts : list IpNegotiator.ConflictInfo) (used : gset Z)
    : IpNegotiator.t :=
  {| IpNegotiator.localNodeId_ := id_local;
     IpNegotiator.localSteamID_ := me;
     IpNegotiator.localIP_ := localIP;
     IpNegotiator.baseIP_ := ip4 10 0 0 0;
     IpNegotiator.subnetMask_ := ip4 255 255 255 0;
     IpNegotiator.state_ := st;
     IpNegotiator.candidateIP_ := cand;
     IpNegotiator.probeOffset_ := offset;
     IpNegotiator.probeStartTime_ := 0;
     IpNegotiator.collectedConflicts_ := conflicts;
     IpNegotiator.usedIPs_ := used;
     IpNegotiator.sendCallback_ := true;
     IpNegotiator.broadcastCallback_ := true;
     IpNegotiator.successCallback_ := true |}.

(** Probing 10.0.0.9 with one response collected, from peer B, whose
    last heartbeat is 200 s old when the clock reads 200 s. *)
Definition probing_with_stale : IpNegotiator.t :=
  negotiator IpNegotiator.PROBING 0 (ip4 10 0 0 9) 0
    [{| IpNegotiator.ci_nodeId := id_low;
        IpNegotiator.ci_lastHeartbeatMs := 0;
        IpNegotiator.ci_senderSteamID := peer_B |}] ∅.

Definition at_200s : Z := 200000 * ticks_per_ms.

Definition stable_5 : IpNegotiator.t :=
  negotiator IpNegotiator.STABLE (ip4 10 0 0 5) (ip4 10 0 0 5) 0 [] ∅.

Definition probing_9 : IpNegotiator.t :=
  negotiator IpNegotiator.PROBING 0 (ip4 10 0 0 9) 0 [] ∅.

Definition idle_offset_1 : IpNegotiator.t :=
  negotiator IpNegotiator.IDLE 0 0 1 [] ∅.

Definition entry_of (peer : CSteamID) (ip : Z) : RouteEntry :=
  {| steamID := peer; ipAddress := ip; name := "peer";
     isLocal := false; nodeId := NodeIdentity.generate env peer |}.

(** A route manager whose table is [tbl], with all callbacks installed. *)
Definition routes (tbl : gmap Z RouteEntry) : VpnRouteManager.t :=
  {| VpnRouteManager.routingTable_ := tbl;
     VpnRouteManager.sendCallback_ := true;
     VpnRouteManager.broadcastCallback_ := true;
     VpnRouteManager.onRouteAddedCallback_ := true |}.

(** Peer B alone, at 10.0.0.5. *)
Definition routes_B5 : VpnRouteManager.t :=
  routes {[ ip4 10 0 0 5 := entry_of peer_B (ip4 10 0 0 5) ]}.

(** A running bridge on 10.0.0.0/24 around a negotiator and a table. *)
Definition bridge (localIP : Z) (n : IpNegotiator.t) (rm : VpnRouteManager.t)
    : SteamVpnBridge.t :=
  {| SteamVpnBridge.tunDevice_ := true;
     SteamVpnBridge.running_ := true;
     SteamVpnBridge.baseIP_ := ip4 10 0 0 0;
     SteamVpnBridge.subnetMask_ := ip4 255 255 255 0;
     SteamVpnBridge.localIP_ := localIP;
     SteamVpnBridge.stats_ :=
       {| SteamVpnBridge.packetsSent := 0;
          SteamVpnBridge.packetsReceived := 0;
          SteamVpnBridge.bytesSent := 0;
          SteamVpnBridge.bytesReceived := 0;
          SteamVpnBridge.packetsDropped := 0 |};
     SteamVpnBridge.ipNegotiator_ := n;
     SteamVpnBridge.heartbeatManager_ :=
       {| HeartbeatManager.localNodeId_ := id_local;
          HeartbeatManager.localIP_ := localIP;
          HeartbeatManager.lastHeartbeatSent_ := 0;
          HeartbeatManager.nodeTable_ := ∅;
          HeartbeatManager.ipToNodeId_ := ∅;
          HeartbeatManager.running_ := true;
          HeartbeatManager.sendCallback_ := true;
          HeartbeatManager.expiredCallback_ := true |};
     SteamVpnBridge.routeManager_ := rm |}.

(** Stable at 10.0.0.5, knowing peer B at 10.0.0.7. *)
Definition bridge_5 : SteamVpnBridge.t :=
  bridge (ip4 10 0 0 5) stable_5
         (routes {[ ip4 10 0 0 7 := entry_of peer_B (ip4 10 0 0 7) ]}).

Definition bytes (l : list Z) : list byte := map byte_of_Z l.

(** A 20-byte IPv4 header with the given destination. *)
Definition ipv4_to (a b c d : Z) : list byte :=
  bytes [69; 0; 0; 20; 0; 0; 0; 0; 64; 1; 0; 0; 10; 0; 0; 2; a; b; c; d].

(** An overlay frame: type, big-endian payload length, payload. *)
Definition frame (type : Z) (payload : list byte) : list byte :=
  bytes [type; Z.of_nat (length payload) / 256; Z.of_nat (length payload)]
  ++ payload.

Definition ip_packet_to (a b c d : Z) : list byte :=
  frame 1 (id_high ++ ipv4_to a b c d).

(** HEARTBEAT for 10.0.0.7 from the node [id_high]. *)
Definition heartbeat_frame : list byte :=
  frame 14 (bytes [10; 0; 0; 7] ++ id_high ++ bytes [0; 0; 0; 0; 0; 0; 0; 0]).

(** PROBE_RESPONSE for 10.0.0.9 from the node [id_high]. *)
Definition probe_response_frame : list byte :=
  frame 11 (bytes [10; 0; 0; 9] ++ id_high ++ bytes [0; 0; 0; 0; 0; 0; 0; 0]).

(** ADDRESS_ANNOUNCE of [a.b.c.d] by the node [id_low]. *)
Definition announce_frame (a b c d : Z) : list byte :=
  frame 12 (bytes [a; b; c; d] ++ id_low).

(** The payload of a ROUTE_UPDATE made of the given [(peer, address)]
    records, and the frame around it. *)
Definition route_update_payload (rs : list (CSteamID * Z)) : list byte :=
  flat_map (fun r => le_bytes 8 r.1 ++ VpnRouteManager.be_bytes4 r.2) rs.

Definition route_update_frame (rs : list (CSteamID * Z)) : list byte :=
  frame 3 (route_update_payload rs).

(** Probing 10.0.0.9, with an empty table. *)
Definition bridge_probing : SteamVpnBridge.t :=
  bridge 0 probing_9 (routes ∅).

(** Peer A alone, at 10.0.0.5. *)
Definition routes_A5 : VpnRouteManager.t :=
  routes {[ ip4 10 0 0 5 := entry_of peer_A (ip4 10 0 0 5) ]}.

(** The table of a sender that has B at 10.0.0.5 and A at 10.0.0.6. *)
Definition update_B5_A6 : list byte :=
  route_update_payload [(peer_B, ip4 10 0 0 5); (peer_A, ip4 10 0 0 6)].

(** A sender that only knows B, at 10.0.0.7. *)
Definition update_B7 : list byte :=
  route_update_payload [(peer_B, ip4 10 0 0 7)].

(** Probing 10.0.0.9 with one response collected, from peer B, whose
    node ID is lower and whose last heartbeat is 1 s old at 200 s. *)
Definition probing_with_active : IpNegotiator.t :=
  negotiator IpNegotiator.PROBING 0 (ip4 10 0 0 9) 0
    [{| IpNegotiator.ci_nodeId := id_low;
        IpNegotiator.ci_lastHeartbeatMs := 199000;
        IpNegotiator.ci_senderSteamID := peer_B |}] ∅.

Definition node (nid : NodeID) (peer : CSteamID) (ip lastHeartbeat : Z)
    (loc : bool) : NodeInfo :=
  {| ni_nodeId := nid; ni_steamId := peer; ni_ipAddress := ip;
     ni_lastHeartbeat := lastHeartbeat; ni_name := "node"; ni_isLocal := loc |}.

(** A heartbeat manager that has heard neither of itself nor of peer B
    since time 0. *)
Definition silent_nodes : HeartbeatManager.t :=
  {| HeartbeatManager.localNodeId_ := id_local;
     HeartbeatManager.localIP_ := ip4 10 0 0 5;
     HeartbeatManager.lastHeartbeatSent_ := 0;
     HeartbeatManager.nodeTable_ :=
       {[ id_local := node id_local me (ip4 10 0 0 5) 0 true;
          id_low := node id_low peer_B (ip4 10 0 0 7) 0 false ]};
     HeartbeatManager.ipToNodeId_ :=
       {[ ip4 10 0 0 5 := id_local; ip4 10 0 0 7 := id_low ]};
     HeartbeatManager.running_ := true;
     HeartbeatManager.sendCallback_ := true;
     HeartbeatManager.expiredCallback_ := true |}.

Definition at_400s : Z := 400000 * ticks_per_ms.

(** A heartbeat manager whose index names [id_low] at 10.0.0.7, while the
    node [id_high], known from 10.0.0.9, uses that address too. *)
Definition contested_nodes : HeartbeatManager.t :=
  {| HeartbeatManager.localNodeId_ := id_local;
     HeartbeatManager.localIP_ := ip4 10 0 0 5;
     HeartbeatManager.lastHeartbeatSent_ := 0;
     HeartbeatManager.nodeTable_ :=
       {[ id_high := node id_high peer_A (ip4 10 0 0 9) 0 false;
          id_low := node id_low peer_B (ip4 10 0 0 7) 0 false ]};
     HeartbeatManager.ipToNodeId_ :=
       {[ ip4 10 0 0 9 := id_high; ip4 10 0 0 7 := id_low ]};
     HeartbeatManager.running_ := true;
     HeartbeatManager.sendCallback_ := true;
     HeartbeatManager.expiredCallback_ := true |}.

(** Probing 10.0.0.9 with one response collected, from peer A, whose
    node ID is higher and whose last heartbeat is 1 s old at 200 s. *)
Definition probing_with_higher : IpNegotiator.t :=
  negotiator IpNegotiator.PROBING 0 (ip4 10 0 0 9) 0
    [{| IpNegotiator.ci_nodeId := id_high;
        IpNegotiator.ci_lastHeartbeatMs := 199000;
        IpNegotiator.ci_senderSteamID := peer_A |}] ∅.

(** The negotiator of another node, with the node ID [id_high], Stable
    at 10.0.0.5 as well. *)
Definition other_stable_5 : IpNegotiator.t :=
  {| IpNegotiator.localNodeId_ := id_high;
     IpNegotiator.localSteamID_ := peer_A;
     IpNegotiator.localIP_ := ip4 10 0 0 5;
     IpNegotiator.baseIP_ := ip4 10 0 0 0;
     IpNegotiator.subnetMask_ := ip4 255 255 255 0;
     IpNegotiator.state_ := IpNegotiator.STABLE;
     IpNegotiator.candidateIP_ := ip4 10 0 0 5;
     IpNegotiator.probeOffset_ := 0;
     IpNegotiator.probeStartTime_ := 0;
     IpNegotiator.collectedConflicts_ := [];
     IpNegotiator.usedIPs_ := ∅;
     IpNegotiator.sendCallback_ := true;
     IpNegotiator.broadcastCallback_ := true;
     IpNegotiator.successCallback_ := true |}.

(** The negotiator of the node [id_high], probing 10.0.0.9 too. *)
Definition other_probing_9 : IpNegotiator.t :=
  {| IpNegotiator.localNodeId_ := id_high;
     IpNegotiator.localSteamID_ := peer_A;
     IpNegotiator.localIP_ := 0;
     IpNegotiator.baseIP_ := ip4 10 0 0 0;
     IpNegotiator.subnetMask_ := ip4 255 255 255 0;
     IpNegotiator.state_ := IpNegotiator.PROBING;
     IpNegotiator.candidateIP_ := ip4 10 0 0 9;
     IpNegotiator.probeOffset_ := 0;
     IpNegotiator.probeStartTime_ := 0;
     IpNegotiator.collectedConflicts_ := [];
     IpNegotiator.usedIPs_ := ∅;
     IpNegotiator.sendCallback_ := true;
     IpNegotiator.broadcastCallback_ := true;
     IpNegotiator.successCallback_ := true |}.

(** An environment whose hash fails. *)
Definition env_hash_fails : SteamEnv :=
  {| GetSteamID := me;
     GetPersonaName := "local";
     GetFriendPersonaName := fun _ => "peer";
     sha256 := fun _ => None;
     tun_set_ip_up := fun _ _ => true |}.

(** Idle with offset 1, like [idle_offset_1], but with 10.0.0.1, the
    address its node ID and offset lead to, and 10.0.0.2 already in use. *)
Definition idle_seed_used : IpNegotiator.t :=
  negotiator IpNegotiator.IDLE 0 0 1 [] {[ ip4 10 0 0 1; ip4 10 0 0 2 ]}.

(** A sender that only knows A, at 10.0.0.6. *)
Definition update_A6 : list byte :=
  route_update_payload [(peer_A, ip4 10 0 0 6)].

(** An IP_PACKET frame whose packet, after the node ID, is the single
    byte 255. *)
Definition junk_packet_frame : list byte :=
  frame 1 (id_high ++ bytes [255]).

End Examples.

(** * Properties *)

(** ** Arithmetic of 32-bit masks *)

Lemma mod_succ_small (x M : Z) :
  0 < M -> x mod M + 1 < M -> (x + 1) mod M = x mod M + 1.
Proof.
  intros HM Hlt. pose proof (Z.mod_pos_bound x M HM) as Hb.
  symmetry. apply Z.mod_unique with (q := x / M); [left; lia|].
  pose proof (Z.div_mod x M ltac:(lia)) as E. lia.
Qed.

Lemma mod_succ_wrap (x M : Z) :
  0 < M -> x mod M + 1 = M -> (x + 1) mod M = 0.
Proof.
  intros HM Hlt.
  symmetry. apply Z.mod_unique with (q := x / M + 1); [left; lia|].
  pose proof (Z.div_mod x M ltac:(lia)) as E. lia.
Qed.

Lemma pow2_bounds (k : Z) : 2 <= k <= 32 -> 4 <= 2 ^ k <= 2 ^ 32.
Proof.
  intros Hk. split.
  - change 4 with (2 ^ 2). apply Z.pow_le_mono_r; lia.
  - apply Z.pow_le_mono_r; lia.
Qed.

Lemma not32_prefix_mask (k : Z) :
  2 <= k <= 32 -> not32 (prefix_mask k) = 2 ^ k - 1.
Proof.
  intros Hk. pose proof (pow2_bounds k Hk) as Hp.
  unfold not32, u32, prefix_mask, Z.lnot.
  symmetry. apply Z.mod_unique with (q := -1); lia.
Qed.

Lemma maxHosts_prefix_mask (k : Z) :
  2 <= k <= 32 -> IpNegotiator.maxHosts_of (prefix_mask k) = 2 ^ k - 2.
Proof.
  intros Hk. pose proof (pow2_bounds k Hk) as Hp.
  unfold IpNegotiator.maxHosts_of. rewrite not32_prefix_mask by done.
  unfold u32. rewrite Z.mod_small by lia.
  destruct (Z.eqb_spec (2 ^ k - 1 - 1) 0); lia.
Qed.

Lemma prefix_mask_low_bits (k : Z) :
  2 <= k <= 32 -> Z.land (prefix_mask k) (2 ^ k - 1) = 0.
Proof.
  intros Hk. replace (2 ^ k - 1) with (Z.ones k) by (rewrite Z.ones_equiv; lia).
  rewrite Z.land_ones by lia. unfold prefix_mask.
  replace (2 ^ 32) with (2 ^ (32 - k) * 2 ^ k)
    by (rewrite <- Z.pow_add_r by lia; f_equal; lia).
  replace (2 ^ (32 - k) * 2 ^ k - 2 ^ k) with ((2 ^ (32 - k) - 1) * 2 ^ k) by ring.
  apply Z_mod_mult.
Qed.

(** In a prefix subnet, or-ing a host part below [2^k] into the network
    address and masking with the host mask gives the host part back. *)
Lemma host_part_of_lor (k base h : Z) :
  2 <= k <= 32 -> 0 <= h < 2 ^ k ->
  Z.land (Z.lor (Z.land base (prefix_mask k)) h) (2 ^ k - 1) = h.
Proof.
  intros Hk Hh.
  rewrite Z.land_lor_distr_l, <- Z.land_assoc, prefix_mask_low_bits by done.
  rewrite Z.land_0_r, Z.lor_0_l.
  replace (2 ^ k - 1) with (Z.ones k) by (rewrite Z.ones_equiv; lia).
  rewrite Z.land_ones by lia. apply Z.mod_small. lia.
Qed.

Lemma hash_mod_2_24 (x : Z) : Z.land (u32 x) 16777215 = x mod 2 ^ 24.
Proof.
  change 16777215 with (Z.ones 24). rewrite Z.land_ones by lia.
  unfold u32. change (2 ^ 32) with 4294967296. change (2 ^ 24) with 16777216.
  Z.div_mod_to_equations. lia.
Qed.

Lemma cyc_range (M s j : Z) : 0 < M -> 1 <= cyc M s j <= M.
Proof.
  intros HM. unfold cyc. pose proof (Z.mod_pos_bound (s - 1 + j) M HM). lia.
Qed.

Lemma cyc_0 (M s : Z) : 1 <= s <= M -> cyc M s 0 = s.
Proof. intros Hs. unfold cyc. rewrite Z.add_0_r, Z.mod_small; lia. Qed.

(** A full turn comes back to the start. *)
Lemma cyc_full (M s : Z) : 1 <= s <= M -> cyc M s M = s.
Proof.
  intros Hs. unfold cyc.
  replace (s - 1 + M) with (s - 1 + 1 * M) by ring.
  rewrite Z_mod_plus_full, Z.mod_small; lia.
Qed.

(** One iteration of the scan moves from [cyc j] to [cyc (j + 1)]. *)
Lemma cyc_next (M s j : Z) :
  0 < M -> M + 1 < 2 ^ 32 ->
  (let h := u32 (cyc M s j + 1) in if M + 1 <=? h then 1 else h)
  = cyc M s (j + 1).
Proof.
  intros HM Hsmall. pose proof (cyc_range M s j HM) as Hr. cbv zeta.
  unfold u32. rewrite Z.mod_small by lia.
  unfold cyc in *. replace (s - 1 + (j + 1)) with (s - 1 + j + 1) by ring.
  destruct (Z.leb_spec (M + 1) ((s - 1 + j) mod M + 1 + 1)).
  - rewrite mod_succ_wrap; lia.
  - rewrite mod_succ_small; lia.
Qed.

(** The loop invariant of the scan. *)
Lemma scan_spec (used : gset Z) (net H M s : Z) :
  2 <= H < 2 ^ 32 -> M = H - 1 -> 1 <= s <= M ->
  forall (fuel : nat) (a : Z),
    0 <= a -> Z.of_nat fuel = M - a ->
    (forall i, 0 <= i < a -> Z.lor net (cyc M s i) ∈ used) ->
    exists j, a <= j <= M /\
      IpNegotiator.scan fuel used net H M (cyc M s a)
                        (Z.lor net (cyc M s a)) a
      = Z.lor net (cyc M s j) /\
      (forall i, 0 <= i < j -> Z.lor net (cyc M s i) ∈ used) /\
      (j < M -> Z.lor net (cyc M s j) ∉ used).
Proof.
  intros HH HM Hs fuel.
  assert (HH' : H = M + 1) by lia. subst H. clear HM.
  induction fuel as [|fuel IH]; intros a Ha Hfuel Hused.
  - exists a. simpl. repeat split; try lia; auto.
  - simpl. destruct (decide (Z.lor net (cyc M s a) ∈ used)) as [Hin|Hnin].
    + rewrite bool_decide_eq_true_2 by done.
      destruct (Z.ltb_spec a M); [|lia]. cbn [andb].
      pose proof (cyc_next M s a ltac:(lia) ltac:(lia)) as Hn. cbv zeta in Hn.
      rewrite Hn.
      replace (u32 (a + 1)) with (a + 1) by (unfold u32; rewrite Z.mod_small; lia).
      destruct (IH (a + 1)) as (j & Hj & Hres & Hbefore & Hfree); [lia|lia| |].
      * intros i Hi. destruct (decide (i = a)) as [->|]; [done|]. apply Hused. lia.
      * exists j. repeat split; try lia; auto.
    + rewrite bool_decide_eq_false_2 by done. cbn [andb].
      exists a. repeat split; try lia; auto.
Qed.

(** The fuel given to the scan is enough: more fuel changes nothing, so
    the loop always ends on its own condition. *)
Lemma scan_fuel_enough (used : gset Z) (net H M : Z) (fuel : nat) :
  M < 2 ^ 32 ->
  forall h p a, 0 <= a -> M - a <= Z.of_nat fuel ->
    IpNegotiator.scan (S fuel) used net H M h p a
    = IpNegotiator.scan fuel used net H M h p a.
Proof.
  intros HM. induction fuel as [|fuel IH]; intros h p a Ha Hf.
  - simpl. destruct (Z.ltb_spec a M); [lia|]. by rewrite andb_false_r.
  - change (IpNegotiator.scan (S (S fuel)) used net H M h p a)
      with (if bool_decide (p ∈ used) && (a <? M)
            then IpNegotiator.scan (S fuel) used net H M
                   (if H <=? u32 (h + 1) then 1 else u32 (h + 1))
                   (Z.lor net (if H <=? u32 (h + 1) then 1 else u32 (h + 1)))
                   (u32 (a + 1))
            else p).
    change (IpNegotiator.scan (S fuel) used net H M h p a)
      with (if bool_decide (p ∈ used) && (a <? M)
            then IpNegotiator.scan fuel used net H M
                   (if H <=? u32 (h + 1) then 1 else u32 (h + 1))
                   (Z.lor net (if H <=? u32 (h + 1) then 1 else u32 (h + 1)))
                   (u32 (a + 1))
            else p).
    destruct (bool_decide (p ∈ used)); [|done].
    destruct (Z.ltb_spec a M); [|done]. cbn [andb].
    assert (E : u32 (a + 1) = a + 1) by (unfold u32; rewrite Z.mod_small; lia).
    rewrite E. apply IH; lia.
Qed.

(** ** Candidate generation and the availability scan *)

Lemma generate_host_part (n : IpNegotiator.t) (offset k : Z) :
  2 <= k <= 32 -> IpNegotiator.subnetMask_ n = prefix_mask k ->
  let seed :=
    ((IpNegotiator.lo24 (IpNegotiator.localNodeId_ n) + offset) mod 2 ^ 24)
      mod (2 ^ k - 2) + 1 in
  IpNegotiator.generateCandidateIP n offset
  = Z.lor (Z.land (IpNegotiator.baseIP_ n) (prefix_mask k)) seed
  /\ 1 <= seed <= 2 ^ k - 2.
Proof.
  intros Hk Hmask seed. pose proof (pow2_bounds k Hk) as Hp.
  assert (Hseed : 1 <= seed <= 2 ^ k - 2).
  { subst seed.
    pose proof (Z.mod_pos_bound
      ((IpNegotiator.lo24 (IpNegotiator.localNodeId_ n) + offset) mod 2 ^ 24)
      (2 ^ k - 2) ltac:(lia)). lia. }
  split; [|done].
  unfold IpNegotiator.generateCandidateIP.
  rewrite Hmask, maxHosts_prefix_mask, hash_mod_2_24 by done.
  fold seed. unfold u32. rewrite Z.mod_small by lia. done.
Qed.

(** The scan started on a seed of a prefix subnet. *)
Lemma findNextAvailableIP_scan (n : IpNegotiator.t) (k seed : Z) :
  2 <= k <= 32 -> IpNegotiator.subnetMask_ n = prefix_mask k ->
  1 <= seed <= 2 ^ k - 2 ->
  let net := Z.land (IpNegotiator.baseIP_ n) (prefix_mask k) in
  exists j, 0 <= j <= 2 ^ k - 2
    /\ IpNegotiator.findNextAvailableIP n (Z.lor net seed)
       = Z.lor net (cyc (2 ^ k - 2) seed j)
    /\ (forall i, 0 <= i < j ->
          Z.lor net (cyc (2 ^ k - 2) seed i) ∈ IpNegotiator.usedIPs_ n)
    /\ (j < 2 ^ k - 2 ->
        Z.lor net (cyc (2 ^ k - 2) seed j) ∉ IpNegotiator.usedIPs_ n).
Proof.
  intros Hk Hmask Hseed net. pose proof (pow2_bounds k Hk) as Hp. subst net.
  unfold IpNegotiator.findNextAvailableIP.
  rewrite Hmask, not32_prefix_mask, maxHosts_prefix_mask by done.
  rewrite host_part_of_lor by lia.
  set (net := Z.land (IpNegotiator.baseIP_ n) (prefix_mask k)).
  destruct (Z.eqb_spec seed 0); [lia|].
  destruct (Z.leb_spec (2 ^ k - 1) seed); [lia|]. cbn [orb].
  destruct (scan_spec (IpNegotiator.usedIPs_ n) net (2 ^ k - 1) (2 ^ k - 2) seed
              ltac:(lia) ltac:(lia) Hseed (Z.to_nat (2 ^ k - 2)) 0
              ltac:(lia) ltac:(lia) ltac:(lia))
    as (j & Hj & Hres & Hbefore & Hfree).
  rewrite cyc_0 in Hres by done.
  exists j. rewrite Hres. done.
Qed.

(** C6, as amended: on (re-)entering Probing the seed is computed from the
    24-bit truncation of [lo24 + offset]; the scan then returns the first
    address not in UsedIPSet going forward from the seed and wrapping from
    the top host back to host 1, after at most [host_count] steps (when
    every host is used it comes back to the seed). *)
Theorem candidate_selection (now : Z) (n : IpNegotiator.t) (k : Z) :
  2 <= k <= 32 -> IpNegotiator.subnetMask_ n = prefix_mask k ->
  let offset := IpNegotiator.probeOffset_ n in
  let host_count := 2 ^ k - 2 in
  let net := Z.land (IpNegotiator.baseIP_ n) (IpNegotiator.subnetMask_ n) in
  let seed :=
    ((IpNegotiator.lo24 (IpNegotiator.localNodeId_ n) + offset) mod 2 ^ 24)
      mod host_count + 1 in
  let n' := (IpNegotiator.startNegotiation now n).1 in
  let candidate := IpNegotiator.candidateIP_ n' in
  IpNegotiator.state_ n' = IpNegotiator.PROBING
  /\ Z.land (IpNegotiator.generateCandidateIP n offset)
            (not32 (IpNegotiator.subnetMask_ n)) = seed
  /\ exists j, 0 <= j <= host_count
       /\ candidate = Z.lor net (cyc host_count seed j)
       /\ (forall i, 0 <= i < j ->
             Z.lor net (cyc host_count seed i) ∈ IpNegotiator.usedIPs_ n)
       /\ (j < host_count -> candidate ∉ IpNegotiator.usedIPs_ n)
       /\ (j = host_count -> candidate = Z.lor net seed).
Proof.
  intros Hk Hmask offset host_count net seed n' candidate.
  pose proof (pow2_bounds k Hk) as Hp.
  destruct (generate_host_part n offset k Hk Hmask) as [Hgen Hseed].
  fold host_count in Hgen, Hseed. fold seed in Hgen, Hseed.
  split; [done|]. split.
  { rewrite Hgen, Hmask, not32_prefix_mask by done.
    apply host_part_of_lor; [done|lia]. }
  change candidate with
    (IpNegotiator.findNextAvailableIP n
       (IpNegotiator.generateCandidateIP n offset)).
  rewrite Hgen. subst net. rewrite Hmask.
  destruct (findNextAvailableIP_scan n k seed Hk Hmask Hseed)
    as (j & Hj & Hres & Hbefore & Hfree).
  exists j. rewrite Hres.
  split; [done|]. split; [done|]. split; [done|]. split; [done|].
  intros ->. by rewrite cyc_full.
Qed.

(** C6 as stated fails: with the low 24 bits of the node ID all set and
    offset 1 the sum wraps to 0 and the seed is host 1, not
    [(2^24 mod 254) + 1 = 9]. *)
Lemma candidate_seed_truncates :
  let n := Examples.idle_offset_1 in
  let offset := IpNegotiator.probeOffset_ n in
  IpNegotiator.subnetMask_ n = prefix_mask 8
  /\ Z.land (IpNegotiator.generateCandidateIP n offset)
            (not32 (IpNegotiator.subnetMask_ n)) = 1
  /\ (IpNegotiator.lo24 (IpNegotiator.localNodeId_ n) + offset)
       mod (2 ^ 8 - 2) + 1 = 9.
Proof. vm_compute. done. Qed.

Lemma candidate_selection_witness :
  2 <= 8 <= 32
  /\ IpNegotiator.subnetMask_ Examples.idle_offset_1 = prefix_mask 8
  /\ IpNegotiator.candidateIP_
       (IpNegotiator.startNegotiation 0 Examples.idle_offset_1).1
     = Examples.ip4 10 0 0 1.
Proof.
  split; [lia|]. split; [reflexivity|].
  destruct (candidate_selection 0 Examples.idle_offset_1 8
              ltac:(lia) ltac:(reflexivity))
    as (_ & _ & j & Hj & Hcand & Hbefore & _ & _).
  destruct (decide (j = 0)) as [->|Hne].
  - rewrite Hcand. reflexivity.
  - exfalso. specialize (Hbefore 0 ltac:(lia)). simpl in Hbefore.
    by apply not_elem_of_empty in Hbefore.
Defined.

(** ** The probe timeout *)

(** Stale conflicts are skipped by the arbitration loop: they neither
    block the claim nor earn a forced release. *)
Lemma arbitrate_all_stale (now : Z) (localId : NodeID)
    (conflicts : list IpNegotiator.ConflictInfo) (acc : list CSteamID) :
  Forall (fun c => HEARTBEAT_EXPIRY_MS <= IpNegotiator.heartbeatAge now c)
         conflicts ->
  IpNegotiator.arbitrate now localId conflicts acc = (true, acc).
Proof.
  induction 1 as [|c cs Hc _ IH]; simpl; [done|].
  destruct (Z.leb_spec HEARTBEAT_EXPIRY_MS (IpNegotiator.heartbeatAge now c));
    [done|lia].
Qed.

(** C1 as stated fails: peer B answered the probe for 10.0.0.9 with a
    heartbeat 200 s old; the node claims the address and announces it, but
    no FORCED_RELEASE goes to B. *)
Lemma stale_responder_gets_no_release :
  let n := Examples.probing_with_stale in
  let now := Examples.at_200s in
  IpNegotiator.state_ n = IpNegotiator.PROBING
  /\ PROBE_TIMEOUT_MS <= to_ms (now - IpNegotiator.probeStartTime_ n)
  /\ Forall (fun c => HEARTBEAT_EXPIRY_MS <= IpNegotiator.heartbeatAge now c)
            (IpNegotiator.collectedConflicts_ n)
  /\ (IpNegotiator.checkTimeout now n).2
     = [IpNegotiator.Broadcast ADDRESS_ANNOUNCE
          (PAddressAnnounce {| aa_ipAddress := Examples.ip4 10 0 0 9;
                               aa_nodeId := Examples.id_local |}) true;
        IpNegotiator.Success (Examples.ip4 10 0 0 9) Examples.id_local]
  /\ ~ In (IpNegotiator.Send FORCED_RELEASE
             (PForcedRelease {| fr_ipAddress := Examples.ip4 10 0 0 9;
                                fr_winnerNodeId := Examples.id_local |})
             Examples.peer_B true)
          (IpNegotiator.checkTimeout now n).2.
Proof.
  cbv zeta. split; [reflexivity|]. split; [vm_compute; discriminate|].
  split; [repeat constructor; vm_compute; discriminate|].
  assert (E : (IpNegotiator.checkTimeout Examples.at_200s
                 Examples.probing_with_stale).2
              = [IpNegotiator.Broadcast ADDRESS_ANNOUNCE
                   (PAddressAnnounce {| aa_ipAddress := Examples.ip4 10 0 0 9;
                                        aa_nodeId := Examples.id_local |}) true;
                 IpNegotiator.Success (Examples.ip4 10 0 0 9) Examples.id_local])
    by reflexivity.
  split; [exact E|]. rewrite E. simpl. intros [H|[H|[]]]; discriminate.
Qed.

(** C1, as amended: once the probe window has elapsed with only stale
    conflicts collected, [checkTimeout] makes the negotiator Stable at the
    candidate and broadcasts ADDRESS_ANNOUNCE; the stale responders are
    ignored, so nothing is sent to any single peer. *)
Theorem timeout_with_stale_conflicts (now : Z) (n : IpNegotiator.t) :
  IpNegotiator.state_ n = IpNegotiator.PROBING ->
  PROBE_TIMEOUT_MS <= to_ms (now - IpNegotiator.probeStartTime_ n) ->
  Forall (fun c => HEARTBEAT_EXPIRY_MS <= IpNegotiator.heartbeatAge now c)
         (IpNegotiator.collectedConflicts_ n) ->
  IpNegotiator.broadcastCallback_ n = true ->
  let n' := (IpNegotiator.checkTimeout now n).1 in
  let calls := (IpNegotiator.checkTimeout now n).2 in
  IpNegotiator.state_ n' = IpNegotiator.STABLE
  /\ IpNegotiator.localIP_ n' = IpNegotiator.candidateIP_ n
  /\ IpNegotiator.collectedConflicts_ n' = []
  /\ In (IpNegotiator.Broadcast ADDRESS_ANNOUNCE
           (PAddressAnnounce
              {| aa_ipAddress := IpNegotiator.candidateIP_ n;
                 aa_nodeId := IpNegotiator.localNodeId_ n |}) true) calls
  /\ (forall ty p target reliable,
        ~ In (IpNegotiator.Send ty p target reliable) calls).
Proof.
  intros Hst Hel Hstale Hbc n' calls. subst n' calls.
  unfold IpNegotiator.checkTimeout.
  rewrite Hst. rewrite bool_decide_eq_true_2 by done. cbn [negb].
  destruct (Z.ltb_spec (to_ms (now - IpNegotiator.probeStartTime_ n))
                       PROBE_TIMEOUT_MS); [lia|].
  cbn [IpNegotiator.set_conflicts IpNegotiator.set_probe
       IpNegotiator.localNodeId_].
  rewrite arbitrate_all_stale by done.
  cbn [flat_map app fst snd].
  unfold IpNegotiator.sendAddressAnnounce.
  cbn [IpNegotiator.set_stable IpNegotiator.broadcastCallback_
       IpNegotiator.localIP_ IpNegotiator.localNodeId_
       IpNegotiator.candidateIP_ IpNegotiator.successCallback_
       IpNegotiator.state_ IpNegotiator.collectedConflicts_].
  simpl. rewrite Hbc. repeat split.
  - left. reflexivity.
  - intros ty p target reliable Hin.
    destruct Hin as [Hin|Hin]; [discriminate|].
    destruct (IpNegotiator.successCallback_ n); simpl in Hin;
      [destruct Hin as [Hin|[]]; discriminate|destruct Hin].
Qed.

Lemma timeout_with_stale_conflicts_witness :
  IpNegotiator.state_
    (IpNegotiator.checkTimeout Examples.at_200s Examples.probing_with_stale).1
  = IpNegotiator.STABLE
  /\ IpNegotiator.localIP_
       (IpNegotiator.checkTimeout Examples.at_200s Examples.probing_with_stale).1
     = Examples.ip4 10 0 0 9.
Proof.
  pose proof (timeout_with_stale_conflicts Examples.at_200s
                Examples.probing_with_stale) as H.
  destruct H as (H1 & H2 & _).
  - reflexivity.
  - vm_compute. discriminate.
  - repeat constructor. vm_compute. discriminate.
  - reflexivity.
  - split; [exact H1|]. rewrite H2. reflexivity.
Defined.

(** An active responder with a lower node ID, by contrast, is sent the
    FORCED_RELEASE before the announce. *)
Example active_lower_responder_is_released :
  (IpNegotiator.checkTimeout Examples.at_200s Examples.probing_with_active).2
  = [IpNegotiator.Send FORCED_RELEASE
       (PForcedRelease {| fr_ipAddress := Examples.ip4 10 0 0 9;
                          fr_winnerNodeId := Examples.id_local |})
       Examples.peer_B true;
     IpNegotiator.Broadcast ADDRESS_ANNOUNCE
       (PAddressAnnounce {| aa_ipAddress := Examples.ip4 10 0 0 9;
                            aa_nodeId := Examples.id_local |}) true;
     IpNegotiator.Success (Examples.ip4 10 0 0 9) Examples.id_local].
Proof. reflexivity. Qed.

(** ** Incoming PROBE_REQUEST *)

Lemma compare_from_antisym (n i : nat) (a b : NodeID) :
  NodeIdentity.compare_from n i a b = - NodeIdentity.compare_from n i b a.
Proof.
  revert i. induction n as [|n IH]; intros i; simpl; [done|].
  destruct (Z.ltb_spec (u8 (nth i a x00)) (u8 (nth i b x00)));
    destruct (Z.ltb_spec (u8 (nth i b x00)) (u8 (nth i a x00)));
    try lia. apply IH.
Qed.

(** The local node lacks priority exactly when the other ID is higher or
    equal. *)
Lemma hasPriority_false_iff (localId other : NodeID) :
  NodeIdentity.hasPriority localId other = false
  <-> 0 <= NodeIdentity.compare other localId.
Proof.
  unfold NodeIdentity.hasPriority, NodeIdentity.compare.
  rewrite (compare_from_antisym _ _ other localId).
  destruct (Z.ltb_spec 0 (NodeIdentity.compare_from NODE_ID_SIZE 0 localId other));
    split; intros; try done; lia.
Qed.

Lemma hasPriority_true_iff (localId other : NodeID) :
  NodeIdentity.hasPriority localId other = true
  <-> NodeIdentity.compare other localId < 0.
Proof.
  pose proof (hasPriority_false_iff localId other) as H.
  destruct (NodeIdentity.hasPriority localId other); split; intros; try done.
  - destruct H as [_ H]. destruct (Z.lt_ge_cases
      (NodeIdentity.compare other localId) 0); [done|]. discriminate H. lia.
  - destruct H as [H _]. specialize (H eq_refl). lia.
Qed.

Lemma handleProbeRequest_stable (now : Z) (request : ProbeRequestPayload)
    (senderSteamID : CSteamID) (n : IpNegotiator.t) :
  IpNegotiator.state_ n = IpNegotiator.STABLE ->
  prq_ipAddress request = IpNegotiator.localIP_ n ->
  IpNegotiator.handleProbeRequest now request senderSteamID n
  = (n, if IpNegotiator.sendCallback_ n
        then [probe_response now n (IpNegotiator.localIP_ n) senderSteamID]
        else []).
Proof.
  intros Hst Hip. unfold IpNegotiator.handleProbeRequest.
  rewrite Hst, Hip, Z.eqb_refl. rewrite bool_decide_eq_true_2 by done.
  reflexivity.
Qed.

Lemma startNegotiation_calls (now : Z) (n : IpNegotiator.t) :
  forall ty p target reliable,
    ~ In (IpNegotiator.Send ty p target reliable)
         (IpNegotiator.startNegotiation now n).2.
Proof.
  intros ty p target reliable. unfold IpNegotiator.startNegotiation. simpl.
  unfold IpNegotiator.sendProbeRequest. simpl.
  destruct (IpNegotiator.broadcastCallback_ n); simpl; [|tauto].
  intros [H|[]]. discriminate.
Qed.

(** C2 as stated fails: Stable at 10.0.0.5, a PROBE_REQUEST for 10.0.0.5
    from a higher node ID leaves the negotiator Stable at 10.0.0.5. *)
Lemma stable_does_not_yield_to_probe :
  let request := {| prq_ipAddress := Examples.ip4 10 0 0 5;
                    prq_nodeId := Examples.id_high |} in
  let n' := (IpNegotiator.handleProbeRequest 0 request Examples.peer_A
                                             Examples.stable_5).1 in
  IpNegotiator.state_ Examples.stable_5 = IpNegotiator.STABLE
  /\ prq_ipAddress request = IpNegotiator.localIP_ Examples.stable_5
  /\ NodeIdentity.hasPriority (prq_nodeId request)
       (IpNegotiator.localNodeId_ Examples.stable_5) = true
  /\ IpNegotiator.state_ n' = IpNegotiator.STABLE
  /\ IpNegotiator.state_ n' <> IpNegotiator.PROBING.
Proof. vm_compute. repeat split; done. Qed.

(** C2, as amended: while Stable, a PROBE_REQUEST for the local IP never
    changes the negotiator, whatever the requester's node ID: it stays
    Stable at the same address, and answers with a PROBE_RESPONSE. *)
Theorem stable_probe_request_defends (now : Z) (request : ProbeRequestPayload)
    (senderSteamID : CSteamID) (n : IpNegotiator.t) :
  IpNegotiator.state_ n = IpNegotiator.STABLE ->
  prq_ipAddress request = IpNegotiator.localIP_ n ->
  IpNegotiator.sendCallback_ n = true ->
  let r := IpNegotiator.handleProbeRequest now request senderSteamID n in
  r.1 = n
  /\ IpNegotiator.state_ r.1 = IpNegotiator.STABLE
  /\ IpNegotiator.localIP_ r.1 = IpNegotiator.localIP_ n
  /\ r.2 = [probe_response now n (IpNegotiator.localIP_ n) senderSteamID].
Proof.
  intros Hst Hip Hcb r. subst r.
  rewrite handleProbeRequest_stable by done. rewrite Hcb. simpl.
  repeat split; done.
Qed.

Lemma stable_probe_request_defends_witness :
  IpNegotiator.state_
    (IpNegotiator.handleProbeRequest 0
       {| prq_ipAddress := Examples.ip4 10 0 0 5;
          prq_nodeId := Examples.id_high |}
       Examples.peer_A Examples.stable_5).1
  = IpNegotiator.STABLE.
Proof.
  apply (stable_probe_request_defends 0
           {| prq_ipAddress := Examples.ip4 10 0 0 5;
              prq_nodeId := Examples.id_high |}
           Examples.peer_A Examples.stable_5); reflexivity.
Defined.

(** C7 as stated fails when the two node IDs are equal: the requester's
    ID is not higher, yet the prober yields (offset 0 becomes 1, a new
    PROBE_REQUEST goes out) and sends no PROBE_RESPONSE. *)
Lemma equal_id_probe_is_not_answered :
  let request := {| prq_ipAddress := Examples.ip4 10 0 0 9;
                    prq_nodeId := Examples.id_local |} in
  let r := IpNegotiator.handleProbeRequest 0 request Examples.peer_A
                                           Examples.probing_9 in
  IpNegotiator.state_ Examples.probing_9 = IpNegotiator.PROBING
  /\ prq_ipAddress request = IpNegotiator.candidateIP_ Examples.probing_9
  /\ NodeIdentity.hasPriority (prq_nodeId request)
       (IpNegotiator.localNodeId_ Examples.probing_9) = false
  /\ IpNegotiator.probeOffset_ r.1 = 1
  /\ r.2 = [IpNegotiator.Broadcast PROBE_REQUEST
              (PProbeRequest {| prq_ipAddress := Examples.ip4 10 0 0 1;
                                prq_nodeId := Examples.id_local |}) true].
Proof. vm_compute. repeat split; done. Qed.

(** C7, as amended: Stable and asked for the local IP, the negotiator
    replies with a PROBE_RESPONSE carrying that IP, its node ID and the
    current time, whatever the requester's priority.  Probing and asked
    for its candidate, it yields without responding (offset incremented,
    negotiation restarted) when the requester's node ID is higher than or
    equal to its own, and replies while keeping its candidate when the
    requester's node ID is lower. *)
Theorem probe_request_handling (now : Z) (request : ProbeRequestPayload)
    (senderSteamID : CSteamID) (n : IpNegotiator.t) :
  IpNegotiator.sendCallback_ n = true ->
  let r := IpNegotiator.handleProbeRequest now request senderSteamID n in
  let cmp := NodeIdentity.compare (prq_nodeId request)
                                  (IpNegotiator.localNodeId_ n) in
  (IpNegotiator.state_ n = IpNegotiator.STABLE ->
   prq_ipAddress request = IpNegotiator.localIP_ n ->
   r = (n, [probe_response now n (IpNegotiator.localIP_ n) senderSteamID]))
  /\ (IpNegotiator.state_ n = IpNegotiator.PROBING ->
      prq_ipAddress request = IpNegotiator.candidateIP_ n ->
      (0 <= cmp ->
         r = IpNegotiator.startNegotiation now
               (IpNegotiator.set_offset n (u32 (IpNegotiator.probeOffset_ n + 1)))
         /\ IpNegotiator.probeOffset_ r.1 = u32 (IpNegotiator.probeOffset_ n + 1)
         /\ IpNegotiator.state_ r.1 = IpNegotiator.PROBING
         /\ forall ty p target reliable,
              ~ In (IpNegotiator.Send ty p target reliable) r.2)
      /\ (cmp < 0 ->
         r = (n, [probe_response now n (IpNegotiator.candidateIP_ n)
                                 senderSteamID]))).
Proof.
  intros Hcb r cmp. split.
  - intros Hst Hip. subst r. rewrite handleProbeRequest_stable by done.
    by rewrite Hcb.
  - intros Hst Hip.
    assert (E : r = if NodeIdentity.hasPriority (IpNegotiator.localNodeId_ n)
                                                (prq_nodeId request)
                    then (n, [probe_response now n (IpNegotiator.candidateIP_ n)
                                             senderSteamID])
                    else IpNegotiator.startNegotiation now
                           (IpNegotiator.set_offset n
                              (u32 (IpNegotiator.probeOffset_ n + 1)))).
    { subst r. unfold IpNegotiator.handleProbeRequest.
      rewrite Hst, Hip, Z.eqb_refl, Hcb.
      rewrite bool_decide_eq_false_2 by done.
      rewrite bool_decide_eq_true_2 by done. reflexivity. }
    split.
    + intros Hge. apply hasPriority_false_iff in Hge. rewrite Hge in E.
      rewrite E. repeat split. apply startNegotiation_calls.
    + intros Hlt. apply hasPriority_true_iff in Hlt. by rewrite Hlt in E.
Qed.

Lemma probe_request_handling_witness :
  IpNegotiator.handleProbeRequest 0
    {| prq_ipAddress := Examples.ip4 10 0 0 5; prq_nodeId := Examples.id_low |}
    Examples.peer_B Examples.stable_5
  = (Examples.stable_5,
     [probe_response 0 Examples.stable_5 (Examples.ip4 10 0 0 5) Examples.peer_B]).
Proof.
  destruct (probe_request_handling 0
              {| prq_ipAddress := Examples.ip4 10 0 0 5;
                 prq_nodeId := Examples.id_low |}
              Examples.peer_B Examples.stable_5 eq_refl) as [H _].
  apply H; reflexivity.
Defined.

(** ** The lease scan *)

Lemma lease_lost_iff (now : Z) (info : NodeInfo) :
  HeartbeatManager.lease_lost now info = true
  <-> ni_isLocal info = false
      /\ LEASE_EXPIRY_MS <= to_ms (now - ni_lastHeartbeat info).
Proof.
  unfold HeartbeatManager.lease_lost, isLeaseExpired.
  destruct (ni_isLocal info); simpl.
  - split; [discriminate|]. intros [? _]. discriminate.
  - destruct (Z.leb_spec LEASE_EXPIRY_MS (to_ms (now - ni_lastHeartbeat info)));
      split; try done; intros [_ ?]; lia.
Qed.

Lemma elem_of_nodes (tbl : gmap NodeID NodeInfo) (id : NodeID) (info : NodeInfo) :
  In (id, info) (HeartbeatManager.nodes tbl) <-> tbl !! id = Some info.
Proof.
  unfold HeartbeatManager.nodes.
  rewrite <- list_elem_of_In, merge_sort_Permutation.
  apply elem_of_map_to_list.
Qed.

Lemma elem_of_expiredNodes (now : Z) (hm : HeartbeatManager.t)
    (id : NodeID) (ip : Z) :
  In (id, ip) (HeartbeatManager.expiredNodes now hm)
  <-> exists info, HeartbeatManager.nodeTable_ hm !! id = Some info
        /\ HeartbeatManager.lease_lost now info = true
        /\ ip = ni_ipAddress info.
Proof.
  unfold HeartbeatManager.expiredNodes. rewrite in_map_iff. split.
  - intros ([id' info] & Heq & Hin). simpl in Heq. inversion Heq; subst.
    apply filter_In in Hin as [Hin Hlost]. apply elem_of_nodes in Hin.
    exists info. done.
  - intros (info & Hlook & Hlost & ->). exists (id, info). split; [done|].
    apply filter_In. split; [by apply elem_of_nodes|done].
Qed.

(** C10: the lease scan removes exactly the non-local entries whose last
    heartbeat is at least [LEASE_EXPIRY_MS] old; the local entry stays
    and is never handed to the expiry callback, however old it is. *)
Theorem lease_scan_spares_local (now : Z) (hm : HeartbeatManager.t) :
  let r := HeartbeatManager.checkExpiredLeases now hm in
  let expired (info : NodeInfo) :=
    ni_isLocal info = false
    /\ LEASE_EXPIRY_MS <= to_ms (now - ni_lastHeartbeat info) in
  (forall id info,
     HeartbeatManager.nodeTable_ r.1 !! id = Some info
     <-> HeartbeatManager.nodeTable_ hm !! id = Some info /\ ~ expired info)
  /\ (forall id ip,
        In (HeartbeatManager.Expired id ip) r.2 ->
        exists info, HeartbeatManager.nodeTable_ hm !! id = Some info
          /\ expired info /\ ip = ni_ipAddress info)
  /\ (HeartbeatManager.expiredCallback_ hm = true ->
      forall id info,
        HeartbeatManager.nodeTable_ hm !! id = Some info -> expired info ->
        In (HeartbeatManager.Expired id (ni_ipAddress info)) r.2)
  /\ (forall id info,
        HeartbeatManager.nodeTable_ hm !! id = Some info ->
        ni_isLocal info = true ->
        HeartbeatManager.nodeTable_ r.1 !! id = Some info
        /\ forall ip, ~ In (HeartbeatManager.Expired id ip) r.2).
Proof.
  intros r expired.
  assert (Htbl : forall id info,
     HeartbeatManager.nodeTable_ r.1 !! id = Some info
     <-> HeartbeatManager.nodeTable_ hm !! id = Some info /\ ~ expired info).
  { intros id info. subst r. simpl. rewrite map_lookup_filter_Some. simpl.
    unfold expired. rewrite <- lease_lost_iff.
    destruct (HeartbeatManager.lease_lost now info); split; intros [? ?];
      split; try done. }
  assert (Hcalls : forall id ip,
        In (HeartbeatManager.Expired id ip) r.2 ->
        exists info, HeartbeatManager.nodeTable_ hm !! id = Some info
          /\ expired info /\ ip = ni_ipAddress info).
  { intros id ip Hin. subst r. simpl in Hin.
    destruct (HeartbeatManager.expiredCallback_ hm); [|destruct Hin].
    apply in_map_iff in Hin as ([id' ip'] & Heq & Hin). simpl in Heq.
    inversion Heq; subst.
    apply elem_of_expiredNodes in Hin as (info & Hlook & Hlost & ->).
    exists info. unfold expired. by rewrite <- lease_lost_iff. }
  split; [exact Htbl|]. split; [exact Hcalls|]. split.
  - intros Hcb id info Hlook Hexp. subst r. simpl. rewrite Hcb.
    apply in_map_iff. exists (id, ni_ipAddress info). split; [done|].
    apply elem_of_expiredNodes. exists info. unfold expired in Hexp.
    by rewrite lease_lost_iff.
  - intros id info Hlook Hlocal. split.
    + apply Htbl. split; [done|]. intros [Hnl _]. congruence.
    + intros ip Hin. apply Hcalls in Hin as (info' & Hlook' & [Hnl _] & _).
      congruence.
Qed.

(** After 400 s of silence peer B is evicted and reported; the local
    node, just as silent, stays. *)
Example silent_peer_evicted_local_kept :
  let r := HeartbeatManager.checkExpiredLeases Examples.at_400s
             Examples.silent_nodes in
  HeartbeatManager.nodes (HeartbeatManager.nodeTable_ r.1)
  = [(Examples.id_local,
      Examples.node Examples.id_local Examples.me (Examples.ip4 10 0 0 5) 0 true)]
  /\ r.2 = [HeartbeatManager.Expired Examples.id_low (Examples.ip4 10 0 0 7)].
Proof. vm_compute. done. Qed.

(** ** The routing table *)

Lemma evict_old_lookup (steamId : CSteamID) (ip ip' : Z)
    (tbl : gmap Z RouteEntry) (e : RouteEntry) :
  VpnRouteManager.evict_old steamId ip tbl !! ip' = Some e
  <-> tbl !! ip' = Some e /\ (steamID e = steamId -> ip' = ip).
Proof.
  unfold VpnRouteManager.evict_old. rewrite map_lookup_filter_Some. simpl.
  split; intros [Hl Hp]; (split; [done|]).
  - intros Hs. destruct (decide (ip' = ip)); [done|]. exfalso. by apply Hp.
  - intros [Hs Hne]. by apply Hne, Hp.
Qed.

(** The table that [updateRoute] leaves, entry by entry. *)
Lemma updateRoute_lookup (env : SteamEnv) (nid : NodeID) (steamId : CSteamID)
    (ip : Z) (nm : string) (rm : VpnRouteManager.t) (ip' : Z) (e : RouteEntry) :
  VpnRouteManager.routingTable_
    (VpnRouteManager.updateRoute env nid steamId ip nm rm).1 !! ip' = Some e
  <-> (ip' = ip
       /\ e = {| steamID := steamId; ipAddress := ip; name := nm;
                 isLocal := bool_decide (steamId = GetSteamID env);
                 nodeId := nid |})
      \/ (ip' <> ip /\ steamID e <> steamId
          /\ VpnRouteManager.routingTable_ rm !! ip' = Some e).
Proof.
  simpl. destruct (decide (ip' = ip)) as [->|Hne].
  - rewrite lookup_insert_eq. split.
    + intros [= <-]. by left.
    + intros [[_ ->]|[? _]]; done.
  - rewrite lookup_insert_ne by done. rewrite evict_old_lookup. split.
    + intros [Hl Hp]. right. repeat split; try done. intros Hs. by apply Hne, Hp.
    + intros [[? _]|(_ & Hs & Hl)]; [done|]. split; [done|]. intros; done.
Qed.

(** C8 as stated fails: peer B holds 10.0.0.5; inserting a route for
    peer A at 10.0.0.5 replaces B's entry, so an entry of another peer is
    changed. *)
Lemma updateRoute_replaces_other_peer :
  let rm' := (VpnRouteManager.updateRoute Examples.env Examples.id_high
                Examples.peer_A (Examples.ip4 10 0 0 5) "A"
                Examples.routes_B5).1 in
  VpnRouteManager.routingTable_ Examples.routes_B5 !! Examples.ip4 10 0 0 5
  = Some (Examples.entry_of Examples.peer_B (Examples.ip4 10 0 0 5))
  /\ Examples.peer_B <> Examples.peer_A
  /\ (forall ip e, VpnRouteManager.routingTable_ rm' !! ip = Some e ->
                   steamID e <> Examples.peer_B).
Proof.
  cbv zeta. split; [apply lookup_singleton_eq|]. split; [done|].
  intros ip e Hl. apply updateRoute_lookup in Hl as [[_ ->]|(Hne & _ & Hl)].
  - simpl. done.
  - unfold Examples.routes_B5, Examples.routes in Hl. simpl in Hl.
    rewrite lookup_singleton_ne in Hl; done.
Qed.

(** C8, as amended: after [updateRoute] the table holds exactly one entry
    of the peer, at the given address; every entry of another peer at
    another address is unchanged (an entry of another peer at that very
    address is replaced); and "at most one address per peer" is
    preserved. *)
Theorem updateRoute_one_ip_per_peer (env : SteamEnv) (nid : NodeID)
    (steamId : CSteamID) (ip : Z) (nm : string) (rm : VpnRouteManager.t) :
  let tbl := VpnRouteManager.routingTable_ rm in
  let tbl' := VpnRouteManager.routingTable_
                (VpnRouteManager.updateRoute env nid steamId ip nm rm).1 in
  (exists e, tbl' !! ip = Some e /\ steamID e = steamId /\ ipAddress e = ip)
  /\ (forall ip' e, tbl' !! ip' = Some e -> steamID e = steamId -> ip' = ip)
  /\ (forall ip' e, ip' <> ip -> steamID e <> steamId ->
        (tbl' !! ip' = Some e <-> tbl !! ip' = Some e))
  /\ (forall ip', ip' <> ip -> is_Some (tbl' !! ip') -> tbl' !! ip' = tbl !! ip')
  /\ (one_ip_per_peer tbl -> one_ip_per_peer tbl').
Proof.
  intros tbl tbl'. subst tbl tbl'. repeat split.
  - eexists. split; [apply updateRoute_lookup; left; done|done].
  - intros ip' e Hl Hs. apply updateRoute_lookup in Hl as [[? _]|(_ & ? & _)]; done.
  - intros Hl. apply updateRoute_lookup in Hl as [[? _]|(_ & _ & ?)]; done.
  - intros Hl. apply updateRoute_lookup. right. done.
  - intros ip' Hne [e Hl]. rewrite Hl.
    apply updateRoute_lookup in Hl as [[? _]|(_ & _ & ?)]; done.
  - intros Hone ip1 ip2 e1 e2 H1 H2 Hs.
    apply updateRoute_lookup in H1 as [[-> ->]|(Hn1 & Hs1 & H1)];
      apply updateRoute_lookup in H2 as [[-> ->]|(Hn2 & Hs2 & H2)].
    + done.
    + simpl in Hs. congruence.
    + simpl in Hs. congruence.
    + by eapply Hone.
Qed.

(** ** The inbound IP_PACKET path *)

Lemma length_slice (data : list byte) (off len : nat) :
  (off + len <= length data)%nat -> length (slice data off len) = len.
Proof.
  intros H. unfold slice. rewrite length_take, length_drop. lia.
Qed.

(** The IP_PACKET path by the value of [extractDestIP]: when that value
    is the local IP or a broadcast address the packet is written to the
    TUN device and nothing is sent; otherwise, when the table maps it to
    a non-local entry of a peer other than the sender, the same payload
    goes to exactly that peer, unreliably; in every other case nothing is
    written or sent.  The value is 0 for a packet that is too short or
    not IPv4. *)
Theorem ip_packet_delivery (env : SteamEnv) (now : Z) (data : list byte)
    (senderSteamID : CSteamID) (b : SteamVpnBridge.t) :
  ip_packet_frame data ->
  SteamVpnBridge.tunDevice_ b = true ->
  let payload := slice data 3 (Z.to_nat (be_value (slice data 1 2))) in
  let ipPacket := skipn 32 payload in
  let destIP := VpnUtils.extractDestIP ipPacket in
  let for_us :=
    destIP = SteamVpnBridge.localIP_ b
    \/ VpnUtils.isBroadcastAddress destIP (SteamVpnBridge.baseIP_ b)
                                   (SteamVpnBridge.subnetMask_ b) = true in
  let route := VpnRouteManager.getRoute destIP (SteamVpnBridge.routeManager_ b) in
  let effects :=
    (SteamVpnBridge.handleVpnMessage env now data senderSteamID b).2 in
  (for_us -> effects = [SteamVpnBridge.TunWrite ipPacket])
  /\ (~ for_us ->
      forall e, route = Some e -> isLocal e = false ->
                steamID e <> senderSteamID ->
      effects = [SteamVpnBridge.SendMessageToUser (steamID e) IP_PACKET
                                                  (PRaw payload) false])
  /\ (~ for_us ->
      route = None
      \/ (exists e, route = Some e
                    /\ (isLocal e = true \/ steamID e = senderSteamID)) ->
      effects = []).
Proof.
  intros (Hlen & Hty & Hpay & Hwrap) Htun payload ipPacket destIP for_us
         route effects.
  assert (Hplen : Z.of_nat (length payload) = be_value (slice data 1 2)).
  { subst payload. rewrite length_slice; lia. }
  assert (E : effects = (SteamVpnBridge.handleIpPacket payload senderSteamID b).2).
  { subst effects. unfold SteamVpnBridge.handleVpnMessage.
    unfold sizeof_VpnMessageHeader.
    destruct (Z.ltb_spec (Z.of_nat (length data)) 3); [lia|].
    destruct (Z.ltb_spec (Z.of_nat (length data))
                         (3 + be_value (slice data 1 2))); [lia|].
    rewrite Hty. reflexivity. }
  assert (E' : effects =
    if (destIP =? SteamVpnBridge.localIP_ b)
       || VpnUtils.isBroadcastAddress destIP (SteamVpnBridge.baseIP_ b)
                                      (SteamVpnBridge.subnetMask_ b)
    then [SteamVpnBridge.TunWrite ipPacket]
    else match route with
         | Some entry =>
             if negb (isLocal entry)
                && negb (bool_decide (steamID entry = senderSteamID))
             then [SteamVpnBridge.SendMessageToUser (steamID entry) IP_PACKET
                                                    (PRaw payload) false]
             else []
         | None => []
         end).
  { rewrite E. unfold SteamVpnBridge.handleIpPacket.
    rewrite Htun, Hplen. unfold sizeof_VpnPacketWrapper.
    destruct (Z.ltb_spec 32 (be_value (slice data 1 2))); [|lia]. cbn [andb].
    change (skipn (Z.to_nat 32) payload) with ipPacket. fold destIP. fold route.
    destruct ((destIP =? SteamVpnBridge.localIP_ b)
              || VpnUtils.isBroadcastAddress destIP (SteamVpnBridge.baseIP_ b)
                   (SteamVpnBridge.subnetMask_ b)); [done|].
    destruct route as [entry|]; [|done].
    destruct (negb (isLocal entry)
              && negb (bool_decide (steamID entry = senderSteamID))); done. }
  assert (Hfor : for_us <->
    (destIP =? SteamVpnBridge.localIP_ b)
    || VpnUtils.isBroadcastAddress destIP (SteamVpnBridge.baseIP_ b)
                                   (SteamVpnBridge.subnetMask_ b) = true).
  { unfold for_us. rewrite orb_true_iff, Z.eqb_eq. done. }
  split; [|split].
  - intros Hus. apply Hfor in Hus. by rewrite Hus in E'.
  - intros Hnot e Hroute Hloc Hpeer.
    rewrite Hfor in Hnot. apply not_true_is_false in Hnot.
    rewrite Hnot, Hroute, Hloc in E'.
    by rewrite bool_decide_eq_false_2 in E' by done.
  - intros Hnot Hroute.
    rewrite Hfor in Hnot. apply not_true_is_false in Hnot. rewrite Hnot in E'.
    destruct Hroute as [Hroute|(e & Hroute & [Hloc|Hpeer])];
      rewrite Hroute in E'; [done| |].
    + by rewrite Hloc in E'.
    + rewrite bool_decide_eq_true_2 in E' by done.
      by rewrite andb_false_r in E'.
Qed.

Lemma ip_packet_delivery_witness :
  (SteamVpnBridge.handleVpnMessage Examples.env 0
     (Examples.ip_packet_to 10 0 0 5) Examples.peer_A Examples.bridge_5).2
  = [SteamVpnBridge.TunWrite (Examples.ipv4_to 10 0 0 5)].
Proof.
  destruct (ip_packet_delivery Examples.env 0 (Examples.ip_packet_to 10 0 0 5)
              Examples.peer_A Examples.bridge_5) as [H _].
  - repeat split; vm_compute; congruence.
  - reflexivity.
  - apply H. left. reflexivity.
Defined.

(** C5 fails on the code.  [extractDestIP] answers 0 for a packet that is
    too short or not IPv4, and 0 is also the local IP of a bridge that has
    no address yet.  Such a bridge, handed an IP_PACKET frame whose packet
    is the single byte 255, takes the packet for its own: it writes the
    byte to the TUN device and counts one packet received, where the claim
    has nothing written.  A bridge that has an address drops the same
    frame. *)
Lemma junk_written_before_address :
  VpnUtils.extractDestIP (Examples.bytes [255]) = 0
  /\ SteamVpnBridge.localIP_ Examples.bridge_probing = 0
  /\ VpnUtils.isBroadcastAddress 0
       (SteamVpnBridge.baseIP_ Examples.bridge_probing)
       (SteamVpnBridge.subnetMask_ Examples.bridge_probing) = false
  /\ SteamVpnBridge.handleVpnMessage Examples.env 0
       Examples.junk_packet_frame Examples.peer_A Examples.bridge_probing
     = (SteamVpnBridge.count_received Examples.bridge_probing 1,
        [SteamVpnBridge.TunWrite (Examples.bytes [255])])
  /\ SteamVpnBridge.handleVpnMessage Examples.env 0
       Examples.junk_packet_frame Examples.peer_A Examples.bridge_5
     = (Examples.bridge_5, []).
Proof. repeat split; vm_compute; reflexivity. Qed.

(** ** UsedIPSet and the control frames *)

Lemma negotiator_calls_app (env : SteamEnv) (now : Z)
    (calls : list IpNegotiator.Call) (b : SteamVpnBridge.t)
    (effs : list SteamVpnBridge.Effect) :
  Forall (fun c => match c with IpNegotiator.Success _ _ => False | _ => True end)
         calls ->
  (fold_left (SteamVpnBridge.negotiator_call env now) calls (b, effs)).1 = b.
Proof.
  intros H. revert effs. induction H as [|c cs Hc _ IH]; intros effs; [done|].
  simpl. destruct c; try done; apply IH.
Qed.

Lemma handleAddressAnnounce_calls (now : Z) (announce : AddressAnnouncePayload)
    (peer : CSteamID) (n : IpNegotiator.t) :
  Forall (fun c => match c with IpNegotiator.Success _ _ => False | _ => True end)
         (IpNegotiator.handleAddressAnnounce now announce peer n).2.
Proof.
  unfold IpNegotiator.handleAddressAnnounce.
  destruct ((aa_ipAddress announce =? IpNegotiator.localIP_ n)
            && bool_decide (IpNegotiator.state_ n = IpNegotiator.STABLE));
    [|by constructor].
  destruct (negb (NodeIdentity.hasPriority (IpNegotiator.localNodeId_ n)
                                           (aa_nodeId announce))).
  - unfold IpNegotiator.startNegotiation, IpNegotiator.sendProbeRequest. simpl.
    destruct (IpNegotiator.broadcastCallback_ n); repeat constructor.
  - unfold IpNegotiator.sendForcedRelease. simpl.
    destruct (IpNegotiator.sendCallback_ n); repeat constructor.
Qed.

Lemma route_calls_broadcast (rm : VpnRouteManager.t) (b : SteamVpnBridge.t) :
  SteamVpnBridge.ipNegotiator_
    (SteamVpnBridge.route_calls (VpnRouteManager.broadcastRouteUpdate rm) b).1
  = SteamVpnBridge.ipNegotiator_ b.
Proof.
  unfold VpnRouteManager.broadcastRouteUpdate.
  destruct (VpnRouteManager.broadcastCallback_ rm); reflexivity.
Qed.

(** C3 as stated fails: the HEARTBEAT of an unknown node creates its
    NodeInfo without marking 10.0.0.7 used, and the PROBE_RESPONSE for the
    candidate 10.0.0.9 is recorded as a conflict without marking 10.0.0.9
    used. *)
Lemma heartbeat_and_response_do_not_mark :
  let b1 := (SteamVpnBridge.handleVpnMessage Examples.env 0
               Examples.heartbeat_frame Examples.peer_A Examples.bridge_5).1 in
  let b2 := (SteamVpnBridge.handleVpnMessage Examples.env 0
               Examples.probe_response_frame Examples.peer_A
               Examples.bridge_probing).1 in
  HeartbeatManager.nodeTable_ (SteamVpnBridge.heartbeatManager_ Examples.bridge_5)
    !! Examples.id_high = None
  /\ (ni_ipAddress <$> (HeartbeatManager.nodeTable_
                          (SteamVpnBridge.heartbeatManager_ b1)
                        !! Examples.id_high))
     = Some (Examples.ip4 10 0 0 7)
  /\ (Examples.ip4 10 0 0 7
        ∉ IpNegotiator.usedIPs_ (SteamVpnBridge.ipNegotiator_ b1))
  /\ length (IpNegotiator.collectedConflicts_
               (SteamVpnBridge.ipNegotiator_ b2)) = 1%nat
  /\ (Examples.ip4 10 0 0 9
        ∉ IpNegotiator.usedIPs_ (SteamVpnBridge.ipNegotiator_ b2)).
Proof.
  cbv zeta. split; [reflexivity|]. split; [vm_compute; reflexivity|].
  split; [|split].
  - apply (bool_decide_eq_false_1 _). vm_compute. reflexivity.
  - vm_compute. reflexivity.
  - apply (bool_decide_eq_false_1 _). vm_compute. reflexivity.
Qed.

(** C3, as amended: every ADDRESS_ANNOUNCE that the bridge processes
    leaves the announced IP in UsedIPSet (marked by the negotiator, or by
    the route-added callback when the announce collides with the local
    address); HEARTBEAT and PROBE_RESPONSE frames leave UsedIPSet as it
    was. *)
Theorem used_ip_marking (env : SteamEnv) (now : Z) (data : list byte)
    (senderSteamID : CSteamID) (b : SteamVpnBridge.t) :
  3 + be_value (slice data 1 2) <= Z.of_nat (length data) ->
  VpnRouteManager.onRouteAddedCallback_ (SteamVpnBridge.routeManager_ b) = true ->
  let type := u8 (nth 0 data x00) in
  let b' := (SteamVpnBridge.handleVpnMessage env now data senderSteamID b).1 in
  let used (s : SteamVpnBridge.t) :=
    IpNegotiator.usedIPs_ (SteamVpnBridge.ipNegotiator_ s) in
  (type = type_code ADDRESS_ANNOUNCE ->
   sizeof_AddressAnnouncePayload <= be_value (slice data 1 2) ->
   carried_ip data ∈ used b')
  /\ (type = type_code HEARTBEAT \/ type = type_code PROBE_RESPONSE ->
      used b' = used b).
Proof.
  intros Hlen Hcb type b' used.
  assert (Hhdr : forall k : SteamVpnBridge.t * list SteamVpnBridge.Effect,
    0 <= be_value (slice data 1 2) ->
    (if Z.of_nat (length data) <? sizeof_VpnMessageHeader then (b, [])
     else if Z.of_nat (length data)
             <? sizeof_VpnMessageHeader + be_value (slice data 1 2)
          then (b, []) else k) = k).
  { intros k Hnn. unfold sizeof_VpnMessageHeader.
    destruct (Z.ltb_spec (Z.of_nat (length data)) 3); [lia|].
    destruct (Z.ltb_spec (Z.of_nat (length data))
                         (3 + be_value (slice data 1 2))); [lia|done]. }
  split.
  - intros Hty Hsz. unfold sizeof_AddressAnnouncePayload in Hsz.
    subst b'. unfold SteamVpnBridge.handleVpnMessage.
    rewrite Hhdr by lia. fold type. rewrite Hty. cbn [type_code type_of_code Z.eqb].
    change (type_of_code 12) with (Some ADDRESS_ANNOUNCE). cbv iota beta.
    unfold SteamVpnBridge.handleAddressAnnounceMessage.
    rewrite length_slice by lia. rewrite Z2Nat.id by lia.
    unfold sizeof_AddressAnnouncePayload.
    destruct (Z.leb_spec 36 (be_value (slice data 1 2))); [|lia].
    fold (carried_ip data).
    set (announce := {| aa_ipAddress := carried_ip data;
                        aa_nodeId := _ |}).
    pose proof (handleAddressAnnounce_calls now announce senderSteamID
                  (SteamVpnBridge.ipNegotiator_ b)) as Hcalls.
    destruct (IpNegotiator.handleAddressAnnounce now announce senderSteamID
                (SteamVpnBridge.ipNegotiator_ b)) as [n ncalls] eqn:Hn.
    simpl in Hcalls.
    unfold SteamVpnBridge.negotiator_calls.
    pose proof (negotiator_calls_app env now ncalls
                  (SteamVpnBridge.set_negotiator b n) [] Hcalls) as Hb2.
    destruct (fold_left (SteamVpnBridge.negotiator_call env now) ncalls
                (SteamVpnBridge.set_negotiator b n, [])) as [b2 effs1].
    simpl in Hb2. subst b2.
    cbn [aa_ipAddress aa_nodeId announce].
    unfold VpnRouteManager.updateRoute.
    cbn [SteamVpnBridge.routeManager_ SteamVpnBridge.set_negotiator].
    rewrite Hcb. cbn [SteamVpnBridge.route_calls fold_left
                      SteamVpnBridge.route_call].
    match goal with
    | |- context [if ?c then SteamVpnBridge.route_calls ?l ?s else _] =>
        destruct c;
        [pose proof (route_calls_broadcast
                       (SteamVpnBridge.routeManager_ s) s) as Hbr;
         destruct (SteamVpnBridge.route_calls l s) as [b4 effs3]|]
    end.
    + simpl in Hbr. unfold used. simpl. rewrite Hbr. simpl. set_solver.
    + unfold used. simpl. set_solver.
  - intros Hty. subst b'. unfold SteamVpnBridge.handleVpnMessage.
    destruct (Z.of_nat (length data) <? sizeof_VpnMessageHeader); [done|].
    destruct (Z.of_nat (length data)
              <? sizeof_VpnMessageHeader + be_value (slice data 1 2)); [done|].
    fold type. destruct Hty as [-> | ->]; simpl.
    + destruct (sizeof_HeartbeatPayload <=? be_value (slice data 1 2)); done.
    + destruct (sizeof_ProbeResponsePayload <=? be_value (slice data 1 2));
        [|done].
      unfold used. simpl. unfold IpNegotiator.handleProbeResponse.
      repeat (case_match; try done).
Qed.

Lemma used_ip_marking_witness :
  carried_ip (Examples.announce_frame 10 0 0 9)
  ∈ IpNegotiator.usedIPs_
      (SteamVpnBridge.ipNegotiator_
         (SteamVpnBridge.handleVpnMessage Examples.env 0
            (Examples.announce_frame 10 0 0 9) Examples.peer_A
            Examples.bridge_5).1).
Proof.
  destruct (used_ip_marking Examples.env 0 (Examples.announce_frame 10 0 0 9)
              Examples.peer_A Examples.bridge_5) as [H _].
  - vm_compute. congruence.
  - reflexivity.
  - apply H; [reflexivity|]. vm_compute. congruence.
Defined.

(** ** ROUTE_UPDATE *)

(** The fuel of [records] never cuts the loop short: one record per
    complete 12 bytes of payload. *)
Lemma records_from_length (payload : list byte) (fuel offset : nat) :
  (length payload <= offset + fuel)%nat ->
  length (VpnRouteManager.records_from fuel payload offset)
  = ((length payload - offset) / 12)%nat.
Proof.
  revert offset. induction fuel as [|fuel IH]; intros offset Hf;
    cbn [VpnRouteManager.records_from].
  - replace (length payload - offset)%nat with 0%nat by lia. done.
  - destruct (Nat.leb_spec (offset + 12) (length payload)) as [Hle|Hgt].
    + cbn [length]. rewrite IH by lia.
      replace (length payload - offset)%nat
        with (1 * 12 + (length payload - (offset + 12)))%nat by lia.
      rewrite Nat.div_add_l by lia. lia.
    + cbn [length]. symmetry. apply Nat.div_small. lia.
Qed.

Lemma records_length (payload : list byte) :
  length (VpnRouteManager.records payload) = (length payload / 12)%nat.
Proof.
  unfold VpnRouteManager.records. rewrite records_from_length by lia.
  by rewrite Nat.sub_0_r.
Qed.

(** What one record of a ROUTE_UPDATE does to the table. *)
Lemma route_step_table (env : SteamEnv) (base mask : Z) (me : CSteamID)
    (rm : VpnRouteManager.t) (calls : list VpnRouteManager.Call)
    (r : CSteamID * Z) :
  let acc' := VpnRouteManager.route_step env base mask me (rm, calls) r in
  (r.1 <> me /\ VpnRouteManager.routingTable_ rm !! r.2 = None
   /\ in_subnet base mask r.2
   /\ acc'.1 = (VpnRouteManager.updateRoute env
                  (NodeIdentity.generate env r.1) r.1 r.2
                  (GetFriendPersonaName env r.1) rm).1)
  \/ ((r.1 = me \/ is_Some (VpnRouteManager.routingTable_ rm !! r.2)
       \/ ~ in_subnet base mask r.2)
      /\ acc' = (rm, calls)).
Proof.
  destruct r as [s ip]. simpl. unfold in_subnet.
  destruct (decide (s = me)) as [->|Hme].
  { right. rewrite bool_decide_eq_true_2 by done. split; [by left|done]. }
  rewrite bool_decide_eq_false_2 by done.
  destruct (VpnRouteManager.routingTable_ rm !! ip) as [e|] eqn:Hl.
  { right. rewrite bool_decide_eq_true_2 by done. split; [|done].
    right; left; done. }
  rewrite bool_decide_eq_false_2 by (intros [? ?]; done).
  destruct (Z.eqb_spec (Z.land ip mask) (Z.land base mask)).
  - left. done.
  - right. split; [|done]. right; right; done.
Qed.

(** Every entry of the table after a ROUTE_UPDATE was there before, or is
    a new in-subnet entry of a peer other than the local one. *)
Lemma handleRouteUpdate_entries (env : SteamEnv) (base mask : Z) (me : CSteamID)
    (rs : list (CSteamID * Z)) (acc : VpnRouteManager.t * list VpnRouteManager.Call)
    (ip : Z) (e : RouteEntry) :
  VpnRouteManager.routingTable_
    (fold_left (VpnRouteManager.route_step env base mask me) rs acc).1 !! ip
  = Some e ->
  VpnRouteManager.routingTable_ acc.1 !! ip = Some e
  \/ (ipAddress e = ip /\ in_subnet base mask ip /\ steamID e <> me).
Proof.
  revert acc. induction rs as [|r rs IH]; intros [rm calls] Hl; [by left|].
  simpl in Hl. apply IH in Hl as [Hl|Hnew]; [|by right].
  destruct (route_step_table env base mask me rm calls r)
    as [(Hme & _ & Hsub & Hacc)|[_ Hacc]].
  - rewrite Hacc in Hl.
    apply updateRoute_lookup in Hl as [[-> ->]|(_ & _ & Hl)]; [|by left].
    right. done.
  - rewrite Hacc in Hl. by left.
Qed.

(** C4 as stated fails: a ROUTE_UPDATE naming 10.0.0.0 puts an entry with
    host portion 0 in the table of a 10.0.0.0/24 bridge. *)
Lemma network_address_route_accepted :
  let b := Examples.bridge_probing in
  let b' := (SteamVpnBridge.handleVpnMessage Examples.env 0
               (Examples.route_update_frame
                  [(Examples.peer_A, Examples.ip4 10 0 0 0)])
               Examples.peer_B b).1 in
  (ipAddress <$> (VpnRouteManager.routingTable_ (SteamVpnBridge.routeManager_ b')
                  !! Examples.ip4 10 0 0 0))
  = Some (Examples.ip4 10 0 0 0)
  /\ Z.land (Examples.ip4 10 0 0 0) (not32 (SteamVpnBridge.subnetMask_ b)) = 0.
Proof. vm_compute. done. Qed.

(** The ADDRESS_ANNOUNCE path checks nothing: an announce of 192.168.1.1
    enters the table of a 10.0.0.0/24 bridge. *)
Lemma foreign_announce_accepted :
  let b := Examples.bridge_5 in
  let b' := (SteamVpnBridge.handleVpnMessage Examples.env 0
               (Examples.announce_frame 192 168 1 1) Examples.peer_A b).1 in
  (ipAddress <$> (VpnRouteManager.routingTable_ (SteamVpnBridge.routeManager_ b')
                  !! Examples.ip4 192 168 1 1))
  = Some (Examples.ip4 192 168 1 1)
  /\ Z.land (Examples.ip4 192 168 1 1) (SteamVpnBridge.subnetMask_ b)
     <> Z.land (SteamVpnBridge.baseIP_ b) (SteamVpnBridge.subnetMask_ b).
Proof. vm_compute. split; [done|discriminate]. Qed.

Lemma lor_host_in_subnet (k base h : Z) :
  2 <= k <= 32 -> 0 <= h < 2 ^ k ->
  Z.land (Z.lor (Z.land base (prefix_mask k)) h) (prefix_mask k)
  = Z.land base (prefix_mask k).
Proof.
  intros Hk Hh.
  rewrite Z.land_lor_distr_l, <- Z.land_assoc, Z.land_diag.
  replace (Z.land h (prefix_mask k)) with 0; [apply Z.lor_0_r|].
  rewrite <- (Z.mod_small h (2 ^ k)) at 1 by lia.
  rewrite <- Z.land_ones by lia. rewrite Z.ones_equiv.
  replace (Z.pred (2 ^ k)) with (2 ^ k - 1) by lia.
  rewrite <- Z.land_assoc, (Z.land_comm (2 ^ k - 1)), prefix_mask_low_bits by done.
  by rewrite Z.land_0_r.
Qed.

(** The candidate that [startNegotiation] picks in a prefix subnet lies
    in the subnet, with a host part among [1 .. 2^k - 2]. *)
Lemma startNegotiation_candidate_valid (now : Z) (n : IpNegotiator.t) (k : Z) :
  2 <= k <= 32 -> IpNegotiator.subnetMask_ n = prefix_mask k ->
  let candidate :=
    IpNegotiator.candidateIP_ (IpNegotiator.startNegotiation now n).1 in
  in_subnet (IpNegotiator.baseIP_ n) (IpNegotiator.subnetMask_ n) candidate
  /\ 1 <= Z.land candidate (not32 (IpNegotiator.subnetMask_ n)) <= 2 ^ k - 2.
Proof.
  intros Hk Hmask candidate. pose proof (pow2_bounds k Hk) as Hp.
  destruct (generate_host_part n (IpNegotiator.probeOffset_ n) k Hk Hmask)
    as [Hgen Hseed].
  change candidate with
    (IpNegotiator.findNextAvailableIP n
       (IpNegotiator.generateCandidateIP n (IpNegotiator.probeOffset_ n))).
  rewrite Hgen.
  destruct (findNextAvailableIP_scan n k _ Hk Hmask Hseed)
    as (j & _ & -> & _).
  match goal with
  | |- context [cyc ?M ?s j] =>
      pose proof (cyc_range M s j ltac:(lia)) as Hr
  end.
  unfold in_subnet. rewrite Hmask, not32_prefix_mask by done.
  rewrite lor_host_in_subnet, host_part_of_lor by (done || lia).
  split; [done|lia].
Qed.

(** C4, as amended: every entry that [handleRouteUpdate] adds to the
    table is keyed by its own address, lies in the configured subnet and
    belongs to a peer other than the local one, so a table whose entries
    are all in the subnet stays so; the host portion of a received
    address is not examined.  The address that a node picks for itself in
    a prefix subnet lies in the subnet with a host portion that is
    neither 0 nor all-ones. *)
Theorem route_update_keeps_subnet (env : SteamEnv) (payload : list byte)
    (base mask : Z) (me : CSteamID) (rm : VpnRouteManager.t) :
  let tbl := VpnRouteManager.routingTable_ rm in
  let tbl' := VpnRouteManager.routingTable_
                (VpnRouteManager.handleRouteUpdate env payload base mask me rm).1 in
  (forall ip e, tbl' !! ip = Some e ->
     tbl !! ip = Some e
     \/ (ipAddress e = ip /\ in_subnet base mask ip /\ steamID e <> me))
  /\ ((forall ip e, tbl !! ip = Some e -> in_subnet base mask (ipAddress e)) ->
      forall ip e, tbl' !! ip = Some e -> in_subnet base mask (ipAddress e))
  /\ (forall now n k,
        2 <= k <= 32 -> IpNegotiator.subnetMask_ n = prefix_mask k ->
        let candidate :=
          IpNegotiator.candidateIP_ (IpNegotiator.startNegotiation now n).1 in
        let host := Z.land candidate (not32 (IpNegotiator.subnetMask_ n)) in
        in_subnet (IpNegotiator.baseIP_ n) (IpNegotiator.subnetMask_ n) candidate
        /\ host <> 0 /\ host <> not32 (IpNegotiator.subnetMask_ n)).
Proof.
  intros tbl tbl'.
  assert (H : forall ip e, tbl' !! ip = Some e ->
     tbl !! ip = Some e
     \/ (ipAddress e = ip /\ in_subnet base mask ip /\ steamID e <> me)).
  { intros ip e Hl. subst tbl tbl'. unfold VpnRouteManager.handleRouteUpdate in Hl.
    by apply handleRouteUpdate_entries in Hl. }
  split; [exact H|]. split.
  - intros Hinv ip e Hl. apply H in Hl as [Hl|(-> & Hsub & _)]; [|done].
    by eapply Hinv.
  - intros now n k Hk Hmask candidate host.
    destruct (startNegotiation_candidate_valid now n k Hk Hmask) as [Hsub Hhost].
    fold candidate in Hsub, Hhost. fold host in Hhost.
    split; [done|]. rewrite Hmask, not32_prefix_mask by done. lia.
Qed.

Lemma evict_old_absent (s : CSteamID) (ip : Z) (tbl : gmap Z RouteEntry) :
  (forall ip' e, tbl !! ip' = Some e -> steamID e <> s) ->
  VpnRouteManager.evict_old s ip tbl = tbl.
Proof.
  intros H. apply map_eq. intros ip'.
  destruct (tbl !! ip') as [e|] eqn:Hl.
  - apply evict_old_lookup. split; [done|]. intros Hs. by apply H in Hl.
  - destruct (VpnRouteManager.evict_old s ip tbl !! ip') as [e|] eqn:Hl';
      [|done].
    apply evict_old_lookup in Hl' as [Hl' _]. congruence.
Qed.

Lemma fresh_weaken (base mask : Z) (me : CSteamID)
    (tbl tbl' : gmap Z RouteEntry) (r : CSteamID * Z) :
  tbl ⊆ tbl' -> fresh base mask me tbl' r -> fresh base mask me tbl r.
Proof.
  intros Hsub (Hme & Hin & Hnone). repeat split; try done.
  destruct (tbl !! r.2) as [e|] eqn:Hl; [|done].
  eapply lookup_weaken in Hl; [|exact Hsub]. congruence.
Qed.

(** Under [compatible] a ROUTE_UPDATE only adds entries, and afterwards
    every record that could be inserted finds its address present. *)
Lemma handleRouteUpdate_grows (env : SteamEnv) (base mask : Z) (me : CSteamID)
    (rs : list (CSteamID * Z)) :
  forall (rm : VpnRouteManager.t) (calls : list VpnRouteManager.Call),
    compatible base mask me (VpnRouteManager.routingTable_ rm) rs ->
    let tbl' := VpnRouteManager.routingTable_
                  (fold_left (VpnRouteManager.route_step env base mask me)
                             rs (rm, calls)).1 in
    VpnRouteManager.routingTable_ rm ⊆ tbl'
    /\ forall r, In r rs -> r.1 <> me -> in_subnet base mask r.2 ->
                 is_Some (tbl' !! r.2).
Proof.
  induction rs as [|r rs IH]; intros rm calls Hc; [simpl; split; [done|tauto]|].
  cbn [fold_left].
  destruct (route_step_table env base mask me rm calls r)
    as [(Hme & Hnone & Hsub & Hacc)|[Hskip Hacc]].
  - set (rm1 := (VpnRouteManager.updateRoute env
                    (NodeIdentity.generate env r.1) r.1 r.2
                    (GetFriendPersonaName env r.1) rm).1) in *.
    destruct (VpnRouteManager.route_step env base mask me (rm, calls) r)
      as [rm' calls']. cbn [fst] in Hacc. subst rm'.
    assert (Hfresh : fresh base mask me (VpnRouteManager.routingTable_ rm) r)
      by done.
    assert (Htbl : VpnRouteManager.routingTable_ rm1
                   = <[r.2 := {| steamID := r.1; ipAddress := r.2;
                                 name := GetFriendPersonaName env r.1;
                                 isLocal := bool_decide (r.1 = GetSteamID env);
                                 nodeId := NodeIdentity.generate env r.1 |}]>
                       (VpnRouteManager.routingTable_ rm)).
    { subst rm1. simpl. rewrite evict_old_absent; [done|].
      intros ip' e Hl. destruct Hc as [_ Hc2].
      apply (Hc2 r ip' e); [by left|done|done]. }
    assert (Hgrow : VpnRouteManager.routingTable_ rm
                    ⊆ VpnRouteManager.routingTable_ rm1).
    { rewrite Htbl. by apply insert_subseteq. }
    clearbody rm1.
    destruct (IH rm1 calls') as [Hsub' Hall].
    { destruct Hc as [Hc1 Hc2]. split.
      - intros r1 r2 H1 H2 Hf1 Hf2 Heq.
        apply (Hc1 r1 r2); try (by right); try done;
          eapply fresh_weaken; eauto.
      - intros r' ip' e H' Hf' Hl. rewrite Htbl in Hl.
        destruct (decide (ip' = r.2)) as [->|Hne].
        + rewrite lookup_insert_eq in Hl. injection Hl as <-. simpl.
          intros Heq.
          assert (r.2 = r'.2) as Hip.
          { apply (Hc1 r r'); [by left|by right|done| |done].
            eapply fresh_weaken; eauto. }
          destruct Hf' as (_ & _ & Hnone'). rewrite Htbl, <- Hip in Hnone'.
          by rewrite lookup_insert_eq in Hnone'.
        + rewrite lookup_insert_ne in Hl by done.
          apply (Hc2 r' ip' e); [by right| |done].
          eapply fresh_weaken; eauto. }
    split; [by etrans|].
    intros r' [<-|Hin] Hme' Hsub''; [|by apply Hall].
    eapply lookup_weaken_is_Some; [|exact Hsub'].
    rewrite Htbl, lookup_insert_eq. done.
  - rewrite Hacc.
    destruct (IH rm calls) as [Hsub' Hall].
    { destruct Hc as [Hc1 Hc2]. split.
      - intros r1 r2 H1 H2. apply Hc1; by right.
      - intros r' ip' e H'. apply Hc2. by right. }
    split; [done|].
    intros r' [<-|Hin] Hme' Hsub''; [|by apply Hall].
    destruct Hskip as [?|[Hsome|?]]; try done.
    eapply lookup_weaken_is_Some; eauto.
Qed.

(** When every record that could be inserted finds its address present,
    the ROUTE_UPDATE does nothing. *)
Lemma handleRouteUpdate_settled (env : SteamEnv) (base mask : Z) (me : CSteamID)
    (rs : list (CSteamID * Z)) (rm : VpnRouteManager.t)
    (calls : list VpnRouteManager.Call) :
  (forall r, In r rs -> r.1 <> me -> in_subnet base mask r.2 ->
             is_Some (VpnRouteManager.routingTable_ rm !! r.2)) ->
  fold_left (VpnRouteManager.route_step env base mask me) rs (rm, calls)
  = (rm, calls).
Proof.
  induction rs as [|r rs IH]; intros H; [done|]. cbn [fold_left].
  destruct (route_step_table env base mask me rm calls r)
    as [(Hme & Hnone & Hsub & _)|[_ Hacc]].
  - destruct (H r) as [e He]; [by left|done|done|congruence].
  - rewrite Hacc. apply IH. intros r' Hin. apply H. by right.
Qed.

(** A ROUTE_UPDATE only ever calls the route-added callback. *)
Lemma handleRouteUpdate_calls (env : SteamEnv) (base mask : Z) (me : CSteamID)
    (rs : list (CSteamID * Z)) :
  forall acc,
    Forall (fun c => exists ip, c = VpnRouteManager.RouteAdded ip) acc.2 ->
    Forall (fun c => exists ip, c = VpnRouteManager.RouteAdded ip)
           (fold_left (VpnRouteManager.route_step env base mask me) rs acc).2.
Proof.
  induction rs as [|r rs IH]; intros [rm calls] Hacc; [done|].
  cbn [fold_left]. apply IH.
  destruct (route_step_table env base mask me rm calls r)
    as [(Hme & Hnone & Hsub & _)|[_ ->]]; [|done].
  destruct r as [s ip]. simpl in *. unfold in_subnet in Hsub.
  rewrite bool_decide_eq_false_2 by done.
  rewrite Hnone, bool_decide_eq_false_2 by (intros [? ?]; done).
  rewrite (proj2 (Z.eqb_eq _ _) Hsub). simpl.
  apply Forall_app. split; [done|].
  destruct (VpnRouteManager.onRouteAddedCallback_ rm); repeat constructor.
  by eexists.
Qed.

Lemma route_calls_silent (calls : list VpnRouteManager.Call) :
  Forall (fun c => exists ip, c = VpnRouteManager.RouteAdded ip) calls ->
  forall b effs,
    (fold_left SteamVpnBridge.route_call calls (b, effs)).2 = effs.
Proof.
  induction 1 as [|c cs [ip ->] _ IH]; intros b effs; [done|].
  simpl. apply IH.
Qed.

(** C9 as stated fails: the table has A at 10.0.0.5 and the update says
    B at 10.0.0.5, A at 10.0.0.6.  The first application skips B (the
    address is taken) and moves A, which frees 10.0.0.5; the second
    application then inserts B there. *)
Lemma route_update_twice_differs :
  let apply_update :=
    VpnRouteManager.handleRouteUpdate Examples.env Examples.update_B5_A6
      (Examples.ip4 10 0 0 0) (Examples.ip4 255 255 255 0) Examples.me in
  let once := (apply_update Examples.routes_A5).1 in
  let twice := (apply_update once).1 in
  VpnRouteManager.routingTable_ once !! Examples.ip4 10 0 0 5 = None
  /\ (steamID <$> (VpnRouteManager.routingTable_ twice !! Examples.ip4 10 0 0 5))
     = Some Examples.peer_B
  /\ VpnRouteManager.routingTable_ twice <> VpnRouteManager.routingTable_ once.
Proof.
  intros apply_update once twice.
  assert (H1 : VpnRouteManager.routingTable_ once !! Examples.ip4 10 0 0 5 = None)
    by (vm_compute; reflexivity).
  assert (H2 : (steamID <$> (VpnRouteManager.routingTable_ twice
                             !! Examples.ip4 10 0 0 5))
               = Some Examples.peer_B)
    by (vm_compute; reflexivity).
  clearbody twice. clearbody once. clear apply_update.
  split; [exact H1|]. split; [exact H2|].
  intros Heq. rewrite Heq, H1 in H2. discriminate.
Qed.
(** What one record does, with the calls it makes. *)
Lemma route_step_cases (env : SteamEnv) (base mask : Z) (me : CSteamID)
    (rm : VpnRouteManager.t) (calls : list VpnRouteManager.Call)
    (r : CSteamID * Z) :
  let acc' := VpnRouteManager.route_step env base mask me (rm, calls) r in
  (fresh base mask me (VpnRouteManager.routingTable_ rm) r
   /\ acc' = ((VpnRouteManager.updateRoute env
                 (NodeIdentity.generate env r.1) r.1 r.2
                 (GetFriendPersonaName env r.1) rm).1,
              calls ++ (if VpnRouteManager.onRouteAddedCallback_ rm
                        then [VpnRouteManager.RouteAdded r.2] else [])))
  \/ (~ fresh base mask me (VpnRouteManager.routingTable_ rm) r
      /\ acc' = (rm, calls)).
Proof.
  destruct r as [s ip]. unfold fresh, in_subnet. simpl.
  destruct (decide (s = me)) as [->|Hme].
  { right. rewrite bool_decide_eq_true_2 by done. split; [|done].
    intros [? _]. done. }
  rewrite bool_decide_eq_false_2 by done.
  destruct (VpnRouteManager.routingTable_ rm !! ip) as [e|] eqn:Hl.
  { right. rewrite bool_decide_eq_true_2 by done. split; [|done].
    intros (_ & _ & ?). done. }
  rewrite bool_decide_eq_false_2 by (intros [? ?]; done).
  destruct (Z.eqb_spec (Z.land ip mask) (Z.land base mask)).
  - left. done.
  - right. split; [|done]. intros (_ & ? & _). done.
Qed.

(** The calls of a ROUTE_UPDATE only grow, and the route-added callback
    stays as it is. *)
Lemma handleRouteUpdate_calls_extend (env : SteamEnv) (base mask : Z)
    (me : CSteamID) (rs : list (CSteamID * Z)) :
  forall (rm : VpnRouteManager.t) (calls : list VpnRouteManager.Call),
    let r := fold_left (VpnRouteManager.route_step env base mask me) rs
                       (rm, calls) in
    (exists more, r.2 = calls ++ more)
    /\ VpnRouteManager.onRouteAddedCallback_ r.1
       = VpnRouteManager.onRouteAddedCallback_ rm.
Proof.
  induction rs as [|r0 rs IH]; intros rm calls; cbn [fold_left].
  - cbv zeta. split; [exists []; by rewrite app_nil_r|done].
  - destruct (route_step_cases env base mask me rm calls r0)
      as [[_ ->]|[_ ->]].
    + destruct (IH (VpnRouteManager.updateRoute env
                      (NodeIdentity.generate env r0.1) r0.1 r0.2
                      (GetFriendPersonaName env r0.1) rm).1
                   (calls ++ (if VpnRouteManager.onRouteAddedCallback_ rm
                              then [VpnRouteManager.RouteAdded r0.2] else [])))
        as [[more Hmore] Hcb].
      cbv zeta. split; [|by rewrite Hcb].
      eexists. rewrite Hmore, <- app_assoc. reflexivity.
    + apply IH.
Qed.

(** With the route-added callback installed, a ROUTE_UPDATE that makes no
    call found the address of every eligible record in the table. *)
Lemma handleRouteUpdate_noop (env : SteamEnv) (base mask : Z) (me : CSteamID)
    (rs : list (CSteamID * Z)) :
  forall (rm : VpnRouteManager.t) (calls : list VpnRouteManager.Call),
    VpnRouteManager.onRouteAddedCallback_ rm = true ->
    (fold_left (VpnRouteManager.route_step env base mask me) rs (rm, calls)).2
    = calls ->
    forall r, In r rs -> eligible base mask me r ->
              is_Some (VpnRouteManager.routingTable_ rm !! r.2).
Proof.
  induction rs as [|r0 rs IH]; intros rm calls Hcb Hcalls r Hin Hel;
    [destruct Hin|].
  cbn [fold_left] in Hcalls.
  destruct (route_step_cases env base mask me rm calls r0)
    as [[_ Hacc]|[Hnf Hacc]]; rewrite Hacc in Hcalls.
  - exfalso. rewrite Hcb in Hcalls.
    destruct (handleRouteUpdate_calls_extend env base mask me rs
                (VpnRouteManager.updateRoute env
                   (NodeIdentity.generate env r0.1) r0.1 r0.2
                   (GetFriendPersonaName env r0.1) rm).1
                (calls ++ [VpnRouteManager.RouteAdded r0.2]))
      as [[more Hmore] _].
    rewrite Hcalls in Hmore. apply (f_equal length) in Hmore.
    rewrite !length_app in Hmore. simpl in Hmore. lia.
  - destruct Hin as [<-|Hin]; [|by eapply IH].
    destruct Hel as [Hme Hsub].
    destruct (VpnRouteManager.routingTable_ rm !! r0.2) as [e|] eqn:Hl;
      [done|].
    exfalso. apply Hnf. done.
Qed.

(** Under [settles] no address that the update names is ever taken out
    of the table, so every eligible record ends with its address
    present. *)
Lemma handleRouteUpdate_keeps_named (env : SteamEnv) (base mask : Z)
    (me : CSteamID) (all : list (CSteamID * Z)) (tbl0 : gmap Z RouteEntry) :
  settles base mask me tbl0 all ->
  forall (rest : list (CSteamID * Z)) (rm : VpnRouteManager.t)
         (calls : list VpnRouteManager.Call),
    (forall r, In r rest -> In r all) ->
    (forall ip e, tbl0 !! ip = Some e -> named base mask me all ip ->
                  VpnRouteManager.routingTable_ rm !! ip = Some e) ->
    (forall ip e, VpnRouteManager.routingTable_ rm !! ip = Some e ->
       tbl0 !! ip = Some e
       \/ exists r, In r all /\ fresh base mask me tbl0 r /\ r.2 = ip
                    /\ steamID e = r.1) ->
    let tbl' := VpnRouteManager.routingTable_
                  (fold_left (VpnRouteManager.route_step env base mask me)
                             rest (rm, calls)).1 in
    (forall ip, named base mask me all ip ->
                is_Some (VpnRouteManager.routingTable_ rm !! ip) ->
                is_Some (tbl' !! ip))
    /\ (forall r, In r rest -> eligible base mask me r -> is_Some (tbl' !! r.2)).
Proof.
  intros [Hw1 Hw2].
  induction rest as [|r0 rest IH]; intros rm calls Hincl Hold Horigin;
    cbn [fold_left].
  { cbv zeta. split; [done|]. intros r []. }
  assert (Hr0 : In r0 all) by (apply Hincl; by left).
  assert (Hrest : forall r, In r rest -> In r all)
    by (intros r Hin; apply Hincl; by right).
  destruct (route_step_cases env base mask me rm calls r0)
    as [[Hfresh ->]|[Hnf ->]].
  - set (rm1 := (VpnRouteManager.updateRoute env
                   (NodeIdentity.generate env r0.1) r0.1 r0.2
                   (GetFriendPersonaName env r0.1) rm).1).
    destruct Hfresh as (Hme & Hsub & Hnone).
    assert (Hnamed0 : named base mask me all r0.2) by (by exists r0).
    assert (Hfresh0 : fresh base mask me tbl0 r0).
    { split; [done|]. split; [done|].
      destruct (tbl0 !! r0.2) as [e|] eqn:Hl; [|done].
      apply Hold in Hl; [|done]. congruence. }
    assert (Hkeep : forall ip e,
              VpnRouteManager.routingTable_ rm !! ip = Some e ->
              named base mask me all ip ->
              VpnRouteManager.routingTable_ rm1 !! ip = Some e).
    { intros ip e Hl Hn. apply updateRoute_lookup. right.
      split; [congruence|]. split; [|done]. intros Hs.
      destruct (Horigin ip e Hl) as [Hl0|(r1 & Hin1 & Hf1 & Hip1 & Hs1)].
      - by apply (Hw2 r0 ip e).
      - assert (r1.2 = r0.2) by (apply Hw1; try done; congruence).
        congruence. }
    destruct (IH rm1 (calls ++ (if VpnRouteManager.onRouteAddedCallback_ rm
                                then [VpnRouteManager.RouteAdded r0.2] else []))
                 Hrest) as [Hc1 Hc2].
    { intros ip e Hl Hn. apply Hkeep; [by apply Hold|done]. }
    { intros ip e Hl. apply updateRoute_lookup in Hl as [[-> ->]|(_ & _ & Hl)].
      - right. exists r0. done.
      - by apply Horigin. }
    cbv zeta. split.
    + intros ip Hn [e Hl]. apply Hc1; [done|]. exists e. by apply Hkeep.
    + intros r [<-|Hin] Hel; [|by apply Hc2].
      apply Hc1; [done|]. eexists. apply updateRoute_lookup. left. done.
  - destruct (IH rm calls Hrest Hold Horigin) as [Hc1 Hc2].
    cbv zeta. split; [done|].
    intros r [<-|Hin] Hel; [|by apply Hc2].
    apply Hc1; [by exists r0|].
    destruct Hel as [Hme Hsub].
    destruct (VpnRouteManager.routingTable_ rm !! r0.2) as [e|] eqn:Hl;
      [done|].
    exfalso. apply Hnf. done.
Qed.

Lemma compatible_settles (base mask : Z) (me : CSteamID)
    (tbl : gmap Z RouteEntry) (rs : list (CSteamID * Z)) :
  compatible base mask me tbl rs -> settles base mask me tbl rs.
Proof.
  intros [Hc1 Hc2]. split; [exact Hc1|].
  intros r ip e Hin Hf Hl Hs _. by apply (Hc2 r ip e).
Qed.

(** C9, as amended: applying the payload a second time changes nothing
    and inserts nothing as soon as the first application left the address
    of every record of another peer inside the subnet in the table, and,
    with the route-added callback installed, only then.  That is the case
    whenever the update does not undo itself ([settles]), so for updates
    that add peers and for updates that move peers; when in addition no
    peer with a record to insert has an entry yet, the first application
    keeps every entry already present.  In all cases a record whose
    address is present is skipped, an entry is never inserted for the
    local peer or outside the subnet, and the bridge sends nothing on
    receipt of a ROUTE_UPDATE. *)
Theorem route_update_idempotent (env : SteamEnv) (payload : list byte)
    (base mask : Z) (me : CSteamID) (rm : VpnRouteManager.t) :
  let rs := VpnRouteManager.records payload in
  let tbl := VpnRouteManager.routingTable_ rm in
  let once := VpnRouteManager.handleRouteUpdate env payload base mask me rm in
  let twice :=
    VpnRouteManager.handleRouteUpdate env payload base mask me once.1 in
  let settled :=
    forall r, In r rs -> eligible base mask me r ->
              is_Some (VpnRouteManager.routingTable_ once.1 !! r.2) in
  (settled -> twice = (once.1, []))
  /\ (VpnRouteManager.onRouteAddedCallback_ rm = true ->
      twice = (once.1, []) -> settled)
  /\ (settles base mask me tbl rs -> settled)
  /\ (compatible base mask me tbl rs ->
      settles base mask me tbl rs
      /\ tbl ⊆ VpnRouteManager.routingTable_ once.1)
  /\ (forall r calls, is_Some (tbl !! r.2) ->
        VpnRouteManager.route_step env base mask me (rm, calls) r = (rm, calls))
  /\ (forall ip e, VpnRouteManager.routingTable_ once.1 !! ip = Some e ->
        tbl !! ip = Some e \/ (in_subnet base mask ip /\ steamID e <> me))
  /\ (forall now data senderSteamID b,
        u8 (nth 0 data x00) = type_code ROUTE_UPDATE ->
        (SteamVpnBridge.handleVpnMessage env now data senderSteamID b).2 = []).
Proof.
  intros rs tbl once twice settled.
  repeat apply conj.
  - intros Hset. subst twice. unfold VpnRouteManager.handleRouteUpdate at 1.
    apply handleRouteUpdate_settled.
    intros r Hin Hme Hsub. by apply Hset.
  - intros Hcb Htwice r Hin Hel.
    assert (Hcb1 : VpnRouteManager.onRouteAddedCallback_ once.1 = true).
    { destruct (handleRouteUpdate_calls_extend env base mask me rs rm [])
        as [_ H]. rewrite <- Hcb. exact H. }
    apply (handleRouteUpdate_noop env base mask me rs once.1 [] Hcb1);
      [|done|done].
    change (twice.2 = []). by rewrite Htwice.
  - intros Hs r Hin Hel.
    destruct (handleRouteUpdate_keeps_named env base mask me rs tbl Hs rs rm [])
      as [_ H]; [done|done|by left|].
    by apply H.
  - intros Hc. split; [by apply compatible_settles|].
    by destruct (handleRouteUpdate_grows env base mask me rs rm [] Hc).
  - intros r calls Hsome.
    destruct (route_step_table env base mask me rm calls r)
      as [(_ & Hnone & _)|[_ Hacc]]; [|done].
    destruct Hsome as [e He]. fold tbl in Hnone. congruence.
  - intros ip e Hl. subst once. unfold VpnRouteManager.handleRouteUpdate in Hl.
    apply handleRouteUpdate_entries in Hl as [Hl|(_ & ? & ?)]; [by left|by right].
  - intros now data senderSteamID b Hty. clear twice once tbl settled.
    unfold SteamVpnBridge.handleVpnMessage.
    destruct (Z.of_nat (length data) <? sizeof_VpnMessageHeader); [done|].
    destruct (Z.of_nat (length data)
              <? sizeof_VpnMessageHeader + be_value (slice data 1 2)); [done|].
    rewrite Hty. simpl. unfold VpnRouteManager.handleRouteUpdate.
    set (rs' := VpnRouteManager.records _).
    pose proof (handleRouteUpdate_calls env (SteamVpnBridge.baseIP_ b)
                  (SteamVpnBridge.subnetMask_ b) (GetSteamID env) rs'
                  (SteamVpnBridge.routeManager_ b, []) (Forall_nil_2 _)) as Hcalls.
    destruct (fold_left _ rs' _) as [rm' calls]. simpl in Hcalls.
    by apply route_calls_silent.
Qed.

(** Peer A is at 10.0.0.5 and the update says A at 10.0.0.6: the first
    application moves A, the second changes nothing. *)
Lemma route_update_idempotent_witness :
  let apply_update :=
    VpnRouteManager.handleRouteUpdate Examples.env Examples.update_A6
      (Examples.ip4 10 0 0 0) (Examples.ip4 255 255 255 0) Examples.me in
  apply_update (apply_update Examples.routes_A5).1
  = ((apply_update Examples.routes_A5).1, [])
  /\ VpnRouteManager.getRoute (Examples.ip4 10 0 0 5)
       (apply_update Examples.routes_A5).1 = None.
Proof.
  destruct (route_update_idempotent Examples.env Examples.update_A6
              (Examples.ip4 10 0 0 0) (Examples.ip4 255 255 255 0) Examples.me
              Examples.routes_A5) as (Hsame & _ & Hsettled & _).
  split; [|by (vm_compute; reflexivity)].
  apply Hsame, Hsettled.
  change (VpnRouteManager.records Examples.update_A6)
    with [(Examples.peer_A, Examples.ip4 10 0 0 6)].
  split.
  - intros r1 r2 [<-|[]] [<-|[]] _ _ _. reflexivity.
  - intros r ip e [<-|[]] _ Hl _ (r' & [<-|[]] & _ & Hip).
    unfold Examples.routes_A5, Examples.routes in Hl.
    cbn [VpnRouteManager.routingTable_] in Hl.
    apply lookup_singleton_Some in Hl as [<- _]. simpl in Hip.
    vm_compute in Hip. discriminate.
Defined.

(** * Further properties of the code *)

(** ** Bytes and byte order *)

Lemma u8_byte_of_Z (z : Z) : u8 (byte_of_Z z) = z mod 256.
Proof.
  unfold u8, byte_of_Z.
  pose proof (Z.mod_pos_bound z 256 ltac:(lia)) as Hb.
  destruct (Byte.of_N (Z.to_N (z mod 256))) as [b|] eqn:E.
  - apply Byte.to_of_N in E. rewrite E. lia.
  - apply Byte.of_N_None_iff in E. lia.
Qed.

Lemma u8_range (b : byte) : 0 <= u8 b < 256.
Proof. unfold u8. pose proof (Byte.to_N_bounded b). lia. Qed.

Lemma u8_inj (a b : byte) : u8 a = u8 b -> a = b.
Proof.
  unfold u8. intros H. apply N2Z.inj in H.
  pose proof (Byte.of_to_N a) as Ha. rewrite H, Byte.of_to_N in Ha.
  congruence.
Qed.

Lemma be_value_be_bytes4 (z : Z) :
  0 <= z < 2 ^ 32 -> be_value (VpnRouteManager.be_bytes4 z) = z.
Proof.
  intros Hz. unfold be_value, VpnRouteManager.be_bytes4. simpl.
  rewrite !u8_byte_of_Z, !Z.shiftr_div_pow2 by lia.
  change (2 ^ 32) with 4294967296 in Hz.
  change (2 ^ 24) with 16777216. change (2 ^ 16) with 65536.
  change (2 ^ 8) with 256.
  Z.div_mod_to_equations. lia.
Qed.

Lemma be_value_be_bytes2 (z : Z) :
  0 <= z < 2 ^ 16 -> be_value (be_bytes2 z) = z.
Proof.
  intros Hz. unfold be_value, be_bytes2. simpl.
  rewrite !u8_byte_of_Z, !Z.shiftr_div_pow2 by lia.
  change (2 ^ 16) with 65536 in Hz. change (2 ^ 8) with 256.
  Z.div_mod_to_equations. lia.
Qed.

Lemma le_value_range (bs : list byte) :
  0 <= le_value bs < 256 ^ Z.of_nat (length bs).
Proof.
  induction bs as [|b bs IH]; [simpl; lia|].
  cbn [le_value fold_right length]. fold (le_value bs).
  rewrite Nat2Z.inj_succ, Z.pow_succ_r by lia.
  pose proof (u8_range b). lia.
Qed.

(** Reading back the [n] little-endian bytes of [z] gives [z] modulo
    [256^n]: the two's-complement image of a negative number. *)
Lemma le_value_le_bytes_from (n : nat) (z : Z) (i : nat) :
  le_value (map (fun j => byte_of_Z (Z.shiftr z (8 * Z.of_nat j))) (seq i n))
  = (z / 256 ^ Z.of_nat i) mod 256 ^ Z.of_nat n.
Proof.
  revert i. induction n as [|n IH]; intros i.
  - simpl. by rewrite Z.mod_1_r.
  - cbn [seq map le_value fold_right].
    fold (le_value (map (fun j => byte_of_Z (Z.shiftr z (8 * Z.of_nat j)))
                        (seq (S i) n))).
    rewrite IH, u8_byte_of_Z, Z.shiftr_div_pow2 by lia.
    replace (2 ^ (8 * Z.of_nat i)) with (256 ^ Z.of_nat i)
      by (change 256 with (2 ^ 8); rewrite <- Z.pow_mul_r by lia; done).
    rewrite (Nat2Z.inj_succ i), (Nat2Z.inj_succ n), !Z.pow_succ_r by lia.
    set (q := z / 256 ^ Z.of_nat i).
    assert (Hp : 0 < 256 ^ Z.of_nat i) by (apply Z.pow_pos_nonneg; lia).
    assert (Hn : 0 < 256 ^ Z.of_nat n) by (apply Z.pow_pos_nonneg; lia).
    replace (z / (256 * 256 ^ Z.of_nat i)) with (q / 256)
      by (subst q; rewrite Z.div_div by lia; f_equal; lia).
    rewrite Z.rem_mul_r by lia. lia.
Qed.

Lemma le_value_le_bytes (n : nat) (z : Z) :
  le_value (le_bytes n z) = z mod 256 ^ Z.of_nat n.
Proof.
  unfold le_bytes. rewrite le_value_le_bytes_from. simpl. by rewrite Z.div_1_r.
Qed.

Lemma length_le_bytes (n : nat) (z : Z) : length (le_bytes n z) = n.
Proof. unfold le_bytes. by rewrite length_map, length_seq. Qed.

Lemma slice_app_here (pre bs post : list byte) (off len : nat) :
  length pre = off -> length bs = len ->
  slice (pre ++ bs ++ post) off len = bs.
Proof.
  intros <- <-. unfold slice.
  rewrite drop_app_length. by rewrite take_app_length.
Qed.

(** ** Node identity *)

Lemma compare_from_values (n i : nat) (a b : NodeID) :
  NodeIdentity.compare_from n i a b = -1
  \/ NodeIdentity.compare_from n i a b = 0
  \/ NodeIdentity.compare_from n i a b = 1.
Proof.
  revert i. induction n as [|n IH]; intros i; simpl; [tauto|].
  repeat case_match; auto.
Qed.

Lemma compare_from_zero (n i : nat) (a b : NodeID) :
  NodeIdentity.compare_from n i a b = 0
  <-> forall j, (i <= j < i + n)%nat -> nth j a x00 = nth j b x00.
Proof.
  revert i. induction n as [|n IH]; intros i; simpl.
  - split; [intros _ j Hj; lia|done].
  - destruct (Z.ltb_spec (u8 (nth i a x00)) (u8 (nth i b x00))) as [Hlt|Hge].
    { split; [done|]. intros H. specialize (H i ltac:(lia)).
      rewrite H in Hlt. lia. }
    destruct (Z.ltb_spec (u8 (nth i b x00)) (u8 (nth i a x00))) as [Hlt'|Hge'].
    { split; [done|]. intros H. specialize (H i ltac:(lia)).
      rewrite H in Hlt'. lia. }
    rewrite IH. split.
    + intros H j Hj. destruct (decide (j = i)) as [->|].
      * apply u8_inj. lia.
      * apply H. lia.
    + intros H j Hj. apply H. lia.
Qed.

Lemma compare_from_trans (n i : nat) (a b c : NodeID) :
  0 <= NodeIdentity.compare_from n i a b ->
  0 <= NodeIdentity.compare_from n i b c ->
  0 <= NodeIdentity.compare_from n i a c
  /\ (0 < NodeIdentity.compare_from n i a b
      \/ 0 < NodeIdentity.compare_from n i b c ->
      0 < NodeIdentity.compare_from n i a c).
Proof.
  revert i. induction n as [|n IH]; intros i; simpl; [lia|].
  destruct (Z.ltb_spec (u8 (nth i a x00)) (u8 (nth i b x00)));
    destruct (Z.ltb_spec (u8 (nth i b x00)) (u8 (nth i a x00)));
    destruct (Z.ltb_spec (u8 (nth i b x00)) (u8 (nth i c x00)));
    destruct (Z.ltb_spec (u8 (nth i c x00)) (u8 (nth i b x00)));
    destruct (Z.ltb_spec (u8 (nth i a x00)) (u8 (nth i c x00)));
    destruct (Z.ltb_spec (u8 (nth i c x00)) (u8 (nth i a x00)));
    try lia; apply IH.
Qed.

Lemma compare_zero_iff (a b : NodeID) :
  length a = NODE_ID_SIZE -> length b = NODE_ID_SIZE ->
  NodeIdentity.compare a b = 0 <-> a = b.
Proof.
  intros Ha Hb. unfold NodeIdentity.compare. rewrite compare_from_zero. split.
  - intros H. apply nth_ext with (d := x00) (d' := x00); [congruence|].
    intros j Hj. apply H. lia.
  - intros -> j _. done.
Qed.

(** Of two different node IDs exactly one has priority over the other. *)
Lemma hasPriority_one_of_two (a b : NodeID) :
  length a = NODE_ID_SIZE -> length b = NODE_ID_SIZE -> a <> b ->
  NodeIdentity.hasPriority a b = negb (NodeIdentity.hasPriority b a).
Proof.
  intros Ha Hb Hne. unfold NodeIdentity.hasPriority, NodeIdentity.compare.
  pose proof (compare_from_antisym NODE_ID_SIZE 0 a b) as Hab.
  pose proof (compare_zero_iff a b Ha Hb) as Hz.
  unfold NodeIdentity.compare in Hz.
  destruct (Z.ltb_spec 0 (NodeIdentity.compare_from NODE_ID_SIZE 0 a b));
    destruct (Z.ltb_spec 0 (NodeIdentity.compare_from NODE_ID_SIZE 0 b a));
    simpl; try done; try lia.
  exfalso. apply Hne, Hz. lia.
Qed.

(** [compare] answers -1, 0 or 1, is antisymmetric, and answers 0
    exactly on equal node IDs. *)
Lemma compare_spec (a b : NodeID) :
  length a = NODE_ID_SIZE -> length b = NODE_ID_SIZE ->
  (NodeIdentity.compare a b = -1 \/ NodeIdentity.compare a b = 0
   \/ NodeIdentity.compare a b = 1)
  /\ NodeIdentity.compare a b = - NodeIdentity.compare b a
  /\ (NodeIdentity.compare a b = 0 <-> a = b).
Proof.
  intros Ha Hb. split; [apply compare_from_values|].
  split; [apply compare_from_antisym|]. by apply compare_zero_iff.
Qed.

Lemma compare_spec_witness :
  NodeIdentity.compare Examples.id_high Examples.id_local = 1
  /\ NodeIdentity.compare Examples.id_local Examples.id_high = -1.
Proof.
  destruct (compare_spec Examples.id_high Examples.id_local
              eq_refl eq_refl) as (_ & Hanti & _).
  split; [reflexivity|]. apply (f_equal Z.opp) in Hanti.
  rewrite Z.opp_involutive in Hanti. rewrite <- Hanti. reflexivity.
Defined.

(** X1: "Higher node ID wins" is a strict total order on node IDs: it is
    irreflexive, asymmetric and transitive, and of two different IDs one
    has priority over the other. *)
Theorem hasPriority_strict_total_order (a b c : NodeID) :
  length a = NODE_ID_SIZE -> length b = NODE_ID_SIZE ->
  NodeIdentity.hasPriority a a = false
  /\ (NodeIdentity.hasPriority a b = true ->
      NodeIdentity.hasPriority b a = false)
  /\ (NodeIdentity.hasPriority a b = true ->
      NodeIdentity.hasPriority b c = true ->
      NodeIdentity.hasPriority a c = true)
  /\ (a <> b ->
      NodeIdentity.hasPriority a b = true
      \/ NodeIdentity.hasPriority b a = true).
Proof.
  intros Ha Hb. unfold NodeIdentity.hasPriority, NodeIdentity.compare.
  pose proof (compare_from_antisym NODE_ID_SIZE 0 a b) as Hab.
  pose proof (compare_from_antisym NODE_ID_SIZE 0 a a) as Haa.
  repeat split.
  - apply Z.ltb_ge. lia.
  - rewrite Z.ltb_lt, Z.ltb_ge. lia.
  - rewrite !Z.ltb_lt. intros H1 H2.
    apply (compare_from_trans NODE_ID_SIZE 0 a b c); lia.
  - intros Hne. rewrite !Z.ltb_lt.
    destruct (compare_from_values NODE_ID_SIZE 0 a b) as [H|[H|H]]; try lia.
    exfalso. apply Hne. apply (compare_zero_iff a b Ha Hb). exact H.
Qed.

Lemma hasPriority_strict_total_order_witness :
  NodeIdentity.hasPriority Examples.id_high Examples.id_low = true.
Proof.
  destruct (hasPriority_strict_total_order Examples.id_high Examples.id_local
              Examples.id_low eq_refl eq_refl) as (_ & _ & Htrans & _).
  apply Htrans; reflexivity.
Defined.

Lemma isEmpty_from_true (n i : nat) (id : NodeID) :
  NodeIdentity.isEmpty_from n i id = true
  <-> forall j, (i <= j < i + n)%nat -> nth j id x00 = x00.
Proof.
  revert i. induction n as [|n IH]; intros i; simpl.
  - split; [intros _ j Hj; lia|done].
  - destruct (Z.eqb_spec (u8 (nth i id x00)) 0) as [Hz|Hnz]; simpl.
    + rewrite IH. split.
      * intros H j Hj. destruct (decide (j = i)) as [->|]; [|apply H; lia].
        by apply u8_inj.
      * intros H j Hj. apply H. lia.
    + split; [done|]. intros H. specialize (H i ltac:(lia)).
      rewrite H in Hnz. done.
Qed.

Lemma compare_from_zero_id (n i : nat) (other : NodeID) :
  NodeIdentity.compare_from n i (repeat x00 NODE_ID_SIZE) other <= 0.
Proof.
  assert (Hz : forall j, u8 (nth j (repeat x00 NODE_ID_SIZE) x00) = 0)
    by (intros j; by rewrite nth_repeat).
  generalize dependent (repeat x00 NODE_ID_SIZE). intros zero Hz.
  revert i. induction n as [|n IH]; intros i; simpl; [lia|].
  rewrite Hz. pose proof (u8_range (nth i other x00)).
  destruct (Z.ltb_spec 0 (u8 (nth i other x00))); [lia|].
  destruct (Z.ltb_spec (u8 (nth i other x00)) 0); [lia|]. apply IH.
Qed.

(** X2: [isEmpty] recognises exactly the all-zero ID.  That is the ID which
    [generate] falls back to when the hash fails, and it has priority
    over no other ID: a node whose hash failed never wins an
    arbitration. *)
Theorem empty_id_never_wins (env : SteamEnv) (steamId : CSteamID)
    (id other : NodeID) :
  length id = NODE_ID_SIZE ->
  (NodeIdentity.isEmpty id = true <-> id = repeat x00 NODE_ID_SIZE)
  /\ (sha256 env (le_bytes 8 steamId ++ NodeIdentity.salt_bytes) = None ->
      NodeIdentity.isEmpty (NodeIdentity.generate env steamId) = true
      /\ NodeIdentity.hasPriority (NodeIdentity.generate env steamId) other
         = false).
Proof.
  intros Hlen. split.
  - unfold NodeIdentity.isEmpty. rewrite isEmpty_from_true. split.
    + intros H. apply nth_ext with (d := x00) (d' := x00).
      * by rewrite repeat_length.
      * intros j Hj. rewrite nth_repeat. apply H. lia.
    + intros -> j _. apply nth_repeat.
  - intros Hfail. unfold NodeIdentity.generate. rewrite Hfail. split.
    + apply isEmpty_from_true. intros j _. apply nth_repeat.
    + unfold NodeIdentity.hasPriority, NodeIdentity.compare.
      apply Z.ltb_ge. apply compare_from_zero_id.
Qed.

Lemma empty_id_never_wins_witness :
  NodeIdentity.isEmpty
    (NodeIdentity.generate Examples.env_hash_fails Examples.peer_A) = true
  /\ NodeIdentity.hasPriority
       (NodeIdentity.generate Examples.env_hash_fails Examples.peer_A)
       Examples.id_low = false.
Proof.
  destruct (empty_id_never_wins Examples.env_hash_fails Examples.peer_A
              (NodeIdentity.generate Examples.env_hash_fails Examples.peer_A)
              Examples.id_low eq_refl) as [_ H].
  apply H. reflexivity.
Defined.

(** ** Packet utilities *)

(** X3: the TUN MTU is always within [576, 1500]; between those bounds it is
    the transport's size minus the 35 bytes of encapsulation and a margin
    of 15, and outside them it is clamped. *)
Theorem calculateTunMtu_clamped (size : Z) :
  576 <= VpnUtils.calculateTunMtu size <= 1500
  /\ (626 <= size <= 1550 -> VpnUtils.calculateTunMtu size = size - 50)
  /\ (- 2 ^ 31 + 50 <= size <= 626 -> VpnUtils.calculateTunMtu size = 576)
  /\ (1550 <= size < 2 ^ 31 -> VpnUtils.calculateTunMtu size = 1500).
Proof.
  unfold VpnUtils.calculateTunMtu, VPN_MESSAGE_OVERHEAD.
  set (m := s32 (s32 (size - 35) - 15)).
  assert (Hsmall : - 2 ^ 31 + 50 <= size < 2 ^ 31 -> m = size - 50).
  { intros H. subst m. unfold s32.
    change (2 ^ 31) with 2147483648 in *. change (2 ^ 32) with 4294967296.
    rewrite (Z.mod_small (size - 35 + 2147483648)) by lia.
    rewrite Z.mod_small by lia. lia. }
  change (2 ^ 31) with 2147483648 in *.
  split; [|split; [|split]].
  - destruct (Z.ltb_spec m 576); [lia|]. destruct (Z.ltb_spec 1500 m); lia.
  - intros H. rewrite Hsmall by lia.
    destruct (Z.ltb_spec (size - 50) 576); [lia|].
    destruct (Z.ltb_spec 1500 (size - 50)); lia.
  - intros H. rewrite Hsmall by lia.
    destruct (Z.ltb_spec (size - 50) 576); [lia|].
    destruct (Z.ltb_spec 1500 (size - 50)); lia.
  - intros H. rewrite Hsmall by lia.
    destruct (Z.ltb_spec (size - 50) 576); [lia|].
    destruct (Z.ltb_spec 1500 (size - 50)); lia.
Qed.

Lemma be_value_range (bs : list byte) :
  0 <= be_value bs < 256 ^ Z.of_nat (length bs).
Proof.
  unfold be_value.
  assert (H : forall acc k, 0 <= acc < 256 ^ k -> 0 <= k ->
            0 <= fold_left (fun a b => a * 256 + u8 b) bs acc
            < 256 ^ (k + Z.of_nat (length bs))).
  { induction bs as [|b bs IH]; intros acc k Hacc Hk.
    - simpl. by rewrite Z.add_0_r.
    - cbn [fold_left length]. rewrite Nat2Z.inj_succ.
      replace (k + Z.succ (Z.of_nat (length bs)))
        with (Z.succ k + Z.of_nat (length bs)) by lia.
      apply IH; [|lia]. rewrite Z.pow_succ_r by lia.
      pose proof (u8_range b). lia. }
  apply (H 0 0); simpl; lia.
Qed.

(** X4: what the two extractors answer: 0 for a packet shorter than 20 bytes
    or whose version nibble is not 4, otherwise a 32-bit value; and on an
    IPv4 header that carries [src] at offset 12 and [dst] at offset 16 in
    network byte order they give back [src] and [dst]. *)
Theorem extract_addresses (header rest : list byte) (src dst : Z) :
  length header = 12%nat ->
  0 <= src < 2 ^ 32 -> 0 <= dst < 2 ^ 32 ->
  let packet :=
    header ++ VpnRouteManager.be_bytes4 src ++ VpnRouteManager.be_bytes4 dst
    ++ rest in
  let ipv4 := Z.land (Z.shiftr (u8 (nth 0 header x00)) 4) 15 = 4 in
  (ipv4 -> VpnUtils.extractSourceIP packet = src
           /\ VpnUtils.extractDestIP packet = dst)
  /\ (~ ipv4 -> VpnUtils.extractSourceIP packet = 0
               /\ VpnUtils.extractDestIP packet = 0)
  /\ (forall p, (length p < 20)%nat ->
        VpnUtils.extractSourceIP p = 0 /\ VpnUtils.extractDestIP p = 0)
  /\ (forall p, 0 <= VpnUtils.extractDestIP p < 2 ^ 32
                /\ 0 <= VpnUtils.extractSourceIP p < 2 ^ 32).
Proof.
  intros Hh Hsrc Hdst packet ipv4.
  assert (Hlen : (20 <= length packet)%nat).
  { subst packet. rewrite !length_app. simpl. lia. }
  assert (H0 : nth 0 packet x00 = nth 0 header x00).
  { subst packet. apply app_nth1. lia. }
  assert (Hs : slice packet 12 4 = VpnRouteManager.be_bytes4 src).
  { subst packet. by apply slice_app_here. }
  assert (Hd : slice packet 16 4 = VpnRouteManager.be_bytes4 dst).
  { subst packet. rewrite app_assoc.
    apply (slice_app_here (header ++ VpnRouteManager.be_bytes4 src));
      [rewrite length_app; simpl; lia|done]. }
  unfold VpnUtils.extractSourceIP, VpnUtils.extractDestIP.
  split; [|split; [|split]].
  - intros Hv. destruct (Z.ltb_spec (Z.of_nat (length packet)) 20); [lia|].
    rewrite H0. unfold ipv4 in Hv. rewrite Hv. simpl.
    by rewrite Hs, Hd, !be_value_be_bytes4.
  - intros Hv. destruct (Z.ltb_spec (Z.of_nat (length packet)) 20); [lia|].
    rewrite H0. unfold ipv4 in Hv.
    destruct (Z.eqb_spec (Z.land (Z.shiftr (u8 (nth 0 header x00)) 4) 15) 4);
      done.
  - intros p Hp. destruct (Z.ltb_spec (Z.of_nat (length p)) 20); [done|lia].
  - intros p.
    assert (Hr : forall off, 0 <= be_value (slice p off 4) < 2 ^ 32).
    { intros off. pose proof (be_value_range (slice p off 4)) as Hr.
      assert (Z.of_nat (length (slice p off 4)) <= 4)
        by (unfold slice; rewrite length_take; lia).
      assert (Hle : 256 ^ Z.of_nat (length (slice p off 4)) <= 256 ^ 4)
        by (apply Z.pow_le_mono_r; lia).
      change (256 ^ 4) with 4294967296 in Hle.
      change (2 ^ 32) with 4294967296. lia. }
    change (2 ^ 32) with 4294967296 in *.
    split; repeat case_match; try apply Hr; lia.
Qed.

Lemma extract_addresses_witness :
  VpnUtils.extractDestIP (Examples.ipv4_to 10 0 0 7) = Examples.ip4 10 0 0 7.
Proof.
  destruct (extract_addresses
              (Examples.bytes [69; 0; 0; 20; 0; 0; 0; 0; 64; 1; 0; 0]) []
              (Examples.ip4 10 0 0 2) (Examples.ip4 10 0 0 7)
              eq_refl ltac:(vm_compute; split; congruence)
              ltac:(vm_compute; split; congruence)) as [H _].
  apply H. reflexivity.
Defined.

Lemma first_octet (ip : Z) :
  0 <= ip < 2 ^ 32 -> Z.land (Z.shiftr ip 24) 255 = ip / 2 ^ 24.
Proof.
  intros H. rewrite Z.shiftr_div_pow2 by lia.
  change 255 with (Z.ones 8). rewrite Z.land_ones by lia.
  apply Z.mod_small. change (2 ^ 32) with 4294967296 in H.
  change (2 ^ 24) with 16777216. change (2 ^ 8) with 256.
  Z.div_mod_to_equations. lia.
Qed.

(** X5: an address is treated as broadcast exactly when it is
    255.255.255.255, the directed broadcast of the subnet, or lies in the
    multicast block 224.0.0.0 - 239.255.255.255. *)
Theorem isBroadcastAddress_iff (ip baseIP subnetMask : Z) :
  0 <= ip < 2 ^ 32 ->
  VpnUtils.isBroadcastAddress ip baseIP subnetMask = true
  <-> ip = 4294967295
      \/ ip = Z.lor (Z.land baseIP subnetMask) (not32 subnetMask)
      \/ 3758096384 <= ip <= 4026531839.
Proof.
  intros Hip. unfold VpnUtils.isBroadcastAddress.
  rewrite first_octet by done.
  destruct (Z.eqb_spec ip 4294967295); [tauto|].
  destruct (Z.eqb_spec ip (Z.lor (Z.land baseIP subnetMask) (not32 subnetMask)));
    [tauto|].
  change (2 ^ 32) with 4294967296 in Hip. change (2 ^ 24) with 16777216.
  destruct (Z.leb_spec 224 (ip / 16777216));
    destruct (Z.leb_spec (ip / 16777216) 239); simpl;
    split; try done; try (intros [?|[?|?]]; try done);
    try (intros _; right; right); Z.div_mod_to_equations; lia.
Qed.

Lemma isBroadcastAddress_iff_witness :
  VpnUtils.isBroadcastAddress (Examples.ip4 10 0 0 255) (Examples.ip4 10 0 0 0)
                              (Examples.ip4 255 255 255 0) = true.
Proof.
  apply (isBroadcastAddress_iff (Examples.ip4 10 0 0 255)
           (Examples.ip4 10 0 0 0) (Examples.ip4 255 255 255 0)).
  - vm_compute. split; congruence.
  - right. left. reflexivity.
Defined.

(** ** The negotiator *)

Lemma cyc_onto (M s h : Z) :
  0 < M -> 1 <= h <= M -> exists i, 0 <= i < M /\ cyc M s i = h.
Proof.
  intros HM Hh. exists ((h - s) mod M). split; [by apply Z.mod_pos_bound|].
  unfold cyc. rewrite Z.add_mod_idemp_r by lia.
  replace (s - 1 + (h - s)) with (h - 1) by ring. rewrite Z.mod_small; lia.
Qed.

(** X6: as long as one host address of the subnet is not in UsedIPSet, the
    candidate that [startNegotiation] probes is not in UsedIPSet. *)
Theorem startNegotiation_avoids_used (now : Z) (n : IpNegotiator.t) (k h : Z) :
  2 <= k <= 32 -> IpNegotiator.subnetMask_ n = prefix_mask k ->
  1 <= h <= 2 ^ k - 2 ->
  Z.lor (Z.land (IpNegotiator.baseIP_ n) (IpNegotiator.subnetMask_ n)) h
    ∉ IpNegotiator.usedIPs_ n ->
  IpNegotiator.candidateIP_ (IpNegotiator.startNegotiation now n).1
    ∉ IpNegotiator.usedIPs_ n.
Proof.
  intros Hk Hmask Hh Hfree. pose proof (pow2_bounds k Hk) as Hp.
  destruct (generate_host_part n (IpNegotiator.probeOffset_ n) k Hk Hmask)
    as [Hgen Hseed].
  change (IpNegotiator.candidateIP_ (IpNegotiator.startNegotiation now n).1)
    with (IpNegotiator.findNextAvailableIP n
            (IpNegotiator.generateCandidateIP n (IpNegotiator.probeOffset_ n))).
  rewrite Hgen.
  destruct (findNextAvailableIP_scan n k _ Hk Hmask Hseed)
    as (j & Hj & -> & Hbefore & Hnot).
  destruct (decide (j < 2 ^ k - 2)) as [Hlt|Hge]; [by apply Hnot|].
  exfalso. apply Hfree. rewrite Hmask.
  match type of Hbefore with
  | forall i, _ -> Z.lor _ (cyc ?M ?s i) ∈ _ =>
      destruct (cyc_onto M s h ltac:(lia) Hh) as (i & Hi & <-)
  end.
  apply Hbefore. lia.
Qed.

Lemma startNegotiation_avoids_used_witness :
  IpNegotiator.generateCandidateIP Examples.idle_seed_used 1
    ∈ IpNegotiator.usedIPs_ Examples.idle_seed_used
  /\ (IpNegotiator.candidateIP_
        (IpNegotiator.startNegotiation 0 Examples.idle_seed_used).1
      ∉ IpNegotiator.usedIPs_ Examples.idle_seed_used).
Proof.
  split.
  - apply (bool_decide_eq_true_1 _). vm_compute. reflexivity.
  - apply (startNegotiation_avoids_used 0 Examples.idle_seed_used 8 200).
    + lia.
    + reflexivity.
    + lia.
    + apply (bool_decide_eq_false_1 _). vm_compute. reflexivity.
Defined.

Lemma arbitrate_wins (now : Z) (localId : NodeID)
    (conflicts : list IpNegotiator.ConflictInfo) (acc : list CSteamID) :
  Forall (fun c => is_active now c = true ->
                   NodeIdentity.hasPriority localId (IpNegotiator.ci_nodeId c)
                   = true) conflicts ->
  IpNegotiator.arbitrate now localId conflicts acc
  = (true, acc ++ map IpNegotiator.ci_senderSteamID
                      (List.filter (is_active now) conflicts)).
Proof.
  intros H. revert acc. induction H as [|c cs Hc _ IH]; intros acc; simpl.
  - by rewrite app_nil_r.
  - unfold is_active in *.
    destruct (Z.leb_spec HEARTBEAT_EXPIRY_MS (IpNegotiator.heartbeatAge now c));
      destruct (Z.ltb_spec (IpNegotiator.heartbeatAge now c) HEARTBEAT_EXPIRY_MS);
      try lia; [apply IH|].
    rewrite Hc by done. rewrite IH. simpl. by rewrite <- app_assoc.
Qed.

Lemma arbitrate_loses (now : Z) (localId : NodeID)
    (conflicts : list IpNegotiator.ConflictInfo) (acc : list CSteamID) :
  Exists (fun c => is_active now c = true
                   /\ NodeIdentity.hasPriority localId
                        (IpNegotiator.ci_nodeId c) = false) conflicts ->
  (IpNegotiator.arbitrate now localId conflicts acc).1 = false.
Proof.
  intros H. revert acc. induction conflicts as [|c cs IH]; intros acc;
    [by apply Exists_nil in H|].
  simpl. unfold is_active in *.
  destruct (Z.leb_spec HEARTBEAT_EXPIRY_MS (IpNegotiator.heartbeatAge now c))
    as [Hst|Hact].
  - apply IH. apply Exists_cons in H as [[Ha _]|H]; [|done].
    apply Z.ltb_lt in Ha. lia.
  - destruct (NodeIdentity.hasPriority localId (IpNegotiator.ci_nodeId c))
      eqn:Hp; [|done].
    apply IH. apply Exists_cons in H as [[_ Hf]|H]; [congruence|done].
Qed.

(** X7: when the probe window has elapsed and every active responder has a
    lower node ID, [checkTimeout] claims the candidate: FORCED_RELEASE goes
    to the active responders, in the order their responses came, then
    ADDRESS_ANNOUNCE is broadcast and the success callback runs. *)
Theorem timeout_claims_candidate (now : Z) (n : IpNegotiator.t) :
  IpNegotiator.state_ n = IpNegotiator.PROBING ->
  PROBE_TIMEOUT_MS <= to_ms (now - IpNegotiator.probeStartTime_ n) ->
  Forall (fun c => is_active now c = true ->
                   NodeIdentity.hasPriority (IpNegotiator.localNodeId_ n)
                                            (IpNegotiator.ci_nodeId c) = true)
         (IpNegotiator.collectedConflicts_ n) ->
  IpNegotiator.sendCallback_ n = true ->
  IpNegotiator.broadcastCallback_ n = true ->
  IpNegotiator.successCallback_ n = true ->
  let cand := IpNegotiator.candidateIP_ n in
  IpNegotiator.checkTimeout now n
  = (IpNegotiator.set_stable (IpNegotiator.set_conflicts n []) cand,
     map (fun c => forced_release n cand (IpNegotiator.ci_senderSteamID c))
         (List.filter (is_active now) (IpNegotiator.collectedConflicts_ n))
     ++ [address_announce n cand;
         IpNegotiator.Success cand (IpNegotiator.localNodeId_ n)]).
Proof.
  intros Hst Hel Hall Hs Hb Hsucc cand. unfold IpNegotiator.checkTimeout.
  rewrite Hst. rewrite bool_decide_eq_true_2 by done. cbn [negb].
  destruct (Z.ltb_spec (to_ms (now - IpNegotiator.probeStartTime_ n))
                       PROBE_TIMEOUT_MS); [lia|].
  change (IpNegotiator.localNodeId_ (IpNegotiator.set_conflicts n []))
    with (IpNegotiator.localNodeId_ n).
  rewrite arbitrate_wins by done. cbn [app].
  f_equal. f_equal.
  - unfold IpNegotiator.sendForcedRelease. simpl. rewrite Hs.
    induction (List.filter (is_active now) (IpNegotiator.collectedConflicts_ n))
      as [|c cs IH]; [done|]. simpl. by rewrite IH.
  - unfold IpNegotiator.sendAddressAnnounce. simpl. by rewrite Hb, Hsucc.
Qed.

Lemma timeout_claims_candidate_witness :
  (IpNegotiator.checkTimeout Examples.at_200s Examples.probing_with_active).2
  = [forced_release Examples.probing_with_active (Examples.ip4 10 0 0 9)
                    Examples.peer_B;
     address_announce Examples.probing_with_active (Examples.ip4 10 0 0 9);
     IpNegotiator.Success (Examples.ip4 10 0 0 9) Examples.id_local].
Proof.
  rewrite (timeout_claims_candidate Examples.at_200s
             Examples.probing_with_active); try reflexivity.
  - vm_compute. discriminate.
  - repeat constructor.
Defined.

(** X8: when the probe window has elapsed and some active responder has a
    node ID that is not lower, [checkTimeout] gives the candidate up:
    nothing is claimed or announced, no FORCED_RELEASE is sent, and the
    negotiation restarts with the next offset. *)
Theorem timeout_abandons_candidate (now : Z) (n : IpNegotiator.t) :
  IpNegotiator.state_ n = IpNegotiator.PROBING ->
  PROBE_TIMEOUT_MS <= to_ms (now - IpNegotiator.probeStartTime_ n) ->
  Exists (fun c => is_active now c = true
                   /\ NodeIdentity.hasPriority (IpNegotiator.localNodeId_ n)
                        (IpNegotiator.ci_nodeId c) = false)
         (IpNegotiator.collectedConflicts_ n) ->
  let r := IpNegotiator.checkTimeout now n in
  r = renegotiate now (IpNegotiator.set_conflicts n [])
  /\ IpNegotiator.state_ r.1 = IpNegotiator.PROBING
  /\ IpNegotiator.probeOffset_ r.1 = u32 (IpNegotiator.probeOffset_ n + 1)
  /\ IpNegotiator.localIP_ r.1 = IpNegotiator.localIP_ n
  /\ IpNegotiator.collectedConflicts_ r.1 = []
  /\ IpNegotiator.probeStartTime_ r.1 = now
  /\ (forall c, In c r.2 ->
        c = probe_request n (IpNegotiator.candidateIP_ r.1)).
Proof.
  intros Hst Hel Hex r.
  assert (E : r = renegotiate now (IpNegotiator.set_conflicts n [])).
  { subst r. unfold IpNegotiator.checkTimeout.
    rewrite Hst. rewrite bool_decide_eq_true_2 by done. cbn [negb].
    destruct (Z.ltb_spec (to_ms (now - IpNegotiator.probeStartTime_ n))
                         PROBE_TIMEOUT_MS); [lia|].
    pose proof (arbitrate_loses now (IpNegotiator.localNodeId_ n)
                  (IpNegotiator.collectedConflicts_ n) [] Hex) as Hl.
    change (IpNegotiator.localNodeId_ (IpNegotiator.set_conflicts n []))
      with (IpNegotiator.localNodeId_ n).
    destruct (IpNegotiator.arbitrate now (IpNegotiator.localNodeId_ n)
                (IpNegotiator.collectedConflicts_ n) []) as [can rel].
    simpl in Hl. subst can. reflexivity. }
  split; [exact E|]. rewrite E. repeat split.
  intros c Hin. unfold renegotiate, IpNegotiator.startNegotiation in Hin.
  cbn [snd] in Hin. unfold IpNegotiator.sendProbeRequest in Hin.
  simpl in Hin. destruct (IpNegotiator.broadcastCallback_ n); [|done].
  destruct Hin as [<-|[]]. reflexivity.
Qed.

Lemma timeout_abandons_candidate_witness :
  IpNegotiator.probeOffset_
    (IpNegotiator.checkTimeout Examples.at_200s Examples.probing_with_higher).1
  = 1.
Proof.
  destruct (timeout_abandons_candidate Examples.at_200s
              Examples.probing_with_higher) as (_ & _ & H & _).
  - reflexivity.
  - vm_compute. discriminate.
  - constructor. split; reflexivity.
  - rewrite H. reflexivity.
Defined.

Lemma renegotiate_facts (now : Z) (n : IpNegotiator.t) :
  IpNegotiator.state_ (renegotiate now n).1 = IpNegotiator.PROBING
  /\ IpNegotiator.probeOffset_ (renegotiate now n).1
     = u32 (IpNegotiator.probeOffset_ n + 1)
  /\ IpNegotiator.localIP_ (renegotiate now n).1 = IpNegotiator.localIP_ n
  /\ IpNegotiator.usedIPs_ (renegotiate now n).1 = IpNegotiator.usedIPs_ n
  /\ forall ty p target reliable,
       ~ In (IpNegotiator.Send ty p target reliable) (renegotiate now n).2.
Proof. repeat split. apply startNegotiation_calls. Qed.

(** X9: FORCED_RELEASE: a release of an address that the negotiator neither
    holds nor probes is a no-op, and so is one whose winner has a lower
    node ID; otherwise the negotiator gives the address up and restarts
    with the next offset.  Who sent the message plays no role. *)
Theorem forced_release_handling (now : Z) (release : ForcedReleasePayload)
    (senderSteamID : CSteamID) (n : IpNegotiator.t) :
  let ip := fr_ipAddress release in
  let r := IpNegotiator.handleForcedRelease now release senderSteamID n in
  let cmp := NodeIdentity.compare (fr_winnerNodeId release)
                                  (IpNegotiator.localNodeId_ n) in
  (~ holds n ip -> ~ probes n ip -> r = (n, []))
  /\ (cmp < 0 -> r = (n, []))
  /\ (holds n ip \/ probes n ip -> 0 <= cmp ->
      r = renegotiate now (IpNegotiator.set_state n IpNegotiator.IDLE)
      /\ IpNegotiator.state_ r.1 = IpNegotiator.PROBING
      /\ IpNegotiator.probeOffset_ r.1 = u32 (IpNegotiator.probeOffset_ n + 1))
  /\ (forall other,
        IpNegotiator.handleForcedRelease now release other n = r).
Proof.
  intros ip r cmp.
  pose proof (hasPriority_false_iff (IpNegotiator.localNodeId_ n)
                (fr_winnerNodeId release)) as Hf.
  pose proof (hasPriority_true_iff (IpNegotiator.localNodeId_ n)
                (fr_winnerNodeId release)) as Ht.
  fold cmp in Hf, Ht.
  assert (Hh : (ip =? IpNegotiator.localIP_ n)
               && bool_decide (IpNegotiator.state_ n = IpNegotiator.STABLE)
               = true <-> holds n ip).
  { unfold holds. rewrite andb_true_iff, Z.eqb_eq, bool_decide_eq_true. done. }
  assert (Hp : (ip =? IpNegotiator.candidateIP_ n)
               && bool_decide (IpNegotiator.state_ n = IpNegotiator.PROBING)
               = true <-> probes n ip).
  { unfold probes. rewrite andb_true_iff, Z.eqb_eq, bool_decide_eq_true. done. }
  subst r. unfold IpNegotiator.handleForcedRelease. fold ip.
  destruct ((ip =? IpNegotiator.localIP_ n)
            && bool_decide (IpNegotiator.state_ n = IpNegotiator.STABLE));
    destruct ((ip =? IpNegotiator.candidateIP_ n)
              && bool_decide (IpNegotiator.state_ n = IpNegotiator.PROBING));
    destruct (NodeIdentity.hasPriority (IpNegotiator.localNodeId_ n)
                                       (fr_winnerNodeId release));
    cbn [negb];
    (split; [|split; [|split]]);
    try (intros; reflexivity);
    try (intros Hnh Hnp; exfalso;
         solve [apply Hnh, Hh; done | apply Hnp, Hp; done]);
    try (intros Hlt; exfalso; destruct Hf as [Hf _]; specialize (Hf eq_refl); lia);
    try (intros _ Hge; exfalso; destruct Ht as [Ht _]; specialize (Ht eq_refl); lia);
    try (intros _ _; repeat split; done);
    try (intros [H|H]; exfalso; [apply Hh in H|apply Hp in H]; done).
Qed.

(** X10: ADDRESS_ANNOUNCE: an announce of an address that the negotiator does
    not hold only marks the address used.  An announce of the address it
    holds marks nothing: from a lower node ID it is answered with a
    FORCED_RELEASE to the announcer and the negotiator stays as it is;
    from a node ID that is not lower it makes the negotiator give its
    address up. *)
Theorem address_announce_handling (now : Z) (announce : AddressAnnouncePayload)
    (peerSteamID : CSteamID) (n : IpNegotiator.t) :
  IpNegotiator.sendCallback_ n = true ->
  let ip := aa_ipAddress announce in
  let r := IpNegotiator.handleAddressAnnounce now announce peerSteamID n in
  let cmp := NodeIdentity.compare (aa_nodeId announce)
                                  (IpNegotiator.localNodeId_ n) in
  (~ holds n ip ->
   r = (IpNegotiator.markIPUsed ip n, [])
   /\ ip ∈ IpNegotiator.usedIPs_ r.1
   /\ IpNegotiator.state_ r.1 = IpNegotiator.state_ n)
  /\ (holds n ip -> cmp < 0 -> r = (n, [forced_release n ip peerSteamID]))
  /\ (holds n ip -> 0 <= cmp ->
      r = renegotiate now n
      /\ IpNegotiator.state_ r.1 = IpNegotiator.PROBING
      /\ IpNegotiator.usedIPs_ r.1 = IpNegotiator.usedIPs_ n).
Proof.
  intros Hs ip r cmp. subst r. unfold IpNegotiator.handleAddressAnnounce.
  fold ip. unfold holds.
  pose proof (hasPriority_false_iff (IpNegotiator.localNodeId_ n)
                (aa_nodeId announce)) as Hf.
  pose proof (hasPriority_true_iff (IpNegotiator.localNodeId_ n)
                (aa_nodeId announce)) as Ht.
  fold cmp in Hf, Ht.
  split; [|split].
  - intros Hno.
    assert (E : (ip =? IpNegotiator.localIP_ n)
                && bool_decide (IpNegotiator.state_ n = IpNegotiator.STABLE)
                = false).
    { apply andb_false_iff.
      destruct (Z.eqb_spec ip (IpNegotiator.localIP_ n)); [|by left].
      right. apply bool_decide_eq_false_2. intros ?. by apply Hno. }
    rewrite E. repeat split. simpl.
    apply elem_of_union. left. by apply elem_of_singleton.
  - intros [Hip Hst] Hlt. rewrite Hip, Z.eqb_refl.
    rewrite bool_decide_eq_true_2 by done. cbn [andb].
    apply Ht in Hlt. rewrite Hlt. cbn [negb].
    unfold IpNegotiator.sendForcedRelease. by rewrite Hs, <- Hip.
  - intros [Hip Hst] Hge. rewrite Hip, Z.eqb_refl.
    rewrite bool_decide_eq_true_2 by done. cbn [andb].
    apply Hf in Hge. rewrite Hge. cbn [negb]. repeat split.
Qed.

Lemma address_announce_handling_witness :
  IpNegotiator.handleAddressAnnounce 0
    {| aa_ipAddress := Examples.ip4 10 0 0 5; aa_nodeId := Examples.id_low |}
    Examples.peer_B Examples.stable_5
  = (Examples.stable_5,
     [forced_release Examples.stable_5 (Examples.ip4 10 0 0 5) Examples.peer_B]).
Proof.
  destruct (address_announce_handling 0
              {| aa_ipAddress := Examples.ip4 10 0 0 5;
                 aa_nodeId := Examples.id_low |}
              Examples.peer_B Examples.stable_5 eq_refl) as (_ & H & _).
  apply H; [split; reflexivity|reflexivity].
Defined.

Lemma handleProbeRequest_probing (now : Z) (request : ProbeRequestPayload)
    (senderSteamID : CSteamID) (n : IpNegotiator.t) :
  IpNegotiator.state_ n = IpNegotiator.PROBING ->
  prq_ipAddress request = IpNegotiator.candidateIP_ n ->
  IpNegotiator.sendCallback_ n = true ->
  IpNegotiator.handleProbeRequest now request senderSteamID n
  = if NodeIdentity.hasPriority (IpNegotiator.localNodeId_ n)
                                (prq_nodeId request)
    then (n, [probe_response now n (IpNegotiator.candidateIP_ n) senderSteamID])
    else renegotiate now n.
Proof.
  intros Hst Hip Hcb. unfold IpNegotiator.handleProbeRequest.
  rewrite Hst, Hip, Z.eqb_refl, Hcb.
  rewrite bool_decide_eq_false_2 by done.
  rewrite bool_decide_eq_true_2 by done. reflexivity.
Qed.

(** X11: two nodes with different node IDs probe the same address and each
    receives the other's PROBE_REQUEST: exactly one of them yields and
    restarts with its next offset, the other keeps its candidate and
    answers with a PROBE_RESPONSE. *)
Theorem simultaneous_probes_one_yields (now : Z) (a b : IpNegotiator.t)
    (peer_a peer_b : CSteamID) :
  IpNegotiator.state_ a = IpNegotiator.PROBING ->
  IpNegotiator.state_ b = IpNegotiator.PROBING ->
  IpNegotiator.candidateIP_ a = IpNegotiator.candidateIP_ b ->
  length (IpNegotiator.localNodeId_ a) = NODE_ID_SIZE ->
  length (IpNegotiator.localNodeId_ b) = NODE_ID_SIZE ->
  IpNegotiator.localNodeId_ a <> IpNegotiator.localNodeId_ b ->
  IpNegotiator.sendCallback_ a = true ->
  IpNegotiator.sendCallback_ b = true ->
  let ip := IpNegotiator.candidateIP_ a in
  let at_a :=
    IpNegotiator.handleProbeRequest now
      {| prq_ipAddress := ip; prq_nodeId := IpNegotiator.localNodeId_ b |}
      peer_b a in
  let at_b :=
    IpNegotiator.handleProbeRequest now
      {| prq_ipAddress := ip; prq_nodeId := IpNegotiator.localNodeId_ a |}
      peer_a b in
  (at_a = (a, [probe_response now a ip peer_b]) /\ at_b = renegotiate now b)
  \/ (at_a = renegotiate now a /\ at_b = (b, [probe_response now b ip peer_a])).
Proof.
  intros Ha Hb Hcand Hla Hlb Hne Hsa Hsb ip at_a at_b.
  subst at_a at_b.
  rewrite (handleProbeRequest_probing now _ peer_b a) by done.
  rewrite (handleProbeRequest_probing now _ peer_a b) by (done || by symmetry).
  cbn [prq_nodeId].
  rewrite (hasPriority_one_of_two (IpNegotiator.localNodeId_ a)
             (IpNegotiator.localNodeId_ b)) by done.
  fold ip. rewrite <- Hcand. fold ip.
  destruct (NodeIdentity.hasPriority (IpNegotiator.localNodeId_ b)
                                     (IpNegotiator.localNodeId_ a));
    cbn [negb]; [right|left]; done.
Qed.

Lemma simultaneous_probes_one_yields_witness :
  IpNegotiator.handleProbeRequest 0
    {| prq_ipAddress := Examples.ip4 10 0 0 9; prq_nodeId := Examples.id_high |}
    Examples.peer_A Examples.probing_9
  = renegotiate 0 Examples.probing_9.
Proof.
  destruct (simultaneous_probes_one_yields 0 Examples.probing_9
              Examples.other_probing_9 Examples.me Examples.peer_A
              eq_refl eq_refl eq_refl eq_refl eq_refl
              ltac:(discriminate) eq_refl eq_refl) as [[H _]|[H _]].
  - exfalso. apply (f_equal snd) in H. vm_compute in H. discriminate.
  - exact H.
Defined.

(** X12: a node that holds an address and hears it announced by a node with a
    lower ID answers with a FORCED_RELEASE, and that very message makes
    the announcer, whether it holds or still probes the address, give it
    up and restart with its next offset. *)
Theorem forced_release_evicts_announcer (now later : Z)
    (winner loser : IpNegotiator.t) (loser_peer winner_peer : CSteamID) (ip : Z) :
  holds winner ip ->
  holds loser ip \/ probes loser ip ->
  NodeIdentity.compare (IpNegotiator.localNodeId_ loser)
                       (IpNegotiator.localNodeId_ winner) < 0 ->
  IpNegotiator.sendCallback_ winner = true ->
  let announce := {| aa_ipAddress := ip;
                     aa_nodeId := IpNegotiator.localNodeId_ loser |} in
  let release := {| fr_ipAddress := ip;
                    fr_winnerNodeId := IpNegotiator.localNodeId_ winner |} in
  IpNegotiator.handleAddressAnnounce now announce loser_peer winner
  = (winner, [IpNegotiator.Send FORCED_RELEASE (PForcedRelease release)
                                loser_peer true])
  /\ IpNegotiator.handleForcedRelease later release winner_peer loser
     = renegotiate later (IpNegotiator.set_state loser IpNegotiator.IDLE)
  /\ IpNegotiator.state_
       (IpNegotiator.handleForcedRelease later release winner_peer loser).1
     = IpNegotiator.PROBING.
Proof.
  intros [Hwip Hwst] Hl Hcmp Hs announce release.
  pose proof (compare_from_antisym NODE_ID_SIZE 0
                (IpNegotiator.localNodeId_ loser)
                (IpNegotiator.localNodeId_ winner)) as Hanti.
  fold (NodeIdentity.compare (IpNegotiator.localNodeId_ loser)
                             (IpNegotiator.localNodeId_ winner)) in Hanti.
  fold (NodeIdentity.compare (IpNegotiator.localNodeId_ winner)
                             (IpNegotiator.localNodeId_ loser)) in Hanti.
  assert (Hw : NodeIdentity.hasPriority (IpNegotiator.localNodeId_ winner)
                 (IpNegotiator.localNodeId_ loser) = true)
    by (by apply hasPriority_true_iff).
  assert (Hlo : NodeIdentity.hasPriority (IpNegotiator.localNodeId_ loser)
                  (IpNegotiator.localNodeId_ winner) = false)
    by (apply hasPriority_false_iff; lia).
  split.
  - unfold IpNegotiator.handleAddressAnnounce. cbn [aa_ipAddress aa_nodeId announce].
    rewrite Hwip, Z.eqb_refl. rewrite bool_decide_eq_true_2 by done.
    cbn [andb]. rewrite Hw. cbn [negb].
    unfold IpNegotiator.sendForcedRelease. by rewrite Hs, <- Hwip.
  - assert (E : IpNegotiator.handleForcedRelease later release winner_peer loser
                = renegotiate later
                    (IpNegotiator.set_state loser IpNegotiator.IDLE)).
    { unfold IpNegotiator.handleForcedRelease.
      cbn [fr_ipAddress fr_winnerNodeId release]. rewrite Hlo. cbn [negb].
      destruct Hl as [[Hip Hst]|[Hip Hst]].
      - rewrite Hip, Z.eqb_refl. rewrite bool_decide_eq_true_2 by done.
        reflexivity.
      - rewrite Hst. rewrite bool_decide_eq_false_2 by done.
        rewrite andb_false_r. rewrite Hip, Z.eqb_refl.
        rewrite bool_decide_eq_true_2 by done. reflexivity. }
    split; [exact E|]. rewrite E. reflexivity.
Qed.

Lemma forced_release_evicts_announcer_witness :
  IpNegotiator.state_
    (IpNegotiator.handleForcedRelease 1
       {| fr_ipAddress := Examples.ip4 10 0 0 5;
          fr_winnerNodeId := Examples.id_high |}
       Examples.peer_A Examples.stable_5).1
  = IpNegotiator.PROBING.
Proof.
  apply (forced_release_evicts_announcer 0 1 Examples.other_stable_5
           Examples.stable_5 Examples.me Examples.peer_A
           (Examples.ip4 10 0 0 5)).
  - split; reflexivity.
  - left. split; reflexivity.
  - reflexivity.
  - reflexivity.
Defined.

(** X13: a PROBE_RESPONSE for the candidate from an active holder whose node
    ID is not lower defeats the probe: at the next timeout check after the
    probe window the candidate is abandoned, whatever else was
    collected. *)
Theorem active_holder_defeats_probe (now : Z) (response : ProbeResponsePayload)
    (senderSteamID : CSteamID) (n : IpNegotiator.t) :
  IpNegotiator.state_ n = IpNegotiator.PROBING ->
  prs_ipAddress response = IpNegotiator.candidateIP_ n ->
  s64 (to_ms now - prs_lastHeartbeatMs response) < HEARTBEAT_EXPIRY_MS ->
  0 <= NodeIdentity.compare (prs_nodeId response) (IpNegotiator.localNodeId_ n) ->
  PROBE_TIMEOUT_MS <= to_ms (now - IpNegotiator.probeStartTime_ n) ->
  let n' := IpNegotiator.handleProbeResponse response senderSteamID n in
  IpNegotiator.checkTimeout now n'
  = renegotiate now (IpNegotiator.set_conflicts n [])
  /\ IpNegotiator.state_ (IpNegotiator.checkTimeout now n').1
     = IpNegotiator.PROBING
  /\ IpNegotiator.probeOffset_ (IpNegotiator.checkTimeout now n').1
     = u32 (IpNegotiator.probeOffset_ n + 1).
Proof.
  intros Hst Hip Hact Hcmp Hel n'.
  assert (En : n' = IpNegotiator.set_conflicts n
                      (IpNegotiator.collectedConflicts_ n ++
                       [{| IpNegotiator.ci_nodeId := prs_nodeId response;
                           IpNegotiator.ci_lastHeartbeatMs :=
                             prs_lastHeartbeatMs response;
                           IpNegotiator.ci_senderSteamID := senderSteamID |}])).
  { subst n'. unfold IpNegotiator.handleProbeResponse.
    rewrite Hst, Hip, Z.eqb_refl. rewrite bool_decide_eq_true_2 by done.
    reflexivity. }
  assert (E : IpNegotiator.checkTimeout now n'
              = renegotiate now (IpNegotiator.set_conflicts n [])).
  { rewrite En. unfold IpNegotiator.checkTimeout.
    cbn [IpNegotiator.state_ IpNegotiator.set_conflicts IpNegotiator.set_probe
         IpNegotiator.probeStartTime_ IpNegotiator.collectedConflicts_
         IpNegotiator.localNodeId_].
    rewrite Hst. rewrite bool_decide_eq_true_2 by done. cbn [negb].
    destruct (Z.ltb_spec (to_ms (now - IpNegotiator.probeStartTime_ n))
                         PROBE_TIMEOUT_MS); [lia|].
    match goal with
    | |- context [IpNegotiator.arbitrate now ?id ?cs []] =>
        pose proof (arbitrate_loses now id cs []) as Hl;
        destruct (IpNegotiator.arbitrate now id cs []) as [can rel]
    end.
    simpl in Hl. rewrite Hl; [reflexivity|].
    apply Exists_app. right. constructor. split.
    - unfold is_active, IpNegotiator.heartbeatAge. simpl. by apply Z.ltb_lt.
    - simpl. by apply hasPriority_false_iff. }
  split; [exact E|]. rewrite E. split; reflexivity.
Qed.

Lemma active_holder_defeats_probe_witness :
  IpNegotiator.probeOffset_
    (IpNegotiator.checkTimeout Examples.at_200s
       (IpNegotiator.handleProbeResponse
          {| prs_ipAddress := Examples.ip4 10 0 0 9;
             prs_nodeId := Examples.id_high;
             prs_lastHeartbeatMs := 199000 |}
          Examples.peer_A Examples.probing_9)).1
  = 1.
Proof.
  destruct (active_holder_defeats_probe Examples.at_200s
              {| prs_ipAddress := Examples.ip4 10 0 0 9;
                 prs_nodeId := Examples.id_high;
                 prs_lastHeartbeatMs := 199000 |}
              Examples.peer_A Examples.probing_9) as (_ & _ & H).
  - reflexivity.
  - reflexivity.
  - reflexivity.
  - vm_compute. discriminate.
  - vm_compute. discriminate.
  - exact H.
Defined.

(** X14: a node that hears nothing during its probe window gets its address:
    until the window has elapsed [checkTimeout] changes nothing, and
    afterwards the negotiator is Stable at the candidate it probed, which
    lies in the subnet with a host part that is neither 0 nor all-ones;
    the address is announced and the success callback runs. *)
Theorem lone_node_gets_address (start now : Z) (n : IpNegotiator.t) (k : Z) :
  2 <= k <= 32 -> IpNegotiator.subnetMask_ n = prefix_mask k ->
  IpNegotiator.broadcastCallback_ n = true ->
  IpNegotiator.successCallback_ n = true ->
  let probing := (IpNegotiator.startNegotiation start n).1 in
  let cand := IpNegotiator.candidateIP_ probing in
  let r := IpNegotiator.checkTimeout now probing in
  (to_ms (now - start) < PROBE_TIMEOUT_MS -> r = (probing, []))
  /\ (PROBE_TIMEOUT_MS <= to_ms (now - start) ->
      IpNegotiator.state_ r.1 = IpNegotiator.STABLE
      /\ IpNegotiator.localIP_ r.1 = cand
      /\ in_subnet (IpNegotiator.baseIP_ n) (IpNegotiator.subnetMask_ n) cand
      /\ 1 <= Z.land cand (not32 (IpNegotiator.subnetMask_ n)) <= 2 ^ k - 2
      /\ r.2 = [address_announce n cand;
                IpNegotiator.Success cand (IpNegotiator.localNodeId_ n)]).
Proof.
  intros Hk Hmask Hb Hsucc probing cand r.
  destruct (startNegotiation_candidate_valid start n k Hk Hmask) as [Hsub Hhost].
  fold probing in Hsub, Hhost. fold cand in Hsub, Hhost.
  subst r. unfold IpNegotiator.checkTimeout.
  change (IpNegotiator.state_ probing) with IpNegotiator.PROBING.
  change (IpNegotiator.probeStartTime_ probing) with start.
  change (IpNegotiator.collectedConflicts_ probing)
    with (@nil IpNegotiator.ConflictInfo).
  rewrite bool_decide_eq_true_2 by done. cbn [negb].
  destruct (Z.ltb_spec (to_ms (now - start)) PROBE_TIMEOUT_MS).
  - split; [done|]. lia.
  - split; [lia|]. intros _. cbn [IpNegotiator.arbitrate flat_map app].
    unfold IpNegotiator.sendAddressAnnounce.
    change (IpNegotiator.broadcastCallback_
              (IpNegotiator.set_stable (IpNegotiator.set_conflicts probing [])
                 (IpNegotiator.candidateIP_
                    (IpNegotiator.set_conflicts probing []))))
      with (IpNegotiator.broadcastCallback_ n).
    change (IpNegotiator.successCallback_
              (IpNegotiator.set_stable (IpNegotiator.set_conflicts probing [])
                 (IpNegotiator.candidateIP_
                    (IpNegotiator.set_conflicts probing []))))
      with (IpNegotiator.successCallback_ n).
    rewrite Hb, Hsucc. repeat split; try done; lia.
Qed.

Lemma lone_node_gets_address_witness :
  IpNegotiator.localIP_
    (IpNegotiator.checkTimeout (600 * ticks_per_ms)
       (IpNegotiator.startNegotiation 0 Examples.idle_offset_1).1).1
  = IpNegotiator.candidateIP_
      (IpNegotiator.startNegotiation 0 Examples.idle_offset_1).1.
Proof.
  destruct (lone_node_gets_address 0 (600 * ticks_per_ms)
              Examples.idle_offset_1 8) as [_ H].
  - lia.
  - reflexivity.
  - reflexivity.
  - reflexivity.
  - destruct H as (_ & H & _); [vm_compute; discriminate|exact H].
Defined.

(** ** The routing table and its wire form *)

Lemma be_value_be_bytes4_mod (z : Z) :
  be_value (VpnRouteManager.be_bytes4 z) = u32 z.
Proof.
  unfold be_value, VpnRouteManager.be_bytes4, u32. simpl.
  rewrite !u8_byte_of_Z, !Z.shiftr_div_pow2 by lia.
  change (2 ^ 32) with 4294967296.
  change (2 ^ 24) with 16777216. change (2 ^ 16) with 65536.
  change (2 ^ 8) with 256.
  Z.div_mod_to_equations. lia.
Qed.

Lemma elem_of_entries (tbl : gmap Z RouteEntry) (ip : Z) (e : RouteEntry) :
  In (ip, e) (VpnRouteManager.entries tbl) <-> tbl !! ip = Some e.
Proof.
  unfold VpnRouteManager.entries.
  rewrite <- list_elem_of_In, merge_sort_Permutation.
  apply elem_of_map_to_list.
Qed.

(** The parsing loop on a buffer made of whole records. *)
Lemma records_from_chunks (l : list (Z * RouteEntry)) :
  forall (pre : list byte) (fuel : nat),
    (length l <= fuel)%nat ->
    VpnRouteManager.records_from fuel
      (pre ++ flat_map (fun kv => le_bytes 8 (steamID kv.2)
                                  ++ VpnRouteManager.be_bytes4 (ipAddress kv.2)) l)
      (length pre)
    = map (fun kv => (u64 (steamID kv.2), u32 (ipAddress kv.2))) l.
Proof.
  induction l as [|kv l IH]; intros pre fuel Hf.
  - destruct fuel; [done|]. cbn [VpnRouteManager.records_from flat_map map].
    rewrite app_nil_r.
    destruct (Nat.leb_spec (length pre + 12) (length pre)); [lia|done].
  - destruct fuel as [|fuel]; [simpl in Hf; lia|].
    cbn [VpnRouteManager.records_from flat_map map].
    set (rest := flat_map _ l).
    assert (Hlen : (length pre + 12
                    <= length (pre ++ (le_bytes 8 (steamID kv.2)
                         ++ VpnRouteManager.be_bytes4 (ipAddress kv.2)) ++ rest))%nat).
    { rewrite !length_app, length_le_bytes. simpl. lia. }
    destruct (Nat.leb_spec (length pre + 12)
                (length (pre ++ (le_bytes 8 (steamID kv.2)
                   ++ VpnRouteManager.be_bytes4 (ipAddress kv.2)) ++ rest)));
      [|lia].
    f_equal.
    + unfold VpnRouteManager.record_at. f_equal.
      * rewrite <- app_assoc.
        rewrite (slice_app_here pre (le_bytes 8 (steamID kv.2)))
          by (done || apply length_le_bytes).
        rewrite le_value_le_bytes. reflexivity.
      * rewrite <- (app_assoc (le_bytes 8 (steamID kv.2))).
        rewrite (app_assoc pre (le_bytes 8 (steamID kv.2))).
        rewrite (slice_app_here (pre ++ le_bytes 8 (steamID kv.2))
                   (VpnRouteManager.be_bytes4 (ipAddress kv.2)))
          by (done || (rewrite length_app, length_le_bytes; done)).
        apply be_value_be_bytes4_mod.
    + rewrite (app_assoc pre).
      replace (length pre + 12)%nat
        with (length (pre ++ le_bytes 8 (steamID kv.2)
                      ++ VpnRouteManager.be_bytes4 (ipAddress kv.2)))
        by (rewrite !length_app, length_le_bytes; simpl; lia).
      apply IH. simpl in Hf. lia.
Qed.

Lemma length_routeData (rm : VpnRouteManager.t) :
  length (VpnRouteManager.routeData rm)
  = (12 * length (VpnRouteManager.entries (VpnRouteManager.routingTable_ rm)))%nat.
Proof.
  unfold VpnRouteManager.routeData.
  induction (VpnRouteManager.entries (VpnRouteManager.routingTable_ rm))
    as [|kv l IH]; [done|].
  cbn [flat_map]. rewrite !length_app, length_le_bytes, IH. simpl. lia.
Qed.

Lemma records_routeData (rm : VpnRouteManager.t) :
  VpnRouteManager.records (VpnRouteManager.routeData rm)
  = map (fun kv => (u64 (steamID kv.2), u32 (ipAddress kv.2)))
        (VpnRouteManager.entries (VpnRouteManager.routingTable_ rm)).
Proof.
  unfold VpnRouteManager.records. rewrite length_routeData.
  unfold VpnRouteManager.routeData.
  apply (records_from_chunks _ []). lia.
Qed.

(** X15: the payload that [broadcastRouteUpdate] and [sendRouteUpdateTo] build
    is read back by the loop of [handleRouteUpdate] as one record per
    table entry, in table order: the entry's Steam ID as a [uint64_t] and
    its address as a [uint32_t].  Names, node IDs and the local flag do
    not travel. *)
Theorem routeData_round_trip (rm : VpnRouteManager.t) :
  VpnRouteManager.records (VpnRouteManager.routeData rm)
  = map (fun kv => (u64 (steamID kv.2), u32 (ipAddress kv.2)))
        (VpnRouteManager.entries (VpnRouteManager.routingTable_ rm))
  /\ length (VpnRouteManager.routeData rm)
     = (12 * length (VpnRouteManager.records (VpnRouteManager.routeData rm)))%nat.
Proof.
  split.
  - apply records_routeData.
  - rewrite records_routeData, length_map. apply length_routeData.
Qed.

(** Every entry after a ROUTE_UPDATE was there before or is the learned
    entry of one of the records. *)
Lemma handleRouteUpdate_new_entries (env : SteamEnv) (base mask : Z)
    (me : CSteamID) (rs : list (CSteamID * Z))
    (acc : VpnRouteManager.t * list VpnRouteManager.Call)
    (ip : Z) (e : RouteEntry) :
  VpnRouteManager.routingTable_
    (fold_left (VpnRouteManager.route_step env base mask me) rs acc).1 !! ip
  = Some e ->
  VpnRouteManager.routingTable_ acc.1 !! ip = Some e
  \/ (exists r, In r rs /\ r.1 <> me /\ in_subnet base mask r.2
                /\ ip = r.2 /\ e = learned_entry env r.1 r.2).
Proof.
  revert acc. induction rs as [|r rs IH]; intros [rm calls] Hl; [by left|].
  simpl in Hl. apply IH in Hl as [Hl|(r' & Hin & Hnew)];
    [|right; exists r'; split; [by right|done]].
  destruct (route_step_table env base mask me rm calls r)
    as [(Hme & _ & Hsub & Hacc)|[_ Hacc]].
  - rewrite Hacc in Hl.
    apply updateRoute_lookup in Hl as [[-> ->]|(_ & _ & Hl)]; [|by left].
    right. exists r. split; [by left|done].
  - rewrite Hacc in Hl. by left.
Qed.

(** [handleRouteUpdate] with an empty table, on the encoded table of a
    sender. *)
Lemma handleRouteUpdate_sync (env : SteamEnv) (base mask : Z) (me : CSteamID)
    (sender receiver : VpnRouteManager.t) :
  keyed_by_address (VpnRouteManager.routingTable_ sender) ->
  one_ip_per_peer (VpnRouteManager.routingTable_ sender) ->
  (forall ip e, VpnRouteManager.routingTable_ sender !! ip = Some e ->
                0 <= ip < 2 ^ 32 /\ 0 <= steamID e < 2 ^ 64) ->
  VpnRouteManager.routingTable_ receiver = ∅ ->
  let after :=
    (VpnRouteManager.handleRouteUpdate env (VpnRouteManager.routeData sender)
                                       base mask me receiver).1 in
  forall ip e',
    VpnRouteManager.routingTable_ after !! ip = Some e'
    <-> exists e, VpnRouteManager.routingTable_ sender !! ip = Some e
                  /\ steamID e <> me /\ in_subnet base mask ip
                  /\ e' = learned_entry env (steamID e) ip.
Proof.
  intros Hkey Hone Hrange Hempty after.
  assert (Hrs : forall r,
            In r (VpnRouteManager.records (VpnRouteManager.routeData sender))
            <-> exists e, VpnRouteManager.routingTable_ sender !! r.2 = Some e
                          /\ r.1 = steamID e).
  { intros [s ip]. rewrite records_routeData, in_map_iff. simpl. split.
    - intros ([k e] & Heq & Hin). apply elem_of_entries in Hin.
      destruct (Hrange k e Hin) as [Hk Hs]. pose proof (Hkey k e Hin) as Hke.
      simpl in Heq, Hke. unfold u64, u32 in Heq.
      rewrite Hke in Heq. rewrite !Z.mod_small in Heq by lia.
      inversion Heq; subst. by exists e.
    - intros (e & Hl & ->). exists (ip, e). split; [|by apply elem_of_entries].
      destruct (Hrange ip e Hl) as [Hk Hs]. pose proof (Hkey ip e Hl) as Hke.
      simpl. unfold u64, u32. rewrite Hke. by rewrite !Z.mod_small by lia. }
  assert (Hfwd : forall ip e',
    VpnRouteManager.routingTable_ after !! ip = Some e' ->
    exists e, VpnRouteManager.routingTable_ sender !! ip = Some e
              /\ steamID e <> me /\ in_subnet base mask ip
              /\ e' = learned_entry env (steamID e) ip).
  { intros ip e' Hl. subst after. unfold VpnRouteManager.handleRouteUpdate in Hl.
    apply handleRouteUpdate_new_entries in Hl
      as [Hl|(r & Hin & Hme & Hsub & -> & ->)].
    - simpl in Hl. rewrite Hempty in Hl. done.
    - apply Hrs in Hin as (e & Hl & Hs). exists e. rewrite <- Hs. done. }
  intros ip e'. split; [apply Hfwd|].
  intros (e & Hl & Hme & Hsub & ->).
  destruct (handleRouteUpdate_grows env base mask me
              (VpnRouteManager.records (VpnRouteManager.routeData sender))
              receiver []) as [_ Hall].
  { split.
    - intros r1 r2 H1 H2 _ _ Heq.
      apply Hrs in H1 as (e1 & Hl1 & Hs1). apply Hrs in H2 as (e2 & Hl2 & Hs2).
      apply (Hone _ _ e1 e2 Hl1 Hl2). congruence.
    - intros r ip' e0 _ _ Hl0. rewrite Hempty in Hl0. done. }
  destruct (Hall (steamID e, ip)) as [e'' He''];
    [apply Hrs; by exists e|done|done|].
  simpl in He''. fold (VpnRouteManager.handleRouteUpdate env
    (VpnRouteManager.routeData sender) base mask me receiver) in He''.
  fold after in He''. rewrite He''.
  apply Hfwd in He'' as (e2 & Hl2 & _ & _ & ->). congruence.
Qed.

Lemma table_invariant_subseteq (tbl tbl' : gmap Z RouteEntry) :
  tbl' ⊆ tbl ->
  keyed_by_address tbl /\ one_ip_per_peer tbl ->
  keyed_by_address tbl' /\ one_ip_per_peer tbl'.
Proof.
  intros Hsub [Hk Ho]. split.
  - intros ip e Hl. apply (Hk ip e). by eapply lookup_weaken.
  - intros ip1 ip2 e1 e2 H1 H2. apply (Ho ip1 ip2 e1 e2); by eapply lookup_weaken.
Qed.

Lemma updateRoute_table_invariant (env : SteamEnv) (nid : NodeID)
    (steamId : CSteamID) (ip : Z) (nm : string) (rm : VpnRouteManager.t) :
  keyed_by_address (VpnRouteManager.routingTable_ rm)
  /\ one_ip_per_peer (VpnRouteManager.routingTable_ rm) ->
  keyed_by_address
    (VpnRouteManager.routingTable_
       (VpnRouteManager.updateRoute env nid steamId ip nm rm).1)
  /\ one_ip_per_peer
       (VpnRouteManager.routingTable_
          (VpnRouteManager.updateRoute env nid steamId ip nm rm).1).
Proof.
  intros [Hk Ho]. split.
  - intros ip' e Hl.
    apply updateRoute_lookup in Hl as [[-> ->]|(_ & _ & Hl)]; [done|].
    by apply Hk.
  - intros ip1 ip2 e1 e2 H1 H2 Hs.
    apply updateRoute_lookup in H1 as [[-> ->]|(Hn1 & Hs1 & H1)];
      apply updateRoute_lookup in H2 as [[-> ->]|(Hn2 & Hs2 & H2)].
    + done.
    + simpl in Hs. congruence.
    + simpl in Hs. congruence.
    + by eapply Ho.
Qed.

(** X16: two invariants of the routing table, kept by every operation that
    changes it ([updateRoute], [removeRoute], [removeRoutesForUser],
    [handleRouteUpdate], [clear]): each entry sits under its own address,
    and no peer has entries at two addresses. *)
Theorem routing_table_invariant (env : SteamEnv) (rm : VpnRouteManager.t) :
  let inv (r : VpnRouteManager.t) :=
    keyed_by_address (VpnRouteManager.routingTable_ r)
    /\ one_ip_per_peer (VpnRouteManager.routingTable_ r) in
  inv rm ->
  (forall nid steamId ip nm,
     inv (VpnRouteManager.updateRoute env nid steamId ip nm rm).1)
  /\ (forall ip, inv (VpnRouteManager.removeRoute ip rm))
  /\ (forall steamId, inv (VpnRouteManager.removeRoutesForUser steamId rm).1)
  /\ (forall payload base mask me,
        inv (VpnRouteManager.handleRouteUpdate env payload base mask me rm).1)
  /\ inv (VpnRouteManager.clear rm).
Proof.
  intros inv Hinv. subst inv. cbv beta in *. repeat apply conj.
  - intros. by apply updateRoute_table_invariant.
  - intros ip. eapply table_invariant_subseteq; [|exact Hinv].
    simpl. apply delete_subseteq.
  - intros s. eapply table_invariant_subseteq; [|exact Hinv].
    simpl. apply map_filter_subseteq.
  - intros payload base mask me. unfold VpnRouteManager.handleRouteUpdate.
    generalize (@nil VpnRouteManager.Call).
    revert rm Hinv. induction (VpnRouteManager.records payload) as [|r rs IH];
      intros rm Hinv calls; [apply Hinv|].
    cbn [fold_left].
    destruct (route_step_table env base mask me rm calls r)
      as [(_ & _ & _ & Hacc)|[_ Hacc]].
    + destruct (VpnRouteManager.route_step env base mask me (rm, calls) r)
        as [rm' calls']. cbn [fst] in Hacc. subst rm'.
      apply IH. by apply updateRoute_table_invariant.
    + rewrite Hacc. by apply IH.
  - intros ip e Hl. simpl in Hl. done.
  - intros ip1 ip2 e1 e2 Hl. simpl in Hl. done.
Qed.

Lemma routing_table_invariant_witness :
  one_ip_per_peer
    (VpnRouteManager.routingTable_
       (VpnRouteManager.handleRouteUpdate Examples.env Examples.update_B7
          (Examples.ip4 10 0 0 0) (Examples.ip4 255 255 255 0) Examples.me
          Examples.routes_A5).1).
Proof.
  destruct (routing_table_invariant Examples.env Examples.routes_A5)
    as (_ & _ & _ & H & _).
  - change (VpnRouteManager.routingTable_ Examples.routes_A5)
      with ({[ Examples.ip4 10 0 0 5
               := Examples.entry_of Examples.peer_A (Examples.ip4 10 0 0 5) ]}
            : gmap Z RouteEntry).
    split.
    + intros ip e Hl. apply lookup_singleton_Some in Hl as [<- <-]. reflexivity.
    + intros ip1 ip2 e1 e2 H1 H2 _.
      apply lookup_singleton_Some in H1 as [<- _].
      apply lookup_singleton_Some in H2 as [<- _]. reflexivity.
  - apply H.
Defined.

(** ** The heartbeat manager *)

Lemma handleHeartbeat_node (now : Z) (heartbeat : HeartbeatPayload)
    (peerSteamID : CSteamID) (peerName : string) (hm : HeartbeatManager.t) :
  exists info,
    HeartbeatManager.nodeTable_
      (HeartbeatManager.handleHeartbeat now heartbeat peerSteamID peerName hm)
    = <[hb_nodeId heartbeat := info]> (HeartbeatManager.nodeTable_ hm)
    /\ ni_lastHeartbeat info = now
    /\ match HeartbeatManager.nodeTable_ hm !! hb_nodeId heartbeat with
       | Some old =>
           ni_ipAddress info = ni_ipAddress old
           /\ ni_steamId info = ni_steamId old
           /\ ni_isLocal info = ni_isLocal old
           /\ HeartbeatManager.ipToNodeId_
                (HeartbeatManager.handleHeartbeat now heartbeat peerSteamID
                                                  peerName hm)
              = HeartbeatManager.ipToNodeId_ hm
       | None =>
           ni_ipAddress info = hb_ipAddress heartbeat
           /\ ni_steamId info = peerSteamID
           /\ ni_isLocal info = false
           /\ HeartbeatManager.ipToNodeId_
                (HeartbeatManager.handleHeartbeat now heartbeat peerSteamID
                                                  peerName hm)
              = <[hb_ipAddress heartbeat := hb_nodeId heartbeat]>
                  (HeartbeatManager.ipToNodeId_ hm)
       end.
Proof.
  unfold HeartbeatManager.handleHeartbeat.
  destruct (HeartbeatManager.nodeTable_ hm !! hb_nodeId heartbeat) as [old|];
    eexists; (split; [reflexivity|]); simpl; done.
Qed.

(** X17: a heartbeat renews the lease of its node: whether the node was known
    or not, a lease scan less than [LEASE_EXPIRY_MS] later keeps it, with
    the time of the heartbeat, and does not report it as expired. *)
Theorem heartbeat_renews_lease (now later : Z) (heartbeat : HeartbeatPayload)
    (peerSteamID : CSteamID) (peerName : string) (hm : HeartbeatManager.t) :
  to_ms (later - now) < LEASE_EXPIRY_MS ->
  let r := HeartbeatManager.checkExpiredLeases later
             (HeartbeatManager.handleHeartbeat now heartbeat peerSteamID
                                               peerName hm) in
  (exists info,
     HeartbeatManager.nodeTable_ r.1 !! hb_nodeId heartbeat = Some info
     /\ ni_lastHeartbeat info = now)
  /\ forall ip, ~ In (HeartbeatManager.Expired (hb_nodeId heartbeat) ip) r.2.
Proof.
  intros Hfresh r.
  destruct (handleHeartbeat_node now heartbeat peerSteamID peerName hm)
    as (info & Htbl & Hnow & _).
  assert (Hlive : HeartbeatManager.lease_lost later info = false).
  { destruct (HeartbeatManager.lease_lost later info) eqn:E; [|done].
    apply lease_lost_iff in E as [_ E]. rewrite Hnow in E. lia. }
  split.
  - exists info. split; [|done]. subst r. simpl.
    apply map_lookup_filter_Some. split; [|done].
    rewrite Htbl. apply lookup_insert_eq.
  - intros ip Hin. subst r. simpl in Hin.
    destruct (HeartbeatManager.expiredCallback_ _); [|destruct Hin].
    apply in_map_iff in Hin as ([id' ip'] & Heq & Hin). simpl in Heq.
    inversion Heq; subst.
    apply elem_of_expiredNodes in Hin as (info' & Hlook & Hlost & _).
    rewrite Htbl, lookup_insert_eq in Hlook. congruence.
Qed.

Lemma heartbeat_renews_lease_witness :
  exists info,
    HeartbeatManager.nodeTable_
      (HeartbeatManager.checkExpiredLeases Examples.at_400s
         (HeartbeatManager.handleHeartbeat Examples.at_200s
            {| hb_ipAddress := Examples.ip4 10 0 0 7;
               hb_nodeId := Examples.id_low; hb_timestampMs := 0 |}
            Examples.peer_B "peer" Examples.silent_nodes)).1 !! Examples.id_low
    = Some info
    /\ ni_lastHeartbeat info = Examples.at_200s.
Proof.
  apply (heartbeat_renews_lease Examples.at_200s Examples.at_400s
           {| hb_ipAddress := Examples.ip4 10 0 0 7;
              hb_nodeId := Examples.id_low; hb_timestampMs := 0 |}
           Examples.peer_B "peer" Examples.silent_nodes).
  reflexivity.
Defined.

Lemma lookup_fold_delete {A} (l : list (NodeID * Z)) (m : gmap Z A) (k : Z) :
  fold_left (fun m e => delete e.2 m) l m !! k
  = if bool_decide (k ∈ map snd l) then None else m !! k.
Proof.
  revert m. induction l as [|e l IH]; intros m.
  - cbn [fold_left map].
    rewrite bool_decide_eq_false_2; [done|]. apply not_elem_of_nil.
  - cbn [fold_left map]. rewrite IH.
    destruct (decide (e.2 = k)) as [<-|Hne].
    + rewrite lookup_delete_eq.
      rewrite (bool_decide_eq_true_2 (e.2 ∈ e.2 :: map snd l))
        by apply elem_of_cons, or_introl, eq_refl.
      by destruct (bool_decide _).
    + rewrite lookup_delete_ne by done.
      destruct (decide (k ∈ map snd l)) as [Hin|Hnin].
      * rewrite !bool_decide_eq_true_2; [done| |done].
        apply elem_of_cons. by right.
      * rewrite !bool_decide_eq_false_2; [done| |done].
        intros [?|?]%elem_of_cons; done.
Qed.

(** X18: the index by address stays sound, every indexed address leading to a
    node recorded at that address, under [handleHeartbeat],
    [unregisterNode] and [checkExpiredLeases], and under [registerNode]
    of a node that is not already recorded at another address. *)
Theorem node_index_sound (now : Z) (hm : HeartbeatManager.t) :
  index_sound hm ->
  (forall heartbeat peerSteamID peerName,
     index_sound (HeartbeatManager.handleHeartbeat now heartbeat peerSteamID
                                                   peerName hm))
  /\ (forall nid, index_sound (HeartbeatManager.unregisterNode nid hm))
  /\ index_sound (HeartbeatManager.checkExpiredLeases now hm).1
  /\ (forall nid steamId ip nm,
        (forall old, HeartbeatManager.nodeTable_ hm !! nid = Some old ->
                     ni_ipAddress old = ip) ->
        index_sound (HeartbeatManager.registerNode now nid steamId ip nm hm)).
Proof.
  intros Hs. repeat apply conj.
  - intros hb peer nm.
    destruct (handleHeartbeat_node now hb peer nm hm) as (info & Htbl & _ & Hcase).
    intros ip nid Hl. rewrite Htbl.
    destruct (HeartbeatManager.nodeTable_ hm !! hb_nodeId hb) as [old|] eqn:Hold.
    + destruct Hcase as (Hip & _ & _ & Hidx). rewrite Hidx in Hl.
      destruct (Hs ip nid Hl) as (info' & Hl' & Hip').
      destruct (decide (nid = hb_nodeId hb)) as [->|Hne].
      * exists info. rewrite lookup_insert_eq. split; [done|]. congruence.
      * exists info'. by rewrite lookup_insert_ne.
    + destruct Hcase as (Hip & _ & _ & Hidx). rewrite Hidx in Hl.
      destruct (decide (ip = hb_ipAddress hb)) as [->|Hne].
      * rewrite lookup_insert_eq in Hl. injection Hl as <-.
        exists info. by rewrite lookup_insert_eq.
      * rewrite lookup_insert_ne in Hl by done.
        destruct (Hs ip nid Hl) as (info' & Hl' & Hip').
        exists info'. rewrite lookup_insert_ne by congruence. done.
  - intros nid ip nid' Hl. unfold HeartbeatManager.unregisterNode in *.
    destruct (HeartbeatManager.nodeTable_ hm !! nid) as [info|] eqn:Hn;
      [|by apply Hs].
    simpl in *.
    destruct (decide (ip = ni_ipAddress info)) as [->|Hne];
      [by rewrite lookup_delete_eq in Hl|].
    rewrite lookup_delete_ne in Hl by done.
    destruct (Hs ip nid' Hl) as (info' & Hl' & Hip').
    exists info'. split; [|done].
    rewrite lookup_delete_ne; [done|]. congruence.
  - intros ip nid Hl. simpl in *. rewrite lookup_fold_delete in Hl.
    destruct (decide (ip ∈ map snd (HeartbeatManager.expiredNodes now hm)))
      as [Hin|Hnin];
      [by rewrite bool_decide_eq_true_2 in Hl|].
    rewrite bool_decide_eq_false_2 in Hl by done.
    destruct (Hs ip nid Hl) as (info & Hl' & Hip).
    exists info. split; [|done]. apply map_lookup_filter_Some. split; [done|].
    simpl. destruct (HeartbeatManager.lease_lost now info) eqn:E; [|done].
    exfalso. apply Hnin. apply list_elem_of_In, in_map_iff.
    exists (nid, ip). split; [done|].
    apply elem_of_expiredNodes. by exists info.
  - intros nid steamId ip nm Hold ip' nid' Hl. simpl in *.
    destruct (decide (ip' = ip)) as [->|Hne].
    + rewrite lookup_insert_eq in Hl. injection Hl as <-.
      eexists. rewrite lookup_insert_eq. done.
    + rewrite lookup_insert_ne in Hl by done.
      destruct (Hs ip' nid' Hl) as (info' & Hl' & Hip').
      exists info'. split; [|done]. rewrite lookup_insert_ne; [done|].
      intros <-. apply Hold in Hl'. congruence.
Qed.

Lemma node_index_sound_witness :
  index_sound
    (HeartbeatManager.checkExpiredLeases Examples.at_400s
       Examples.silent_nodes).1.
Proof.
  destruct (node_index_sound Examples.at_400s Examples.silent_nodes)
    as (_ & _ & H & _); [|exact H].
  intros ip nid Hl.
  change (HeartbeatManager.ipToNodeId_ Examples.silent_nodes)
    with ({[ Examples.ip4 10 0 0 5 := Examples.id_local;
             Examples.ip4 10 0 0 7 := Examples.id_low ]} : gmap Z NodeID) in Hl.
  apply lookup_insert_Some in Hl as [[<- <-]|[_ Hl]].
  - eexists. split; [by (vm_compute; reflexivity)|reflexivity].
  - apply lookup_singleton_Some in Hl as [<- <-].
    eexists. split; [by (vm_compute; reflexivity)|reflexivity].
Defined.

(** X19: registering a node that is new, at an address that is new, and
    unregistering it again leaves the heartbeat manager as it was; in
    between the address leads to the node. *)
Theorem register_unregister (now : Z) (nid : NodeID) (steamId : CSteamID)
    (ip : Z) (nm : string) (hm : HeartbeatManager.t) :
  HeartbeatManager.nodeTable_ hm !! nid = None ->
  HeartbeatManager.ipToNodeId_ hm !! ip = None ->
  let registered := HeartbeatManager.registerNode now nid steamId ip nm hm in
  HeartbeatManager.findNodeByIP ip registered = Some nid
  /\ HeartbeatManager.unregisterNode nid registered = hm
  /\ HeartbeatManager.findNodeByIP ip
       (HeartbeatManager.unregisterNode nid registered) = None.
Proof.
  intros Hn Hi registered.
  assert (E : HeartbeatManager.unregisterNode nid registered = hm).
  { subst registered.
    unfold HeartbeatManager.unregisterNode, HeartbeatManager.registerNode.
    cbn [HeartbeatManager.nodeTable_ HeartbeatManager.set_tables].
    rewrite lookup_insert_eq.
    unfold HeartbeatManager.set_tables. simpl.
    rewrite !delete_insert_eq, !delete_id by done.
    by destruct hm. }
  split; [apply lookup_insert_eq|]. split; [exact E|]. by rewrite E.
Qed.

Lemma register_unregister_witness :
  HeartbeatManager.unregisterNode Examples.id_high
    (HeartbeatManager.registerNode 0 Examples.id_high Examples.peer_A
       (Examples.ip4 10 0 0 9) "peer" Examples.silent_nodes)
  = Examples.silent_nodes.
Proof.
  apply (register_unregister 0 Examples.id_high Examples.peer_A
           (Examples.ip4 10 0 0 9) "peer" Examples.silent_nodes).
  - vm_compute. reflexivity.
  - vm_compute. reflexivity.
Defined.

(** X20: [detectConflict] never touches the node table and changes nothing
    when it answers false.  When it answers true, the address was indexed
    to a node other than the sender; of the two, the one that has no
    priority over the other is the loser, the Steam ID handed back is the
    loser's as the node table records it, and the index ends naming the
    winner at that address, other addresses unchanged. *)
Theorem detectConflict_spec (sourceIP : Z) (senderNodeId : NodeID)
    (hm : HeartbeatManager.t) :
  let r := HeartbeatManager.detectConflict sourceIP senderNodeId hm in
  HeartbeatManager.nodeTable_ r.2 = HeartbeatManager.nodeTable_ hm
  /\ (r.1 = None -> r.2 = hm)
  /\ (forall conflicting, r.1 = Some conflicting ->
      exists owner winner loser info,
        HeartbeatManager.ipToNodeId_ hm !! sourceIP = Some owner
        /\ owner <> senderNodeId
        /\ ((winner = owner /\ loser = senderNodeId)
            \/ (winner = senderNodeId /\ loser = owner))
        /\ NodeIdentity.hasPriority loser winner = false
        /\ HeartbeatManager.nodeTable_ hm !! loser = Some info
        /\ ni_steamId info = conflicting
        /\ HeartbeatManager.ipToNodeId_ r.2 !! sourceIP = Some winner
        /\ forall ip, ip <> sourceIP ->
             HeartbeatManager.ipToNodeId_ r.2 !! ip
             = HeartbeatManager.ipToNodeId_ hm !! ip).
Proof.
  intros r. subst r. unfold HeartbeatManager.detectConflict.
  destruct (HeartbeatManager.ipToNodeId_ hm !! sourceIP) as [owner|] eqn:Ho;
    [|simpl; split; [done|split; [done|discriminate]]].
  destruct (decide (owner = senderNodeId)) as [->|Hne].
  { rewrite bool_decide_eq_false_2 by (intros H; by apply H).
    simpl; split; [done|split; [done|discriminate]]. }
  rewrite bool_decide_eq_true_2 by done.
  destruct (NodeIdentity.hasPriority owner senderNodeId) eqn:Hp.
  - destruct (HeartbeatManager.nodeTable_ hm !! senderNodeId) as [info|] eqn:Hi;
      [|simpl; split; [done|split; [done|discriminate]]].
    simpl. split; [done|]. split; [discriminate|]. intros c [= <-].
    exists owner, owner, senderNodeId, info. repeat split; try done.
    + by left.
    + apply hasPriority_false_iff. apply hasPriority_true_iff in Hp.
      pose proof (compare_from_antisym NODE_ID_SIZE 0 owner senderNodeId) as Ha.
      unfold NodeIdentity.compare in *. lia.
  - destruct (HeartbeatManager.nodeTable_ hm !! owner) as [info|] eqn:Hi;
      [|simpl; split; [done|split; [done|discriminate]]].
    simpl. split; [done|]. split; [discriminate|]. intros c [= <-].
    exists owner, senderNodeId, owner, info. repeat split; try done.
    + by right.
    + apply lookup_insert_eq.
    + intros ip Hip. by rewrite lookup_insert_ne.
Qed.

(** What one turn of the loop does with the time of the last heartbeat
    and with the send callback. *)
Lemma heartbeatLoop_turn_cases (now : Z) (h : HeartbeatManager.t) :
  let due :=
    HEARTBEAT_INTERVAL_MS <= to_ms (now - HeartbeatManager.lastHeartbeatSent_ h)
    /\ HeartbeatManager.localIP_ h <> 0 in
  let r := HeartbeatManager.heartbeatLoop_turn now h in
  HeartbeatManager.localIP_ r.1 = HeartbeatManager.localIP_ h
  /\ HeartbeatManager.localNodeId_ r.1 = HeartbeatManager.localNodeId_ h
  /\ HeartbeatManager.sendCallback_ r.1 = HeartbeatManager.sendCallback_ h
  /\ (due -> HeartbeatManager.lastHeartbeatSent_ r.1 = now)
  /\ (~ due ->
      HeartbeatManager.lastHeartbeatSent_ r.1
      = HeartbeatManager.lastHeartbeatSent_ h
      /\ ~ sent_heartbeat r.2)
  /\ (sent_heartbeat r.2 ->
      due
      /\ In (HeartbeatManager.SendHeartbeat HEARTBEAT
               (PHeartbeat {| hb_ipAddress := HeartbeatManager.localIP_ h;
                              hb_nodeId := HeartbeatManager.localNodeId_ h;
                              hb_timestampMs := to_ms now |}) true) r.2)
  /\ (due -> HeartbeatManager.sendCallback_ h = true -> sent_heartbeat r.2).
Proof.
  intros due r. subst due r. unfold HeartbeatManager.heartbeatLoop_turn.
  assert (Hscan : forall h' : HeartbeatManager.t,
            ~ sent_heartbeat (HeartbeatManager.checkExpiredLeases now h').2).
  { intros h' (ty & p & rel & Hin). simpl in Hin.
    destruct (HeartbeatManager.expiredCallback_ h'); [|done].
    apply in_map_iff in Hin as (? & ? & _). done. }
  destruct (Z.leb_spec HEARTBEAT_INTERVAL_MS
              (to_ms (now - HeartbeatManager.lastHeartbeatSent_ h))) as [Hle|Hlt];
    destruct (Z.eqb_spec (HeartbeatManager.localIP_ h) 0) as [Hz|Hnz];
    cbn [andb negb].
  1,3,4: (pose proof (Hscan h) as Hno;
          destruct (HeartbeatManager.checkExpiredLeases now h) as [h2 calls] eqn:E;
          assert (Hh2 : h2 = (HeartbeatManager.checkExpiredLeases now h).1)
            by (by rewrite E);
          cbn [fst snd app] in *; subst h2;
          repeat apply conj; try done; try (intros [? ?]; done || lia);
          try (intros _; split; [done|exact Hno]);
          intros Hs; by destruct (Hno Hs)).
  pose proof (Hscan (HeartbeatManager.set_lastHeartbeatSent h now)) as Hno.
  destruct (HeartbeatManager.checkExpiredLeases now
              (HeartbeatManager.set_lastHeartbeatSent h now)) as [h2 calls] eqn:E.
  assert (Hh2 : h2 = (HeartbeatManager.checkExpiredLeases now
                        (HeartbeatManager.set_lastHeartbeatSent h now)).1)
    by (by rewrite E).
  cbn [fst snd] in *. subst h2.
  assert (Hsend : HeartbeatManager.sendCallback_ h = true ->
            HeartbeatManager.sendHeartbeat now h
            = [HeartbeatManager.SendHeartbeat HEARTBEAT
                 (PHeartbeat {| hb_ipAddress := HeartbeatManager.localIP_ h;
                                hb_nodeId := HeartbeatManager.localNodeId_ h;
                                hb_timestampMs := to_ms now |}) true]).
  { intros Hcb. unfold HeartbeatManager.sendHeartbeat. rewrite Hcb.
    destruct (Z.eqb_spec (HeartbeatManager.localIP_ h) 0); done. }
  repeat apply conj; try done.
  - intros Hnd. exfalso. apply Hnd. done.
  - intros (ty & p & rel & Hin). split; [done|].
    apply in_app_or in Hin as [Hin|Hin].
    + apply in_or_app. left.
      unfold HeartbeatManager.sendHeartbeat in *.
      destruct (HeartbeatManager.sendCallback_ h); [|destruct Hin].
      destruct (Z.eqb_spec (HeartbeatManager.localIP_ h) 0); [done|].
      by left.
    + exfalso. apply Hno. by exists ty, p, rel.
  - intros _ Hcb. rewrite (Hsend Hcb). eexists _, _, _. by left.
Qed.

(** The time of the last heartbeat after any number of turns is the one
    before them or the time of one of the turns. *)
Lemma run_turns_last (times : list Z) :
  forall h : HeartbeatManager.t,
    HeartbeatManager.lastHeartbeatSent_ (run_turns times h)
    = HeartbeatManager.lastHeartbeatSent_ h
    \/ In (HeartbeatManager.lastHeartbeatSent_ (run_turns times h)) times.
Proof.
  induction times as [|t times IH]; intros h; [by left|].
  cbn [run_turns fold_left].
  fold (run_turns times (HeartbeatManager.heartbeatLoop_turn t h).1).
  destruct (heartbeatLoop_turn_cases t h) as (_ & _ & _ & Hdue & Hidle & _).
  destruct (IH (HeartbeatManager.heartbeatLoop_turn t h).1) as [E|Hin];
    [|right; by right].
  rewrite E.
  destruct (Z.le_gt_cases HEARTBEAT_INTERVAL_MS
              (to_ms (t - HeartbeatManager.lastHeartbeatSent_ h))) as [Hle|Hgt];
    [destruct (decide (HeartbeatManager.localIP_ h = 0)) as [Hz|Hnz]|].
  - left. apply Hidle. intros [_ ?]. done.
  - right. left. symmetry. by apply Hdue.
  - left. apply Hidle. intros [? _]. lia.
Qed.

(** X21: heartbeats are at least [HEARTBEAT_INTERVAL_MS] apart.  When a
    turn of the loop hands a heartbeat to the send callback and a later
    turn does so again, however many turns are taken in between and
    whatever they do, that much time lies between the two, the clock never
    going backwards.  The heartbeat carries the local address, which is
    not 0, and the local node ID.  A turn taken before the interval is
    over, or without a local address, sends no heartbeat and leaves the
    time of the last heartbeat as it was; a turn taken after the interval
    with a local address and the send callback installed sends one. *)
Theorem heartbeat_pacing (now1 now2 : Z) (between : list Z)
    (hm : HeartbeatManager.t) :
  let first := HeartbeatManager.heartbeatLoop_turn now1 hm in
  let second :=
    HeartbeatManager.heartbeatLoop_turn now2 (run_turns between first.1) in
  now1 <= now2 -> Forall (fun t => now1 <= t <= now2) between ->
  sent_heartbeat first.2 -> sent_heartbeat second.2 ->
  HEARTBEAT_INTERVAL_MS <= to_ms (now2 - now1)
  /\ HeartbeatManager.localIP_ hm <> 0
  /\ (exists timestamp,
        In (HeartbeatManager.SendHeartbeat HEARTBEAT
              (PHeartbeat {| hb_ipAddress := HeartbeatManager.localIP_ hm;
                             hb_nodeId := HeartbeatManager.localNodeId_ hm;
                             hb_timestampMs := timestamp |}) true) first.2)
  /\ (forall now h,
        let due :=
          HEARTBEAT_INTERVAL_MS
          <= to_ms (now - HeartbeatManager.lastHeartbeatSent_ h)
          /\ HeartbeatManager.localIP_ h <> 0 in
        let r := HeartbeatManager.heartbeatLoop_turn now h in
        (~ due ->
         HeartbeatManager.lastHeartbeatSent_ r.1
         = HeartbeatManager.lastHeartbeatSent_ h
         /\ ~ sent_heartbeat r.2)
        /\ (due -> HeartbeatManager.sendCallback_ h = true ->
            sent_heartbeat r.2
            /\ HeartbeatManager.lastHeartbeatSent_ r.1 = now)).
Proof.
  intros first second Hmono Hbetween H1 H2.
  destruct (heartbeatLoop_turn_cases now1 hm)
    as (_ & _ & _ & Hdue1 & _ & Hsent1 & _).
  fold first in Hdue1, Hsent1.
  destruct (Hsent1 H1) as [[Hle1 Hip] Hin]. 
  assert (Hlast1 : HeartbeatManager.lastHeartbeatSent_ first.1 = now1)
    by (by apply Hdue1).
  destruct (heartbeatLoop_turn_cases now2 (run_turns between first.1))
    as (_ & _ & _ & _ & _ & Hsent2 & _).
  fold second in Hsent2. destruct (Hsent2 H2) as [[Hle2 _] _].
  assert (Hbound : now1
                   <= HeartbeatManager.lastHeartbeatSent_
                        (run_turns between first.1) <= now2).
  { destruct (run_turns_last between first.1) as [E|Hin'].
    - rewrite E, Hlast1. lia.
    - rewrite Forall_forall in Hbetween. apply Hbetween.
      by apply list_elem_of_In. }
  repeat apply conj; try done.
  - etrans; [exact Hle2|]. unfold to_ms, ticks_per_ms.
    apply Z.quot_le_mono; lia.
  - by eexists.
  - intros now h due r.
    destruct (heartbeatLoop_turn_cases now h)
      as (_ & _ & _ & Hdue & Hidle & _ & Hlive).
    split; [exact Hidle|]. intros Hd Hcb. split; [by apply Hlive|by apply Hdue].
Qed.

Lemma heartbeat_pacing_witness :
  HEARTBEAT_INTERVAL_MS <= to_ms (Examples.at_400s - Examples.at_200s)
  /\ sent_heartbeat
       (HeartbeatManager.heartbeatLoop_turn Examples.at_400s
          (run_turns [201000 * ticks_per_ms; 230000 * ticks_per_ms]
             (HeartbeatManager.heartbeatLoop_turn Examples.at_200s
                Examples.silent_nodes).1)).2
  /\ ~ sent_heartbeat
         (HeartbeatManager.heartbeatLoop_turn (230000 * ticks_per_ms)
            (run_turns [201000 * ticks_per_ms]
               (HeartbeatManager.heartbeatLoop_turn Examples.at_200s
                  Examples.silent_nodes).1)).2.
Proof.
  assert (H2 : sent_heartbeat
       (HeartbeatManager.heartbeatLoop_turn Examples.at_400s
          (run_turns [201000 * ticks_per_ms; 230000 * ticks_per_ms]
             (HeartbeatManager.heartbeatLoop_turn Examples.at_200s
                Examples.silent_nodes).1)).2).
  { eexists _, _, _. vm_compute. left. reflexivity. }
  destruct (heartbeat_pacing Examples.at_200s Examples.at_400s
              [201000 * ticks_per_ms; 230000 * ticks_per_ms]
              Examples.silent_nodes) as (Hpace & _ & _ & Hturn).
  - vm_compute. discriminate.
  - repeat constructor; vm_compute; discriminate.
  - eexists _, _, _. vm_compute. left. reflexivity.
  - exact H2.
  - split; [exact Hpace|]. split; [exact H2|].
    apply (Hturn (230000 * ticks_per_ms)
             (run_turns [201000 * ticks_per_ms]
                (HeartbeatManager.heartbeatLoop_turn Examples.at_200s
                   Examples.silent_nodes).1)).
    intros [Hle _]. vm_compute in Hle. by apply Hle.
Defined.

(** Peer B is indexed at 10.0.0.7; a packet from that address by the
    node [id_high], known as peer A, is a conflict that B loses: B's
    Steam ID comes back and the index now names [id_high]. *)
Example detect_conflict_lower_owner_loses :
  let r := HeartbeatManager.detectConflict (Examples.ip4 10 0 0 7)
             Examples.id_high Examples.contested_nodes in
  r.1 = Some Examples.peer_B
  /\ HeartbeatManager.findNodeByIP (Examples.ip4 10 0 0 7) r.2
     = Some Examples.id_high.
Proof. vm_compute. done. Qed.

(** ** Frames on the wire *)

(** What [handleVpnMessage] reads in a message that [sendVpnMessage] or
    [broadcastVpnMessage] built. *)
Lemma message_bytes_parse (type : VpnMessageType) (payload : list byte) :
  Z.of_nat (length payload) < 2 ^ 16 ->
  let data := SteamVpnBridge.message_bytes type payload in
  Z.of_nat (length data) = 3 + Z.of_nat (length payload)
  /\ type_of_code (u8 (nth 0 data x00)) = Some type
  /\ be_value (slice data 1 2) = Z.of_nat (length payload)
  /\ slice data 3 (length payload) = payload.
Proof.
  intros Hlen data. subst data. unfold SteamVpnBridge.message_bytes.
  rewrite Z.mod_small by lia. repeat apply conj.
  - cbn [length be_bytes2 app]. lia.
  - cbn [nth]. rewrite u8_byte_of_Z. by destruct type.
  - unfold slice. cbn [skipn be_bytes2 app firstn].
    apply be_value_be_bytes2. lia.
  - unfold slice. cbn [skipn be_bytes2 app]. apply firstn_all.
Qed.

Lemma decode_ip (ip : Z) (rest : list byte) :
  0 <= ip < 2 ^ 32 ->
  be_value (slice (VpnRouteManager.be_bytes4 ip ++ rest) 0 4) = ip.
Proof.
  intros Hip. rewrite <- (be_value_be_bytes4 ip Hip) at 2. reflexivity.
Qed.

Lemma decode_node_id (ip : Z) (nid rest : list byte) :
  length nid = NODE_ID_SIZE ->
  slice (VpnRouteManager.be_bytes4 ip ++ nid ++ rest) 4 NODE_ID_SIZE = nid.
Proof. intros H. by apply slice_app_here. Qed.

Lemma decode_timestamp (ip : Z) (nid : list byte) (ts : Z) :
  length nid = NODE_ID_SIZE -> - 2 ^ 63 <= ts < 2 ^ 63 ->
  s64 (le_value (slice (VpnRouteManager.be_bytes4 ip ++ nid ++ le_bytes 8 ts)
                       36 8)) = ts.
Proof.
  intros Hn Hts.
  replace (VpnRouteManager.be_bytes4 ip ++ nid ++ le_bytes 8 ts)
    with ((VpnRouteManager.be_bytes4 ip ++ nid) ++ le_bytes 8 ts ++ [])
    by (by rewrite app_nil_r, app_assoc).
  rewrite slice_app_here; [|rewrite length_app, Hn; done|apply length_le_bytes].
  rewrite le_value_le_bytes. unfold s64.
  change (256 ^ Z.of_nat 8) with (2 ^ 64).
  change (2 ^ 64) with 18446744073709551616 in *.
  change (2 ^ 63) with 9223372036854775808 in *.
  Z.div_mod_to_equations. lia.
Qed.

(** X22: an IP packet read from the TUN device of one bridge and addressed to
    the node of another, or to a broadcast address, comes out of the
    other's TUN device byte for byte: the sender frames it behind its
    node ID as an unreliable IP_PACKET, and the receiver, handed that
    frame, writes the packet and counts one packet of that length. *)
Theorem tunnel_round_trip (env : SteamEnv) (now : Z) (packet : list byte)
    (members : Z) (sender receiver : SteamVpnBridge.t)
    (senderSteamID : CSteamID) :
  length (IpNegotiator.localNodeId_ (SteamVpnBridge.ipNegotiator_ sender))
  = NODE_ID_SIZE ->
  0 < Z.of_nat (length packet) <= 16384 ->
  SteamVpnBridge.tunDevice_ receiver = true ->
  let destIP := VpnUtils.extractDestIP packet in
  destIP = SteamVpnBridge.localIP_ receiver
  \/ VpnUtils.isBroadcastAddress destIP (SteamVpnBridge.baseIP_ receiver)
       (SteamVpnBridge.subnetMask_ receiver) = true ->
  let payload :=
    IpNegotiator.localNodeId_ (SteamVpnBridge.ipNegotiator_ sender) ++ packet in
  (forall eff,
     In eff (SteamVpnBridge.forwardTunPacket packet members sender).2 ->
     eff = SteamVpnBridge.BroadcastMessage IP_PACKET (PRaw payload) false
     \/ exists target,
          eff = SteamVpnBridge.SendMessageToUser target IP_PACKET
                                                 (PRaw payload) false)
  /\ SteamVpnBridge.handleVpnMessage env now
       (SteamVpnBridge.message_bytes IP_PACKET payload) senderSteamID receiver
     = (SteamVpnBridge.count_received receiver (Z.of_nat (length packet)),
        [SteamVpnBridge.TunWrite packet]).
Proof.
  intros Hid Hlen Htun destIP Hdest payload. split.
  - intros eff Hin. unfold SteamVpnBridge.forwardTunPacket in Hin.
    cbv zeta in Hin. fold destIP payload in Hin.
    destruct (0 <? Z.of_nat (length packet)); [|by cbn [snd In] in Hin].
    destruct (VpnUtils.isBroadcastAddress destIP
                (SteamVpnBridge.baseIP_ sender)
                (SteamVpnBridge.subnetMask_ sender)).
    + cbn [snd In] in Hin. destruct Hin as [<-|[]]. by left.
    + destruct (VpnRouteManager.getRoute destIP _) as [entry|];
        [|by cbn [snd In] in Hin].
      destruct (negb (isLocal entry)); [|by cbn [snd In] in Hin].
      cbn [snd In] in Hin. destruct Hin as [<-|[]]. right. by eexists.
  - assert (Hpl : Z.of_nat (length payload) = 32 + Z.of_nat (length packet)).
    { subst payload. rewrite length_app, Hid. unfold NODE_ID_SIZE. lia. }
    destruct (message_bytes_parse IP_PACKET payload)
      as (Hl & Hty & Hpay & Hsl); [change (2 ^ 16) with 65536; lia|].
    unfold SteamVpnBridge.handleVpnMessage.
    rewrite Hl, Hty, Hpay, Nat2Z.id, Hsl. unfold sizeof_VpnMessageHeader.
    destruct (Z.ltb_spec (3 + Z.of_nat (length payload)) 3); [lia|].
    destruct (Z.ltb_spec (3 + Z.of_nat (length payload))
                         (3 + Z.of_nat (length payload))); [lia|].
    unfold SteamVpnBridge.handleIpPacket. rewrite Htun.
    unfold sizeof_VpnPacketWrapper.
    destruct (Z.ltb_spec 32 (Z.of_nat (length payload))); [|lia]. cbn [andb].
    assert (Hskip : skipn (Z.to_nat 32) payload = packet).
    { subst payload. change (Z.to_nat 32) with NODE_ID_SIZE. rewrite <- Hid.
      apply drop_app_length. }
    rewrite Hskip. fold destIP.
    replace (Z.of_nat (length payload) - 32) with (Z.of_nat (length packet))
      by lia.
    assert (Hfor : (destIP =? SteamVpnBridge.localIP_ receiver)
                   || VpnUtils.isBroadcastAddress destIP
                        (SteamVpnBridge.baseIP_ receiver)
                        (SteamVpnBridge.subnetMask_ receiver) = true).
    { apply orb_true_iff. destruct Hdest as [Hd|Hd]; [left|by right].
      by apply Z.eqb_eq. }
    by rewrite Hfor.
Qed.

Lemma tunnel_round_trip_witness :
  SteamVpnBridge.handleVpnMessage Examples.env 0
    (SteamVpnBridge.message_bytes IP_PACKET
       (Examples.id_local ++ Examples.ipv4_to 10 0 0 5))
    Examples.peer_A Examples.bridge_5
  = (SteamVpnBridge.count_received Examples.bridge_5 20,
     [SteamVpnBridge.TunWrite (Examples.ipv4_to 10 0 0 5)]).
Proof.
  apply (tunnel_round_trip Examples.env 0 (Examples.ipv4_to 10 0 0 5) 2
           Examples.bridge_probing Examples.bridge_5 Examples.peer_A).
  - reflexivity.
  - simpl. lia.
  - reflexivity.
  - left. reflexivity.
Defined.

Lemma decode_node_id_end (ip : Z) (nid : list byte) :
  length nid = NODE_ID_SIZE ->
  slice (VpnRouteManager.be_bytes4 ip ++ nid) 4 NODE_ID_SIZE = nid.
Proof.
  intros H. rewrite <- (app_nil_r nid) at 1. by apply decode_node_id.
Qed.

(** [handleVpnMessage] on a built message whose payload fits the length
    field: both header checks pass and the payload is found whole. *)
Ltac open_built_frame ty payload Hlen :=
  let Hl := fresh "Hl" in
  let Hty := fresh "Hty" in
  let Hpay := fresh "Hpay" in
  let Hsl := fresh "Hsl" in
  destruct (message_bytes_parse ty payload) as (Hl & Hty & Hpay & Hsl);
    [rewrite Hlen; done|];
  unfold SteamVpnBridge.handleVpnMessage;
  rewrite Hl, Hty, Hpay, Nat2Z.id, Hsl, Hlen;
  unfold sizeof_VpnMessageHeader;
  cbv beta iota zeta.

(** X23: a control message built from a payload struct by [sendVpnMessage] or
    [broadcastVpnMessage] is decoded by [handleVpnMessage] into that very
    struct and handed to the handler of its type, provided the address
    fits 32 bits, the node ID has 32 bytes and a timestamp fits an
    [int64_t].  For an ADDRESS_ANNOUNCE the route of the sender is then
    updated and, when the address was not in the table, the table is
    broadcast. *)
Theorem control_message_round_trip (env : SteamEnv) (now : Z)
    (senderSteamID : CSteamID) (b : SteamVpnBridge.t) :
  let handle ty p :=
    SteamVpnBridge.handleVpnMessage env now
      (SteamVpnBridge.message_bytes ty (SteamVpnBridge.payload_bytes p))
      senderSteamID b in
  let ok ip (nid : NodeID) := 0 <= ip < 2 ^ 32 /\ length nid = NODE_ID_SIZE in
  let int64 z := - 2 ^ 63 <= z < 2 ^ 63 in
  (forall q, ok (prq_ipAddress q) (prq_nodeId q) ->
     handle PROBE_REQUEST (PProbeRequest q)
     = let '(n, calls) :=
         IpNegotiator.handleProbeRequest now q senderSteamID
           (SteamVpnBridge.ipNegotiator_ b) in
       SteamVpnBridge.negotiator_calls env now calls
         (SteamVpnBridge.set_negotiator b n))
  /\ (forall q, ok (prs_ipAddress q) (prs_nodeId q) ->
        int64 (prs_lastHeartbeatMs q) ->
        handle PROBE_RESPONSE (PProbeResponse q)
        = (SteamVpnBridge.set_negotiator b
             (IpNegotiator.handleProbeResponse q senderSteamID
                (SteamVpnBridge.ipNegotiator_ b)), []))
  /\ (forall q, ok (fr_ipAddress q) (fr_winnerNodeId q) ->
        handle FORCED_RELEASE (PForcedRelease q)
        = let '(n, calls) :=
            IpNegotiator.handleForcedRelease now q senderSteamID
              (SteamVpnBridge.ipNegotiator_ b) in
          SteamVpnBridge.negotiator_calls env now calls
            (SteamVpnBridge.set_negotiator b n))
  /\ (forall q, ok (hb_ipAddress q) (hb_nodeId q) ->
        int64 (hb_timestampMs q) ->
        handle HEARTBEAT (PHeartbeat q)
        = (SteamVpnBridge.set_heartbeatManager b
             (HeartbeatManager.handleHeartbeat now q senderSteamID
                (GetFriendPersonaName env senderSteamID)
                (SteamVpnBridge.heartbeatManager_ b)), []))
  /\ (forall q, ok (aa_ipAddress q) (aa_nodeId q) ->
        handle ADDRESS_ANNOUNCE (PAddressAnnounce q)
        = let isNewRoute :=
            negb (bool_decide
                    (is_Some (VpnRouteManager.getRoute (aa_ipAddress q)
                                (SteamVpnBridge.routeManager_ b)))) in
          let '(n, ncalls) :=
            IpNegotiator.handleAddressAnnounce now q senderSteamID
              (SteamVpnBridge.ipNegotiator_ b) in
          let '(b1, effs1) :=
            SteamVpnBridge.negotiator_calls env now ncalls
              (SteamVpnBridge.set_negotiator b n) in
          let '(rm, rcalls) :=
            VpnRouteManager.updateRoute env (aa_nodeId q) senderSteamID
              (aa_ipAddress q) (GetFriendPersonaName env senderSteamID)
              (SteamVpnBridge.routeManager_ b1) in
          let '(b2, effs2) :=
            SteamVpnBridge.route_calls rcalls
              (SteamVpnBridge.set_routeManager b1 rm) in
          let '(b3, effs3) :=
            if isNewRoute
            then SteamVpnBridge.route_calls
                   (VpnRouteManager.broadcastRouteUpdate
                      (SteamVpnBridge.routeManager_ b2)) b2
            else (b2, []) in
          (b3, effs1 ++ effs2 ++ effs3)).
Proof.
  intros handle ok int64. subst handle ok int64. cbv beta.
  repeat apply conj.
  - intros [ip nid] [Hip Hn]. cbn [prq_ipAddress prq_nodeId] in *.
    cbn [SteamVpnBridge.payload_bytes prq_ipAddress prq_nodeId].
    set (payload := VpnRouteManager.be_bytes4 ip ++ nid).
    assert (Hlen : length payload = 36%nat)
      by (subst payload; rewrite length_app, Hn; done).
    open_built_frame PROBE_REQUEST payload Hlen.
    subst payload. rewrite decode_ip, decode_node_id_end by done.
    reflexivity.
  - intros [ip nid ts] [Hip Hn] Hts.
    cbn [prs_ipAddress prs_nodeId prs_lastHeartbeatMs] in *.
    cbn [SteamVpnBridge.payload_bytes prs_ipAddress prs_nodeId
         prs_lastHeartbeatMs].
    set (payload := VpnRouteManager.be_bytes4 ip ++ nid ++ le_bytes 8 ts).
    assert (Hlen : length payload = 44%nat)
      by (subst payload; rewrite !length_app, Hn, length_le_bytes; done).
    open_built_frame PROBE_RESPONSE payload Hlen.
    subst payload.
    rewrite decode_ip, decode_node_id, decode_timestamp by done.
    reflexivity.
  - intros [ip nid] [Hip Hn]. cbn [fr_ipAddress fr_winnerNodeId] in *.
    cbn [SteamVpnBridge.payload_bytes fr_ipAddress fr_winnerNodeId].
    set (payload := VpnRouteManager.be_bytes4 ip ++ nid).
    assert (Hlen : length payload = 36%nat)
      by (subst payload; rewrite length_app, Hn; done).
    open_built_frame FORCED_RELEASE payload Hlen.
    subst payload. rewrite decode_ip, decode_node_id_end by done.
    reflexivity.
  - intros [ip nid ts] [Hip Hn] Hts.
    cbn [hb_ipAddress hb_nodeId hb_timestampMs] in *.
    cbn [SteamVpnBridge.payload_bytes hb_ipAddress hb_nodeId hb_timestampMs].
    set (payload := VpnRouteManager.be_bytes4 ip ++ nid ++ le_bytes 8 ts).
    assert (Hlen : length payload = 44%nat)
      by (subst payload; rewrite !length_app, Hn, length_le_bytes; done).
    open_built_frame HEARTBEAT payload Hlen.
    subst payload.
    rewrite decode_ip, decode_node_id, decode_timestamp by done.
    reflexivity.
  - intros [ip nid] [Hip Hn]. cbn [aa_ipAddress aa_nodeId] in *.
    cbn [SteamVpnBridge.payload_bytes aa_ipAddress aa_nodeId].
    set (payload := VpnRouteManager.be_bytes4 ip ++ nid).
    assert (Hlen : length payload = 36%nat)
      by (subst payload; rewrite length_app, Hn; done).
    open_built_frame ADDRESS_ANNOUNCE payload Hlen.
    unfold SteamVpnBridge.handleAddressAnnounceMessage. rewrite Hlen.
    cbv beta iota zeta. cbn [aa_ipAddress aa_nodeId].
    subst payload. rewrite decode_ip, decode_node_id_end by done.
    reflexivity.
Qed.

(** X24: a malformed frame is dropped: the bridge is left as it was and
    nothing is written or sent. *)
Theorem malformed_frame_dropped (env : SteamEnv) (now : Z) (data : list byte)
    (senderSteamID : CSteamID) (b : SteamVpnBridge.t) :
  malformed data ->
  SteamVpnBridge.handleVpnMessage env now data senderSteamID b = (b, []).
Proof.
  unfold malformed, undersized. cbv zeta. intros H.
  unfold SteamVpnBridge.handleVpnMessage. unfold sizeof_VpnMessageHeader.
  destruct (Z.ltb_spec (Z.of_nat (length data)) 3); [done|].
  destruct (Z.ltb_spec (Z.of_nat (length data))
                       (3 + be_value (slice data 1 2))); [done|].
  cbv zeta.
  set (type := u8 (nth 0 data x00)) in *.
  set (len := be_value (slice data 1 2)) in *.
  destruct H as [H|[H|[H|[H|H]]]]; try lia.
  - by rewrite H.
  - by rewrite H.
  - destruct H as [[-> H]|[[-> H]|[[Hk H]|[Hk H]]]].
    + change (type_of_code 1) with (Some IP_PACKET). cbv iota.
      unfold SteamVpnBridge.handleIpPacket.
      assert (Hpl : Z.of_nat (length (slice data 3 (Z.to_nat len))) <= 32).
      { unfold slice. rewrite length_take. lia. }
      unfold sizeof_VpnPacketWrapper.
      destruct (Z.ltb_spec 32 (Z.of_nat (length (slice data 3 (Z.to_nat len)))));
        [lia|]. by rewrite andb_false_r.
    + change (type_of_code 3) with (Some ROUTE_UPDATE). cbv iota.
      assert (Hrs : VpnRouteManager.records (slice data 3 (Z.to_nat len)) = []).
      { assert (Hpl : (length (slice data 3 (Z.to_nat len)) < 12)%nat)
          by (unfold slice; rewrite length_take; lia).
        unfold VpnRouteManager.records.
        destruct (length (slice data 3 (Z.to_nat len))) eqn:E; [done|].
        cbn [VpnRouteManager.records_from]. rewrite E.
        destruct (Nat.leb_spec (0 + 12) (S n)); [lia|done]. }
      unfold VpnRouteManager.handleRouteUpdate. rewrite Hrs.
      cbn [fold_left]. unfold SteamVpnBridge.route_calls. cbn [fold_left].
      by destruct b.
    + assert (Hc : type_of_code type = Some PROBE_REQUEST
                   \/ type_of_code type = Some ADDRESS_ANNOUNCE
                   \/ type_of_code type = Some FORCED_RELEASE)
        by (destruct Hk as [-> | [-> | ->]]; auto).
      destruct Hc as [-> | [-> | ->]]; cbv iota.
      * unfold sizeof_ProbeRequestPayload.
        destruct (Z.leb_spec 36 len); [lia|done].
      * unfold SteamVpnBridge.handleAddressAnnounceMessage,
          sizeof_AddressAnnouncePayload.
        assert (Hpl : Z.of_nat (length (slice data 3 (Z.to_nat len))) < 36)
          by (unfold slice; rewrite length_take; lia).
        destruct (Z.leb_spec 36
                    (Z.of_nat (length (slice data 3 (Z.to_nat len)))));
          [lia|done].
      * unfold sizeof_ForcedReleasePayload.
        destruct (Z.leb_spec 36 len); [lia|done].
    + assert (Hc : type_of_code type = Some PROBE_RESPONSE
                   \/ type_of_code type = Some HEARTBEAT)
        by (destruct Hk as [->| ->]; auto).
      destruct Hc as [->| ->]; cbv iota.
      * unfold sizeof_ProbeResponsePayload.
        destruct (Z.leb_spec 44 len); [lia|done].
      * unfold sizeof_HeartbeatPayload.
        destruct (Z.leb_spec 44 len); [lia|done].
Qed.

Lemma malformed_frame_dropped_witness :
  SteamVpnBridge.handleVpnMessage Examples.env 0
    (Examples.bytes [12; 0; 36; 10; 0; 0; 5]) Examples.peer_A Examples.bridge_5
  = (Examples.bridge_5, []).
Proof.
  apply (malformed_frame_dropped Examples.env 0
           (Examples.bytes [12; 0; 36; 10; 0; 0; 5]) Examples.peer_A
           Examples.bridge_5).
  right. left. vm_compute. reflexivity.
Defined.

(** ** Peers that leave and leases that expire *)

Lemma unregisterNode_lookup (nid nid' : NodeID) (hm : HeartbeatManager.t) :
  HeartbeatManager.nodeTable_ (HeartbeatManager.unregisterNode nid hm) !! nid'
  = if bool_decide (nid' = nid) then None
    else HeartbeatManager.nodeTable_ hm !! nid'.
Proof.
  unfold HeartbeatManager.unregisterNode.
  destruct (HeartbeatManager.nodeTable_ hm !! nid) as [info|] eqn:E.
  - simpl. destruct (decide (nid' = nid)) as [->|Hne].
    + by rewrite bool_decide_eq_true_2, lookup_delete_eq.
    + by rewrite bool_decide_eq_false_2, lookup_delete_ne.
  - destruct (decide (nid' = nid)) as [->|Hne].
    + by rewrite bool_decide_eq_true_2.
    + by rewrite bool_decide_eq_false_2.
Qed.

(** The [onRemoved] callbacks of [onUserLeft], run over the removed
    routes. *)
Lemma fold_on_removed (l : list (Z * NodeID)) :
  forall b : SteamVpnBridge.t,
    let b' := fold_left SteamVpnBridge.on_removed l b in
    SteamVpnBridge.routeManager_ b' = SteamVpnBridge.routeManager_ b
    /\ (forall ip,
          ip ∈ IpNegotiator.usedIPs_ (SteamVpnBridge.ipNegotiator_ b')
          <-> ip ∈ IpNegotiator.usedIPs_ (SteamVpnBridge.ipNegotiator_ b)
              /\ ~ In ip (map fst l))
    /\ (forall nid info,
          HeartbeatManager.nodeTable_ (SteamVpnBridge.heartbeatManager_ b')
            !! nid = Some info
          <-> HeartbeatManager.nodeTable_ (SteamVpnBridge.heartbeatManager_ b)
                !! nid = Some info
              /\ ~ In nid (map snd l))
    /\ IpNegotiator.state_ (SteamVpnBridge.ipNegotiator_ b')
       = IpNegotiator.state_ (SteamVpnBridge.ipNegotiator_ b)
    /\ IpNegotiator.localIP_ (SteamVpnBridge.ipNegotiator_ b')
       = IpNegotiator.localIP_ (SteamVpnBridge.ipNegotiator_ b).
Proof.
  induction l as [|r l IH]; intros b; cbn [fold_left map].
  - cbv zeta. repeat apply conj; try done.
    + intros ip. simpl. tauto.
    + intros nid info. simpl. tauto.
  - destruct (IH (SteamVpnBridge.on_removed b r)) as (Hrm & Hused & Hnodes & Hst & Hip).
    cbv zeta. repeat apply conj.
    + by rewrite Hrm.
    + intros ip. rewrite Hused. simpl.
      rewrite elem_of_difference, elem_of_singleton. intuition congruence.
    + intros nid info. rewrite Hnodes. simpl.
      rewrite unregisterNode_lookup.
      destruct (decide (nid = r.2)) as [->|Hne].
      * rewrite bool_decide_eq_true_2 by done. intuition congruence.
      * rewrite bool_decide_eq_false_2 by done. intuition congruence.
    + by rewrite Hst.
    + by rewrite Hip.
Qed.

(** X25: when a user leaves, the routes to that user go, and with each of them
    its address stops being marked as used and its node leaves the node
    table of the heartbeat manager.  The routes of other peers, the other
    marked addresses and the other nodes stay, and the negotiator keeps
    its state and its address. *)
Theorem user_left_forgotten (steamId : CSteamID) (b : SteamVpnBridge.t) :
  let b' := SteamVpnBridge.onUserLeft steamId b in
  let tbl := VpnRouteManager.routingTable_ (SteamVpnBridge.routeManager_ b) in
  (forall ip e,
     VpnRouteManager.routingTable_ (SteamVpnBridge.routeManager_ b') !! ip
     = Some e
     <-> tbl !! ip = Some e /\ steamID e <> steamId)
  /\ (forall ip,
        ip ∈ IpNegotiator.usedIPs_ (SteamVpnBridge.ipNegotiator_ b')
        <-> ip ∈ IpNegotiator.usedIPs_ (SteamVpnBridge.ipNegotiator_ b)
            /\ ~ routed_to tbl steamId ip)
  /\ (forall nid info,
        HeartbeatManager.nodeTable_ (SteamVpnBridge.heartbeatManager_ b')
          !! nid = Some info
        <-> HeartbeatManager.nodeTable_ (SteamVpnBridge.heartbeatManager_ b)
              !! nid = Some info
            /\ ~ exists ip e, tbl !! ip = Some e /\ steamID e = steamId
                              /\ nodeId e = nid)
  /\ IpNegotiator.state_ (SteamVpnBridge.ipNegotiator_ b')
     = IpNegotiator.state_ (SteamVpnBridge.ipNegotiator_ b)
  /\ IpNegotiator.localIP_ (SteamVpnBridge.ipNegotiator_ b')
     = IpNegotiator.localIP_ (SteamVpnBridge.ipNegotiator_ b).
Proof.
  intros b' tbl. subst b'. unfold SteamVpnBridge.onUserLeft.
  unfold VpnRouteManager.removeRoutesForUser. fold tbl.
  set (removed := map _ _).
  assert (Hrem : forall ip nid,
            In (ip, nid) removed
            <-> exists e, tbl !! ip = Some e /\ steamID e = steamId
                          /\ nodeId e = nid).
  { intros ip nid. subst removed. rewrite in_map_iff. split.
    - intros ([k e] & Heq & Hin). simpl in Heq. inversion Heq; subst.
      apply filter_In in Hin as [Hin Hs]. apply elem_of_entries in Hin.
      simpl in Hs. apply bool_decide_eq_true_1 in Hs. by exists e.
    - intros (e & Hl & Hs & Hn). exists (ip, e). simpl. split; [by rewrite Hn|].
      apply filter_In. split; [by apply elem_of_entries|].
      simpl. by apply bool_decide_eq_true_2. }
  destruct (fold_on_removed removed
              (SteamVpnBridge.set_routeManager b
                 (VpnRouteManager.set_table (SteamVpnBridge.routeManager_ b)
                    (filter (fun kv => steamID kv.2 <> steamId) tbl))))
    as (Hrm & Hused & Hnodes & Hst & Hip).
  repeat apply conj.
  - intros ip e. rewrite Hrm. simpl. rewrite map_lookup_filter_Some. done.
  - intros ip. rewrite Hused. simpl. unfold routed_to.
    rewrite in_map_iff. split; intros [Hu Hn]; (split; [done|]).
    + intros (e & Hl & Hs). apply Hn. exists (ip, nodeId e). split; [done|].
      apply Hrem. by exists e.
    + intros ([k nid] & Heq & Hin). simpl in Heq. subst k.
      apply Hrem in Hin as (e & Hl & Hs & _). apply Hn. by exists e.
  - intros nid info. rewrite Hnodes. simpl.
    rewrite in_map_iff. split; intros [Hu Hn]; (split; [done|]).
    + intros (ip & e & Hl & Hs & He). apply Hn. exists (ip, nid).
      split; [done|]. apply Hrem. by exists e.
    + intros ([k nid'] & Heq & Hin). simpl in Heq. subst nid'.
      apply Hrem in Hin as (e & Hl & Hs & He). apply Hn. by exists k, e.
  - by rewrite Hst.
  - by rewrite Hip.
Qed.

(** The callbacks of the heartbeat manager, run by the bridge: the
    expired addresses lose their route and their mark, and nothing but
    the heartbeats is sent. *)
Lemma fold_heartbeat_call (calls : list HeartbeatManager.Call) :
  forall (b : SteamVpnBridge.t) (effs : list SteamVpnBridge.Effect),
    let r := fold_left SteamVpnBridge.heartbeat_call calls (b, effs) in
    SteamVpnBridge.heartbeatManager_ r.1 = SteamVpnBridge.heartbeatManager_ b
    /\ (forall ip e,
          VpnRouteManager.routingTable_ (SteamVpnBridge.routeManager_ r.1)
            !! ip = Some e
          <-> VpnRouteManager.routingTable_ (SteamVpnBridge.routeManager_ b)
                !! ip = Some e
              /\ ~ In ip (expired_ips calls))
    /\ (forall ip,
          ip ∈ IpNegotiator.usedIPs_ (SteamVpnBridge.ipNegotiator_ r.1)
          <-> ip ∈ IpNegotiator.usedIPs_ (SteamVpnBridge.ipNegotiator_ b)
              /\ ~ In ip (expired_ips calls))
    /\ (forall eff, In eff r.2 ->
          In eff effs
          \/ exists ty p reliable,
               In (HeartbeatManager.SendHeartbeat ty p reliable) calls
               /\ eff = SteamVpnBridge.BroadcastMessage ty p reliable).
Proof.
  induction calls as [|c calls IH]; intros b effs; cbn [fold_left].
  - cbv zeta. simpl. repeat apply conj; try done; intros; tauto.
  - destruct c as [ty p rel|nid ip0]; cbn [SteamVpnBridge.heartbeat_call].
    + destruct (IH b (effs ++ [SteamVpnBridge.BroadcastMessage ty p rel]))
        as (Hhm & Htbl & Hused & Heff).
      cbv zeta. repeat apply conj; try done.
      intros eff Hin. apply Heff in Hin as [Hin|(ty' & p' & rel' & Hin & ->)].
      * apply in_app_or in Hin as [Hin|[<-|[]]]; [by left|].
        right. exists ty, p, rel. split; [by left|done].
      * right. exists ty', p', rel'. split; [by right|done].
    + destruct (IH (SteamVpnBridge.onNodeExpired nid ip0 b) effs)
        as (Hhm & Htbl & Hused & Heff).
      cbv zeta. repeat apply conj.
      * by rewrite Hhm.
      * intros ip e. rewrite Htbl. simpl.
        destruct (decide (ip = ip0)) as [->|Hne].
        -- rewrite lookup_delete_eq. intuition congruence.
        -- rewrite lookup_delete_ne by done. intuition congruence.
      * intros ip. rewrite Hused. simpl.
        rewrite elem_of_difference, elem_of_singleton. intuition congruence.
      * intros eff Hin. apply Heff in Hin as [Hin|(ty' & p' & rel' & Hin & ->)];
          [by left|].
        right. exists ty', p', rel'. split; [by right|done].
Qed.

(** X26: a turn of the heartbeat thread forgets every non-local node whose
    lease has run out: the node leaves the node table, the route at its
    address is removed and the address is no longer marked as used.  The
    turn only ever removes routes, and all it sends is heartbeats. *)
Theorem expired_node_forgotten (now : Z) (b : SteamVpnBridge.t) :
  HeartbeatManager.expiredCallback_ (SteamVpnBridge.heartbeatManager_ b) = true ->
  let r := SteamVpnBridge.heartbeat_turn now b in
  (forall nid info,
     HeartbeatManager.nodeTable_ (SteamVpnBridge.heartbeatManager_ b) !! nid
     = Some info ->
     ni_isLocal info = false ->
     LEASE_EXPIRY_MS <= to_ms (now - ni_lastHeartbeat info) ->
     HeartbeatManager.nodeTable_ (SteamVpnBridge.heartbeatManager_ r.1) !! nid
     = None
     /\ VpnRouteManager.getRoute (ni_ipAddress info)
          (SteamVpnBridge.routeManager_ r.1) = None
     /\ ni_ipAddress info
        ∉ IpNegotiator.usedIPs_ (SteamVpnBridge.ipNegotiator_ r.1))
  /\ (forall ip e,
        VpnRouteManager.getRoute ip (SteamVpnBridge.routeManager_ r.1) = Some e ->
        VpnRouteManager.getRoute ip (SteamVpnBridge.routeManager_ b) = Some e)
  /\ (forall eff, In eff r.2 ->
        exists p, eff = SteamVpnBridge.BroadcastMessage HEARTBEAT p true).
Proof.
  intros Hcb r. subst r. unfold SteamVpnBridge.heartbeat_turn.
  unfold HeartbeatManager.heartbeatLoop_turn.
  set (hm := SteamVpnBridge.heartbeatManager_ b) in *.
  set (first :=
         if (HEARTBEAT_INTERVAL_MS
             <=? to_ms (now - HeartbeatManager.lastHeartbeatSent_ hm))
            && negb (HeartbeatManager.localIP_ hm =? 0)
         then (HeartbeatManager.set_lastHeartbeatSent hm now,
               HeartbeatManager.sendHeartbeat now hm)
         else (hm, [])).
  assert (Hfirst : HeartbeatManager.nodeTable_ first.1
                   = HeartbeatManager.nodeTable_ hm
                   /\ HeartbeatManager.expiredCallback_ first.1 = true
                   /\ forall c, In c first.2 ->
                        exists p, c = HeartbeatManager.SendHeartbeat HEARTBEAT p true).
  { subst first.
    destruct ((HEARTBEAT_INTERVAL_MS <=? _) && _)%bool; simpl;
      [|by repeat split].
    repeat split; [done|].
    intros c Hin. unfold HeartbeatManager.sendHeartbeat in Hin.
    destruct (negb _ || _)%bool; [destruct Hin|].
    destruct Hin as [<-|[]]. by eexists. }
  destruct first as [hm1 sent]. simpl in Hfirst.
  destruct Hfirst as (Htbl1 & Hcb1 & Hsent).
  unfold HeartbeatManager.checkExpiredLeases. rewrite Hcb1.
  set (hm2 := HeartbeatManager.set_tables hm1 _ _).
  set (calls := sent ++ _).
  destruct (fold_heartbeat_call calls
              (SteamVpnBridge.set_heartbeatManager b hm2) [])
    as (Hhm & Htbl & Hused & Heff).
  assert (Hexp : forall nid info,
            HeartbeatManager.nodeTable_ hm !! nid = Some info ->
            ni_isLocal info = false ->
            LEASE_EXPIRY_MS <= to_ms (now - ni_lastHeartbeat info) ->
            In (ni_ipAddress info) (expired_ips calls)).
  { intros nid info Hl Hloc Hold. subst calls. unfold expired_ips.
    rewrite flat_map_app. apply in_or_app. right.
    apply in_flat_map. exists (HeartbeatManager.Expired nid (ni_ipAddress info)).
    split; [|by left].
    apply in_map_iff. exists (nid, ni_ipAddress info). split; [done|].
    apply elem_of_expiredNodes. exists info. rewrite Htbl1.
    split; [done|]. split; [|done]. by apply lease_lost_iff. }
  repeat apply conj.
  - intros nid info Hl Hloc Hold. rewrite Hhm. repeat apply conj.
    + simpl. apply map_lookup_filter_None. right. intros info' Hl'. simpl.
      rewrite Htbl1 in Hl'. assert (info' = info) as -> by congruence.
      intros Hlost.
      assert (HeartbeatManager.lease_lost now info = true)
        by (by apply lease_lost_iff). congruence.
    + unfold VpnRouteManager.getRoute.
      destruct (VpnRouteManager.routingTable_ _ !! ni_ipAddress info)
        as [e|] eqn:E; [|done].
      apply Htbl in E as [_ E]. exfalso. apply E. by eapply Hexp.
    + intros Hin. apply Hused in Hin as [_ Hin]. apply Hin. by eapply Hexp.
  - intros ip e Hl. unfold VpnRouteManager.getRoute in *.
    by apply Htbl in Hl as [Hl _].
  - intros eff Hin. apply Heff in Hin as [[]|(ty & p & rel & Hin & ->)].
    subst calls. apply in_app_or in Hin as [Hin|Hin].
    + apply Hsent in Hin as (p' & [= -> -> ->]). by eexists.
    + apply in_map_iff in Hin as (? & ? & _). done.
Qed.

Lemma expired_node_forgotten_witness :
  VpnRouteManager.getRoute (Examples.ip4 10 0 0 7)
    (SteamVpnBridge.routeManager_
       (SteamVpnBridge.heartbeat_turn Examples.at_400s
          (SteamVpnBridge.set_heartbeatManager Examples.bridge_5
             Examples.silent_nodes)).1)
  = None.
Proof.
  destruct (expired_node_forgotten Examples.at_400s
              (SteamVpnBridge.set_heartbeatManager Examples.bridge_5
                 Examples.silent_nodes) eq_refl) as [H _].
  destruct (H Examples.id_low
              (Examples.node Examples.id_low Examples.peer_B
                 (Examples.ip4 10 0 0 7) 0 false)) as (_ & Hroute & _).
  - vm_compute. reflexivity.
  - reflexivity.
  - vm_compute. discriminate.
  - exact Hroute.
Defined.

(** ** Taking an address into use *)

(** X27: when the negotiator reports success the bridge records the address.
    If the TUN device cannot be configured, that is all it does.
    Otherwise the table gets the local route at the address, flagged
    local, and loses any other route of the local user; the heartbeat
    manager is initialised with the node and the address, registers the
    node as local under that address and runs; the address is marked as
    used, and the table, which now holds the local route, is
    broadcast. *)
Theorem address_taken_into_use (env : SteamEnv) (now : Z) (ip : Z)
    (nid : NodeID) (b : SteamVpnBridge.t) :
  let r := SteamVpnBridge.onNegotiationSuccess env now ip nid b in
  let rm := SteamVpnBridge.routeManager_ r.1 in
  let hm := SteamVpnBridge.heartbeatManager_ r.1 in
  let local_route :=
    {| steamID := GetSteamID env; ipAddress := ip; name := GetPersonaName env;
       isLocal := true; nodeId := nid |} in
  SteamVpnBridge.localIP_ r.1 = ip
  /\ (tun_set_ip_up env ip (SteamVpnBridge.subnetMask_ b) = false ->
      r = (SteamVpnBridge.set_localIP b ip, []))
  /\ (tun_set_ip_up env ip (SteamVpnBridge.subnetMask_ b) = true ->
      VpnRouteManager.getRoute ip rm = Some local_route
      /\ (forall ip' e, ip' <> ip ->
            (VpnRouteManager.getRoute ip' rm = Some e
             <-> VpnRouteManager.getRoute ip' (SteamVpnBridge.routeManager_ b)
                 = Some e /\ steamID e <> GetSteamID env))
      /\ HeartbeatManager.nodeTable_ hm !! nid
         = Some {| ni_nodeId := nid; ni_steamId := GetSteamID env;
                   ni_ipAddress := ip; ni_lastHeartbeat := now;
                   ni_name := GetPersonaName env; ni_isLocal := true |}
      /\ HeartbeatManager.findNodeByIP ip hm = Some nid
      /\ HeartbeatManager.localIP_ hm = ip
      /\ HeartbeatManager.localNodeId_ hm = nid
      /\ HeartbeatManager.running_ hm = true
      /\ (VpnRouteManager.onRouteAddedCallback_
            (SteamVpnBridge.routeManager_ b) = true ->
          ip ∈ IpNegotiator.usedIPs_ (SteamVpnBridge.ipNegotiator_ r.1))
      /\ (VpnRouteManager.broadcastCallback_
            (SteamVpnBridge.routeManager_ b) = true ->
          r.2 = [SteamVpnBridge.BroadcastMessage ROUTE_UPDATE
                   (PRaw (VpnRouteManager.routeData rm)) true]
          /\ In (ip, local_route)
                (VpnRouteManager.entries (VpnRouteManager.routingTable_ rm)))).
Proof.
  intros r rm hm local_route. subst r rm hm.
  unfold SteamVpnBridge.onNegotiationSuccess.
  cbn [SteamVpnBridge.localIP_ SteamVpnBridge.subnetMask_
       SteamVpnBridge.set_localIP].
  destruct (tun_set_ip_up env ip (SteamVpnBridge.subnetMask_ b)) eqn:Htun.
  2: { split; [done|]. split; [done|discriminate]. }
  assert (Hroute : forall rm0 : VpnRouteManager.t,
            VpnRouteManager.routingTable_
              (VpnRouteManager.updateRoute env nid (GetSteamID env) ip
                 (GetPersonaName env) rm0).1 !! ip = Some local_route).
  { intros rm0. apply updateRoute_lookup. left. split; [done|].
    subst local_route. by rewrite bool_decide_eq_true_2. }
  assert (Hother : forall (rm0 : VpnRouteManager.t) ip' e, ip' <> ip ->
            (VpnRouteManager.routingTable_
               (VpnRouteManager.updateRoute env nid (GetSteamID env) ip
                  (GetPersonaName env) rm0).1 !! ip' = Some e
             <-> VpnRouteManager.routingTable_ rm0 !! ip' = Some e
                 /\ steamID e <> GetSteamID env)).
  { intros rm0 ip' e Hne. rewrite updateRoute_lookup. split.
    - intros [[? _]|(_ & ? & ?)]; done.
    - intros [? ?]. by right. }
  unfold VpnRouteManager.updateRoute in *.
  set (tbl' := <[ip := _]> _) in *.
  unfold VpnRouteManager.broadcastRouteUpdate, SteamVpnBridge.route_calls.
  destruct (VpnRouteManager.onRouteAddedCallback_
              (SteamVpnBridge.routeManager_ (SteamVpnBridge.set_localIP b ip)))
    eqn:Hadded;
    destruct (VpnRouteManager.broadcastCallback_
                (SteamVpnBridge.routeManager_ (SteamVpnBridge.set_localIP b ip)))
      eqn:Hbc;
    simpl in Hadded, Hbc; simpl; rewrite ?Hbc; simpl;
    (split; [done|]); (split; [discriminate|]); intros _;
    rewrite ?lookup_insert_eq;
    (repeat apply conj; try done;
     [ apply (Hroute (SteamVpnBridge.routeManager_ b))
     | intros ip' e Hne;
       apply (Hother (SteamVpnBridge.routeManager_ b) ip' e Hne)
     | by rewrite bool_decide_eq_true_2
     | .. ]).
  all: try (intros _; apply elem_of_union; left; by apply elem_of_singleton).
  all: try (intros _; split; [done|]; apply elem_of_entries;
            apply (Hroute (SteamVpnBridge.routeManager_ b))).
  all: try (unfold HeartbeatManager.findNodeByIP; simpl;
            apply lookup_insert_eq).
  all: intros H; congruence.
Qed.

(** A user who joins is greeted only when the local node is Stable, and
    then only with reliable messages to that user: the address
    announcement followed by the routing table.  The bridge itself does
    not change. *)
Lemma newcomer_is_greeted (env : SteamEnv) (now : Z) (steamId : CSteamID)
    (b : SteamVpnBridge.t) :
  let r := SteamVpnBridge.onUserJoined env now steamId b in
  let n := SteamVpnBridge.ipNegotiator_ b in
  let rm := SteamVpnBridge.routeManager_ b in
  r.1 = b
  /\ (IpNegotiator.state_ n <> IpNegotiator.STABLE -> r.2 = [])
  /\ (forall eff, In eff r.2 ->
        exists ty p, eff = SteamVpnBridge.SendMessageToUser steamId ty p true)
  /\ (IpNegotiator.state_ n = IpNegotiator.STABLE ->
      IpNegotiator.localIP_ n <> 0 ->
      IpNegotiator.sendCallback_ n = true ->
      VpnRouteManager.sendCallback_ rm = true ->
      r.2 = [SteamVpnBridge.SendMessageToUser steamId ADDRESS_ANNOUNCE
               (PAddressAnnounce
                  {| aa_ipAddress := IpNegotiator.localIP_ n;
                     aa_nodeId := IpNegotiator.localNodeId_ n |}) true;
             SteamVpnBridge.SendMessageToUser steamId ROUTE_UPDATE
               (PRaw (VpnRouteManager.routeData rm)) true]).
Proof.
  intros r n rm. subst r n rm. unfold SteamVpnBridge.onUserJoined.
  destruct (decide (IpNegotiator.state_ (SteamVpnBridge.ipNegotiator_ b)
                    = IpNegotiator.STABLE)) as [Hst|Hst].
  2: { rewrite bool_decide_eq_false_2 by done. simpl.
       repeat apply conj; try done. }
  rewrite bool_decide_eq_true_2 by done.
  unfold IpNegotiator.sendAddressAnnounceTo, VpnRouteManager.sendRouteUpdateTo.
  rewrite bool_decide_eq_true_2 by done. cbn [negb orb].
  rewrite orb_false_r.
  destruct (IpNegotiator.sendCallback_ (SteamVpnBridge.ipNegotiator_ b))
    eqn:Hs;
    destruct (Z.eqb_spec (IpNegotiator.localIP_ (SteamVpnBridge.ipNegotiator_ b))
                         0) as [Hz|Hz];
    destruct (VpnRouteManager.sendCallback_ (SteamVpnBridge.routeManager_ b))
      eqn:Hr;
    simpl; rewrite ?Hr; simpl;
    (repeat apply conj; try done;
     try (intros eff Hin;
          repeat (destruct Hin as [<-|Hin]; [by eexists _, _|]);
          destruct Hin)).
  all: intros; congruence.
Qed.

(** ** Receiving a routing table *)

(** What one record of a ROUTE_UPDATE hands to the route-added
    callback. *)
Lemma route_step_calls (env : SteamEnv) (base mask : Z) (me : CSteamID)
    (rm : VpnRouteManager.t) (calls : list VpnRouteManager.Call)
    (r : CSteamID * Z) :
  VpnRouteManager.onRouteAddedCallback_ rm = true ->
  let acc' := VpnRouteManager.route_step env base mask me (rm, calls) r in
  VpnRouteManager.onRouteAddedCallback_ acc'.1 = true
  /\ (acc' = (rm, calls)
      \/ acc' = ((VpnRouteManager.updateRoute env
                    (NodeIdentity.generate env r.1) r.1 r.2
                    (GetFriendPersonaName env r.1) rm).1,
                 calls ++ [VpnRouteManager.RouteAdded r.2])).
Proof.
  intros Hcb. destruct r as [s ip]. simpl.
  destruct (bool_decide (s = me)); [by split; [|left]|].
  destruct (bool_decide (is_Some (VpnRouteManager.routingTable_ rm !! ip)));
    [by split; [|left]|].
  destruct (Z.land ip mask =? Z.land base mask); [|by split; [|left]].
  rewrite Hcb. simpl. split; [done|]. by right.
Qed.

Lemma handleRouteUpdate_added (env : SteamEnv) (base mask : Z) (me : CSteamID)
    (rs : list (CSteamID * Z)) :
  forall acc : VpnRouteManager.t * list VpnRouteManager.Call,
    VpnRouteManager.onRouteAddedCallback_ acc.1 = true ->
    let r := fold_left (VpnRouteManager.route_step env base mask me) rs acc in
    (forall c, In c acc.2 -> In c r.2)
    /\ forall ip,
         is_Some (VpnRouteManager.routingTable_ r.1 !! ip) ->
         is_Some (VpnRouteManager.routingTable_ acc.1 !! ip)
         \/ In (VpnRouteManager.RouteAdded ip) r.2.
Proof.
  induction rs as [|r0 rs IH]; intros [rm calls] Hcb; cbn [fold_left].
  - cbv zeta. split; [done|]. intros ip. by left.
  - simpl in Hcb.
    destruct (route_step_calls env base mask me rm calls r0 Hcb) as [Hcb' Hacc].
    destruct (IH _ Hcb') as [Hkeep Hnew]. cbv zeta.
    destruct Hacc as [Hacc|Hacc]; rewrite Hacc in *; simpl in *.
    + done.
    + split.
      * intros c Hin. apply Hkeep. apply in_or_app. by left.
      * intros ip Hsome. apply Hnew in Hsome as [[e He]|Hin]; [|by right].
        destruct (decide (ip = r0.2)) as [->|Hne].
        -- right. apply Hkeep. apply in_or_app. right. by left.
        -- left. rewrite lookup_insert_ne in He by done.
           apply evict_old_lookup in He as [He _]. by exists e.
Qed.

(** The route manager's callbacks, run by the bridge: every address
    handed to the route-added callback ends marked as used, and the
    table is not touched. *)
Lemma route_calls_marks (calls : list VpnRouteManager.Call) :
  forall (b : SteamVpnBridge.t) (effs : list SteamVpnBridge.Effect),
    let r := fold_left SteamVpnBridge.route_call calls (b, effs) in
    SteamVpnBridge.routeManager_ r.1 = SteamVpnBridge.routeManager_ b
    /\ (forall ip,
          ip ∈ IpNegotiator.usedIPs_ (SteamVpnBridge.ipNegotiator_ b)
          \/ In (VpnRouteManager.RouteAdded ip) calls ->
          ip ∈ IpNegotiator.usedIPs_ (SteamVpnBridge.ipNegotiator_ r.1)).
Proof.
  induction calls as [|c calls IH]; intros b effs; cbn [fold_left].
  - cbv zeta. split; [done|]. intros ip [?|[]]. done.
  - destruct c as [ty p target rel|ty p rel|ip0];
      cbn [SteamVpnBridge.route_call].
    + destruct (IH b (effs ++ [SteamVpnBridge.SendMessageToUser target ty p rel]))
        as [Hrm Hused].
      cbv zeta. split; [done|]. intros ip [H|[H|H]]; [|done|];
        apply Hused; auto.
    + destruct (IH b (effs ++ [SteamVpnBridge.BroadcastMessage ty p rel]))
        as [Hrm Hused].
      cbv zeta. split; [done|]. intros ip [H|[H|H]]; [|done|];
        apply Hused; auto.
    + destruct (IH (SteamVpnBridge.set_negotiator b
                      (IpNegotiator.markIPUsed ip0
                         (SteamVpnBridge.ipNegotiator_ b))) effs)
        as [Hrm Hused].
      cbv zeta. split; [done|]. intros ip [H|[H|H]]; apply Hused.
      * left. simpl. apply elem_of_union. by right.
      * injection H as ->. left. simpl. apply elem_of_union. left.
        by apply elem_of_singleton.
      * by right.
Qed.

(** X28: a bridge with an empty table that receives the table of a sender, as
    [sendRouteUpdateTo] or [broadcastRouteUpdate] encode it and
    [sendVpnMessage] frames it, ends with exactly the sender's entries of
    other peers inside its own subnet, under the same addresses.  The
    node ID of each entry is recomputed from the Steam ID and the name
    asked from Steam; nothing is sent in return, and every address
    learned is marked as used. *)
Theorem route_table_sync (env : SteamEnv) (now : Z)
    (sender : VpnRouteManager.t) (receiver : SteamVpnBridge.t)
    (senderSteamID : CSteamID) :
  keyed_by_address (VpnRouteManager.routingTable_ sender) ->
  one_ip_per_peer (VpnRouteManager.routingTable_ sender) ->
  (forall ip e, VpnRouteManager.routingTable_ sender !! ip = Some e ->
                0 <= ip < 2 ^ 32 /\ 0 <= steamID e < 2 ^ 64) ->
  Z.of_nat (length (VpnRouteManager.routeData sender)) < 2 ^ 16 ->
  VpnRouteManager.routingTable_ (SteamVpnBridge.routeManager_ receiver) = ∅ ->
  let r :=
    SteamVpnBridge.handleVpnMessage env now
      (SteamVpnBridge.message_bytes ROUTE_UPDATE
         (VpnRouteManager.routeData sender)) senderSteamID receiver in
  let tbl' :=
    VpnRouteManager.routingTable_ (SteamVpnBridge.routeManager_ r.1) in
  (forall ip e',
     tbl' !! ip = Some e'
     <-> exists e, VpnRouteManager.routingTable_ sender !! ip = Some e
                   /\ steamID e <> GetSteamID env
                   /\ in_subnet (SteamVpnBridge.baseIP_ receiver)
                                (SteamVpnBridge.subnetMask_ receiver) ip
                   /\ e' = learned_entry env (steamID e) ip)
  /\ r.2 = []
  /\ (VpnRouteManager.onRouteAddedCallback_
        (SteamVpnBridge.routeManager_ receiver) = true ->
      forall ip, is_Some (tbl' !! ip) ->
                 ip ∈ IpNegotiator.usedIPs_ (SteamVpnBridge.ipNegotiator_ r.1)).
Proof.
  intros Hkey Hone Hrange Hlen Hempty r tbl'.
  pose proof (handleRouteUpdate_sync env (SteamVpnBridge.baseIP_ receiver)
                (SteamVpnBridge.subnetMask_ receiver) (GetSteamID env) sender
                (SteamVpnBridge.routeManager_ receiver)
                Hkey Hone Hrange Hempty) as Hsync.
  cbv zeta in Hsync.
  assert (Hr : r = let '(rm, calls) :=
                     VpnRouteManager.handleRouteUpdate env
                       (VpnRouteManager.routeData sender)
                       (SteamVpnBridge.baseIP_ receiver)
                       (SteamVpnBridge.subnetMask_ receiver) (GetSteamID env)
                       (SteamVpnBridge.routeManager_ receiver) in
                   SteamVpnBridge.route_calls calls
                     (SteamVpnBridge.set_routeManager receiver rm)).
  { subst r.
    destruct (message_bytes_parse ROUTE_UPDATE
                (VpnRouteManager.routeData sender) Hlen)
      as (Hl & Hty & Hpay & Hsl).
    unfold SteamVpnBridge.handleVpnMessage.
    rewrite Hl, Hty, Hpay, Nat2Z.id, Hsl. unfold sizeof_VpnMessageHeader.
    destruct (Z.ltb_spec (3 + Z.of_nat (length (VpnRouteManager.routeData sender)))
                         3); [lia|].
    destruct (Z.ltb_spec (3 + Z.of_nat (length (VpnRouteManager.routeData sender)))
                (3 + Z.of_nat (length (VpnRouteManager.routeData sender))));
      [lia|].
    reflexivity. }
  pose proof (handleRouteUpdate_calls env (SteamVpnBridge.baseIP_ receiver)
                (SteamVpnBridge.subnetMask_ receiver) (GetSteamID env)
                (VpnRouteManager.records (VpnRouteManager.routeData sender))
                (SteamVpnBridge.routeManager_ receiver, [])
                (Forall_nil_2 _)) as Hcalls.
  pose proof (handleRouteUpdate_added env (SteamVpnBridge.baseIP_ receiver)
                (SteamVpnBridge.subnetMask_ receiver) (GetSteamID env)
                (VpnRouteManager.records (VpnRouteManager.routeData sender))
                (SteamVpnBridge.routeManager_ receiver, [])) as Hadded.
  cbv zeta in Hadded.
  unfold VpnRouteManager.handleRouteUpdate in Hsync, Hr.
  destruct (fold_left _ (VpnRouteManager.records _) _) as [rm' calls].
  cbn [fst snd] in *.
  destruct (route_calls_marks calls
              (SteamVpnBridge.set_routeManager receiver rm') [])
    as [Hrm Hused].
  cbv zeta in Hrm, Hused. fold (SteamVpnBridge.route_calls calls
    (SteamVpnBridge.set_routeManager receiver rm')) in Hrm, Hused.
  rewrite <- Hr in Hrm, Hused.
  assert (Htbl : tbl' = VpnRouteManager.routingTable_ rm')
    by (subst tbl'; by rewrite Hrm).
  repeat apply conj.
  - intros ip e'. rewrite Htbl. apply Hsync.
  - rewrite Hr. by apply route_calls_silent.
  - intros Hcb ip Hsome. apply Hused. right.
    rewrite Htbl in Hsome.
    destruct (Hadded Hcb) as [_ Hnew].
    apply Hnew in Hsome as [[e He]|Hin]; [|done].
    rewrite Hempty in He. done.
Qed.

Lemma route_table_sync_witness :
  VpnRouteManager.routingTable_
    (SteamVpnBridge.routeManager_
       (SteamVpnBridge.handleVpnMessage Examples.env 0
          (SteamVpnBridge.message_bytes ROUTE_UPDATE
             (VpnRouteManager.routeData Examples.routes_B5))
          Examples.peer_B Examples.bridge_probing).1) !! Examples.ip4 10 0 0 5
  = Some (learned_entry Examples.env Examples.peer_B (Examples.ip4 10 0 0 5)).
Proof.
  destruct (route_table_sync Examples.env 0 Examples.routes_B5
              Examples.bridge_probing Examples.peer_B) as [H _].
  - intros ip e Hl. change (VpnRouteManager.routingTable_ Examples.routes_B5)
      with ({[ Examples.ip4 10 0 0 5
               := Examples.entry_of Examples.peer_B (Examples.ip4 10 0 0 5) ]}
            : gmap Z RouteEntry) in Hl.
    apply lookup_singleton_Some in Hl as [<- <-]. reflexivity.
  - intros ip1 ip2 e1 e2 H1 H2 _.
    change (VpnRouteManager.routingTable_ Examples.routes_B5)
      with ({[ Examples.ip4 10 0 0 5
               := Examples.entry_of Examples.peer_B (Examples.ip4 10 0 0 5) ]}
            : gmap Z RouteEntry) in H1, H2.
    apply lookup_singleton_Some in H1 as [<- _].
    apply lookup_singleton_Some in H2 as [<- _]. reflexivity.
  - intros ip e Hl. change (VpnRouteManager.routingTable_ Examples.routes_B5)
      with ({[ Examples.ip4 10 0 0 5
               := Examples.entry_of Examples.peer_B (Examples.ip4 10 0 0 5) ]}
            : gmap Z RouteEntry) in Hl.
    apply lookup_singleton_Some in Hl as [<- <-].
    vm_compute. repeat split; discriminate.
  - vm_compute. reflexivity.
  - reflexivity.
  - apply H.
    exists (Examples.entry_of Examples.peer_B (Examples.ip4 10 0 0 5)).
    split; [apply lookup_singleton_eq|].
    split; [discriminate|]. split; reflexivity.
Defined.

(** ** The length field *)

(** [handleVpnMessage] reads a frame that passes its header checks only
    through the type byte, the length field and the payload that the
    length field delimits. *)
Lemma handleVpnMessage_parts (env : SteamEnv) (now : Z) (data data' : list byte)
    (senderSteamID : CSteamID) (b : SteamVpnBridge.t) :
  let pl := be_value (slice data 1 2) in
  0 <= pl ->
  3 + pl <= Z.of_nat (length data) -> 3 + pl <= Z.of_nat (length data') ->
  nth 0 data x00 = nth 0 data' x00 ->
  be_value (slice data' 1 2) = pl ->
  slice data 3 (Z.to_nat pl) = slice data' 3 (Z.to_nat pl) ->
  SteamVpnBridge.handleVpnMessage env now data senderSteamID b
  = SteamVpnBridge.handleVpnMessage env now data' senderSteamID b.
Proof.
  intros pl Hpl Hlen Hlen' Hty Hpl' Hsl.
  unfold SteamVpnBridge.handleVpnMessage. fold pl. rewrite Hpl', <- Hty, <- Hsl.
  unfold sizeof_VpnMessageHeader.
  destruct (Z.ltb_spec (Z.of_nat (length data)) 3); [lia|].
  destruct (Z.ltb_spec (Z.of_nat (length data')) 3); [lia|].
  destruct (Z.ltb_spec (Z.of_nat (length data)) (3 + pl)); [lia|].
  destruct (Z.ltb_spec (Z.of_nat (length data')) (3 + pl)); [lia|].
  reflexivity.
Qed.

(** X29: the length field of a frame has 16 bits.  A message built by
    [sendVpnMessage] or [broadcastVpnMessage] is handled as if its payload
    had been cut to its length modulo 65536; a payload shorter than
    65536 bytes arrives whole. *)
Theorem payload_cut_to_length_field (env : SteamEnv) (now : Z)
    (type : VpnMessageType) (payload : list byte) (senderSteamID : CSteamID)
    (b : SteamVpnBridge.t) :
  let seen :=
    firstn (Z.to_nat (Z.of_nat (length payload) mod 2 ^ 16)) payload in
  SteamVpnBridge.handleVpnMessage env now
    (SteamVpnBridge.message_bytes type payload) senderSteamID b
  = SteamVpnBridge.handleVpnMessage env now
      (SteamVpnBridge.message_bytes type seen) senderSteamID b
  /\ (Z.of_nat (length payload) < 2 ^ 16 -> seen = payload).
Proof.
  intros seen. set (m := Z.of_nat (length payload) mod 2 ^ 16) in *.
  assert (Hm : 0 <= m < 2 ^ 16) by (apply Z.mod_pos_bound; lia).
  assert (Hle : m <= Z.of_nat (length payload))
    by (apply Z.mod_le; lia).
  assert (Hseen : Z.of_nat (length seen) = m)
    by (subst seen; rewrite length_take; lia).
  split.
  - unfold SteamVpnBridge.message_bytes. fold m. rewrite Hseen.
    rewrite (Z.mod_small m) by lia.
    assert (Hfield : forall rest,
              be_value (slice (byte_of_Z (type_code type)
                               :: be_bytes2 m ++ rest) 1 2) = m).
    { intros rest. unfold slice. cbn [skipn be_bytes2 app firstn].
      by apply be_value_be_bytes2. }
    subst seen.
    apply handleVpnMessage_parts; rewrite ?Hfield; try done.
    all: try (cbn [length be_bytes2 app]; lia).
    unfold slice. cbn [skipn be_bytes2 app]. rewrite !drop_0.
    rewrite take_take. f_equal. lia.
  - intros Hsmall. subst seen m. rewrite Z.mod_small by lia.
    rewrite Nat2Z.id. apply firstn_all.
Qed.

(** ** The timeout poll *)

(** [onNegotiationSuccess] touches the negotiator only through the
    used-address set. *)
Lemma onNegotiationSuccess_negotiator (env : SteamEnv) (now : Z) (ip : Z)
    (nid : NodeID) (b : SteamVpnBridge.t) :
  let r := SteamVpnBridge.onNegotiationSuccess env now ip nid b in
  SteamVpnBridge.localIP_ r.1 = ip
  /\ IpNegotiator.state_ (SteamVpnBridge.ipNegotiator_ r.1)
     = IpNegotiator.state_ (SteamVpnBridge.ipNegotiator_ b)
  /\ IpNegotiator.localIP_ (SteamVpnBridge.ipNegotiator_ r.1)
     = IpNegotiator.localIP_ (SteamVpnBridge.ipNegotiator_ b).
Proof.
  intros r. subst r. unfold SteamVpnBridge.onNegotiationSuccess.
  cbn [SteamVpnBridge.localIP_ SteamVpnBridge.subnetMask_
       SteamVpnBridge.set_localIP].
  destruct (tun_set_ip_up env ip (SteamVpnBridge.subnetMask_ b)); [|done].
  unfold VpnRouteManager.updateRoute, VpnRouteManager.broadcastRouteUpdate,
    SteamVpnBridge.route_calls.
  destruct (VpnRouteManager.onRouteAddedCallback_
              (SteamVpnBridge.routeManager_ (SteamVpnBridge.set_localIP b ip)))
    eqn:Hadded;
    destruct (VpnRouteManager.broadcastCallback_
                (SteamVpnBridge.routeManager_ (SteamVpnBridge.set_localIP b ip)))
      eqn:Hbc;
    simpl in Hadded, Hbc; simpl; rewrite ?Hbc; simpl; done.
Qed.

(** X30: the poll of [tunReadThread] asks the negotiator at most every
    50 ms: an earlier poll changes nothing, whatever the state.  A poll
    that is due and finds the negotiator not Probing, or its probe window
    still open, only records the time of the check.  A poll that is due
    and finds the probe window over with no conflict collected
    broadcasts the ADDRESS_ANNOUNCE and then runs [onNegotiationSuccess]
    for the candidate and the local node ID; the bridge it leaves has a
    Stable negotiator at the candidate, which is also the local IP of the
    bridge. *)
Theorem poll_ends_probe_window (env : SteamEnv) (now lastTimeoutCheck : Z)
    (b : SteamVpnBridge.t) :
  let n := SteamVpnBridge.ipNegotiator_ b in
  let r := SteamVpnBridge.pollTimeout env now lastTimeoutCheck b in
  let due := 50 <= to_ms (now - lastTimeoutCheck) in
  let window_over :=
    PROBE_TIMEOUT_MS <= to_ms (now - IpNegotiator.probeStartTime_ n) in
  (~ due -> r = (b, lastTimeoutCheck, []))
  /\ (due ->
      IpNegotiator.state_ n <> IpNegotiator.PROBING \/ ~ window_over ->
      r = (b, now, []))
  /\ (due ->
      IpNegotiator.state_ n = IpNegotiator.PROBING -> window_over ->
      IpNegotiator.collectedConflicts_ n = [] ->
      IpNegotiator.broadcastCallback_ n = true ->
      IpNegotiator.successCallback_ n = true ->
      let cand := IpNegotiator.candidateIP_ n in
      let success :=
        SteamVpnBridge.onNegotiationSuccess env now cand
          (IpNegotiator.localNodeId_ n)
          (SteamVpnBridge.set_negotiator b
             (IpNegotiator.set_stable (IpNegotiator.set_conflicts n []) cand)) in
      r = (success.1, now,
           SteamVpnBridge.BroadcastMessage ADDRESS_ANNOUNCE
             (PAddressAnnounce {| aa_ipAddress := cand;
                                  aa_nodeId := IpNegotiator.localNodeId_ n |})
             true :: success.2)
      /\ IpNegotiator.state_ (SteamVpnBridge.ipNegotiator_ r.1.1)
         = IpNegotiator.STABLE
      /\ IpNegotiator.localIP_ (SteamVpnBridge.ipNegotiator_ r.1.1) = cand
      /\ SteamVpnBridge.localIP_ r.1.1 = cand).
Proof.
  intros n r due window_over. subst r due window_over.
  unfold SteamVpnBridge.pollTimeout.
  destruct (Z.leb_spec 50 (to_ms (now - lastTimeoutCheck))) as [Hdue|Hearly].
  2: { repeat apply conj; try done; intros; lia. }
  split; [intros H; by destruct H|]. split.
  - intros _ Hidle. unfold IpNegotiator.checkTimeout. fold n.
    assert (Hsame : SteamVpnBridge.set_negotiator b n = b)
      by (subst n; by destruct b).
    destruct (decide (IpNegotiator.state_ n = IpNegotiator.PROBING))
      as [Hst|Hst].
    + rewrite bool_decide_eq_true_2 by done. cbn [negb].
      destruct Hidle as [?|Hopen]; [done|].
      destruct (Z.ltb_spec (to_ms (now - IpNegotiator.probeStartTime_ n))
                           PROBE_TIMEOUT_MS); [|lia].
      unfold SteamVpnBridge.negotiator_calls. cbn [fold_left].
      by rewrite Hsame.
    + rewrite bool_decide_eq_false_2 by done. cbn [negb].
      unfold SteamVpnBridge.negotiator_calls. cbn [fold_left].
      by rewrite Hsame.
  - intros _ Hst Hel Hnone Hb Hs.
    set (cand := IpNegotiator.candidateIP_ n).
    set (success :=
           SteamVpnBridge.onNegotiationSuccess env now cand
             (IpNegotiator.localNodeId_ n)
             (SteamVpnBridge.set_negotiator b
                (IpNegotiator.set_stable (IpNegotiator.set_conflicts n [])
                   cand))).
    assert (E : (let '(n0, calls) :=
                   IpNegotiator.checkTimeout now (SteamVpnBridge.ipNegotiator_ b) in
                 let '(b0, effs) :=
                   SteamVpnBridge.negotiator_calls env now calls
                     (SteamVpnBridge.set_negotiator b n0) in
                 (b0, now, effs))
                = (success.1, now,
                   SteamVpnBridge.BroadcastMessage ADDRESS_ANNOUNCE
                     (PAddressAnnounce
                        {| aa_ipAddress := cand;
                           aa_nodeId := IpNegotiator.localNodeId_ n |})
                     true :: success.2)).
    { unfold IpNegotiator.checkTimeout. fold n.
      rewrite Hst, bool_decide_eq_true_2 by done. cbn [negb].
      destruct (Z.ltb_spec (to_ms (now - IpNegotiator.probeStartTime_ n))
                           PROBE_TIMEOUT_MS); [lia|].
      rewrite Hnone. cbn [IpNegotiator.arbitrate flat_map app].
      unfold IpNegotiator.sendAddressAnnounce.
      change (IpNegotiator.broadcastCallback_
                (IpNegotiator.set_stable (IpNegotiator.set_conflicts n [])
                   (IpNegotiator.candidateIP_ (IpNegotiator.set_conflicts n []))))
        with (IpNegotiator.broadcastCallback_ n).
      change (IpNegotiator.successCallback_
                (IpNegotiator.set_stable (IpNegotiator.set_conflicts n [])
                   (IpNegotiator.candidateIP_ (IpNegotiator.set_conflicts n []))))
        with (IpNegotiator.successCallback_ n).
      rewrite Hb, Hs.
      unfold SteamVpnBridge.negotiator_calls.
      cbn [fold_left SteamVpnBridge.negotiator_call app].
      change (IpNegotiator.candidateIP_ (IpNegotiator.set_conflicts n []))
        with cand.
      change (IpNegotiator.localIP_
                (IpNegotiator.set_stable (IpNegotiator.set_conflicts n []) cand))
        with cand.
      change (IpNegotiator.localNodeId_
                (IpNegotiator.set_stable (IpNegotiator.set_conflicts n []) cand))
        with (IpNegotiator.localNodeId_ n).
      fold success. by destruct success. }
    rewrite E. cbn [fst].
    destruct (onNegotiationSuccess_negotiator env now cand
                (IpNegotiator.localNodeId_ n)
                (SteamVpnBridge.set_negotiator b
                   (IpNegotiator.set_stable (IpNegotiator.set_conflicts n [])
                      cand))) as (Hip & Hstate & Hlocal).
    fold success in Hip, Hstate, Hlocal.
    repeat apply conj; try done.
Qed.

Lemma poll_ends_probe_window_witness :
  let after :=
    (SteamVpnBridge.pollTimeout Examples.env (600 * ticks_per_ms) 0
       Examples.bridge_probing).1.1 in
  IpNegotiator.state_ (SteamVpnBridge.ipNegotiator_ after) = IpNegotiator.STABLE
  /\ SteamVpnBridge.localIP_ after = Examples.ip4 10 0 0 9.
Proof.
  destruct (poll_ends_probe_window Examples.env (600 * ticks_per_ms) 0
              Examples.bridge_probing) as (_ & _ & H).
  destruct H as (_ & Hstate & _ & Hip).
  - vm_compute. discriminate.
  - reflexivity.
  - vm_compute. discriminate.
  - reflexivity.
  - reflexivity.
  - reflexivity.
  - split; [exact Hstate|exact Hip].
Defined.
